(** * Steam library to Notion synchronisation: a shallow embedding of [main.py]

    The script fetches the owned games of a Steam account, counts the
    achievements of each game, optionally filters games out, and creates or
    updates one Notion page per game through a retrying HTTP client.

    The embedding keeps the shape of the Python code:
    - Python floats are IEEE 754 binary64 numbers, taken from the standard
      library's [SpecFloat] (precision 53, [emax] 1024);
    - dictionaries built by the script are [gmap]s, JSON values received from
      the network are a small [pyval] type with association lists;
    - functions that log, sleep or talk to the network run in a state and
      exception monad [M] over a [world] record;
    - [try]/[except] blocks are [attempt]s followed by a case analysis on the
      exception class;
    - the script itself, from the validation of the database to the loop
      over the games, is [main], with the two collaborator modules as
      parameters. *)

From Stdlib Require Import ZArith QArith Qround Lqa String Ascii List Bool Lia.
From Stdlib Require Import Floats.SpecFloat.
From Stdlib Require Import DecimalString.
From stdpp Require Import base option list strings gmap.

Local Open Scope string_scope.
Local Open Scope Z_scope.

(** ** Binary64 floating point numbers and the Python operations on them *)

Module Float.

Definition prec : Z := 53.
Definition emax : Z := 1024.

Abbreviation float := spec_float.

Definition zero : float := S754_zero false.

(** [float(n)] for a Python integer, before the overflow test: the nearest
    double, ties to even. *)
Definition of_Z (z : Z) : float := binary_normalize prec emax z 0 false.

Definition div : float -> float -> float := SFdiv prec emax.
Definition mul : float -> float -> float := SFmul prec emax.
Definition ltb : float -> float -> bool := SFltb.
Definition leb : float -> float -> bool := SFleb.

Definition is_finite (x : float) : bool :=
  match x with
  | S754_zero _ | S754_finite _ _ _ => true
  | _ => false
  end.

Definition is_zero (x : float) : bool :=
  match x with
  | S754_zero _ => true
  | _ => false
  end.

(** The double nearest to the rational [n / d] (ties to even), with sign
    [s]; this is what [strtod] computes for a decimal numeral.  [n] and [d]
    may be of any size: the quotient is developed to 53 significant bits
    and the remainder decides the rounding. *)
Definition of_ratio (s : bool) (n : Z) (d : positive) : float :=
  match n with
  | Zpos _ =>
      let '(mz, ez, lz) := SFdiv_core_binary prec emax n 0 (Zpos d) 0 in
      binary_round_aux prec emax s mz ez lz
  | _ => S754_zero s
  end.

(** The value [c * 10 ^ p] of a decimal numeral, correctly rounded. *)
Definition of_decimal (s : bool) (c : Z) (p : Z) : float :=
  if 0 <=? p then of_ratio s (c * 10 ^ p) 1
  else of_ratio s c (Z.to_pos (10 ^ (- p))).

(** The integer nearest to [n / 2 ^ k], ties to the even integer
    ([n >= 0], [k > 0]). *)
Definition round_half_even_shr (n : Z) (k : Z) : Z :=
  let q := Z.shiftr n k in
  let r := Z.land n (Z.ones k) in
  let half := Z.shiftl 1 (k - 1) in
  match r ?= half with
  | Lt => q
  | Gt => q + 1
  | Eq => if Z.even q then q else q + 1
  end.

(** [round(x, 1)] on a float.  CPython prints the exact value of [x] with
    one digit after the point, rounding half to even, and reads the
    numeral back; infinities, NaN and zeros round to themselves. *)
Definition round1 (x : float) : float :=
  match x with
  | S754_finite s m e =>
      if 0 <=? e then x
      else of_ratio s (round_half_even_shr (10 * Zpos m) (- e)) 10
  | _ => x
  end.

(** *** [repr]: the shortest numeral that reads back as the same double *)

(** A positive finite double [m * 2 ^ e] as a fraction. *)
Definition fraction (m : positive) (e : Z) : Z * Z :=
  if 0 <=? e then (Zpos m * 2 ^ e, 1) else (Zpos m, 2 ^ (- e)).

(** [10 ^ k <= num / den] *)
Definition pow10_le (num den k : Z) : bool :=
  if 0 <=? k then 10 ^ k * den <=? num else den <=? num * 10 ^ (- k).

Fixpoint log10_up (fuel : nat) (num den k : Z) : Z :=
  match fuel with
  | O => k
  | S f => if pow10_le num den (k + 1) then log10_up f num den (k + 1) else k
  end.

Fixpoint log10_down (fuel : nat) (num den k : Z) : Z :=
  match fuel with
  | O => k
  | S f => if pow10_le num den k then k else log10_down f num den (k - 1)
  end.

(** The decimal exponent [k] with [10 ^ k <= num / den < 10 ^ (k + 1)],
    from a binary estimate corrected by at most a few steps. *)
Definition log10_floor (num den : Z) : Z :=
  let est := (Z.log2 num - Z.log2 den) * 30103 / 100000 in
  log10_up 8 num den (log10_down 8 num den est).

(** [floor (num / den / 10 ^ p)] *)
Definition scaled_floor (num den p : Z) : Z :=
  if 0 <=? p then num / (den * 10 ^ p) else (num * 10 ^ (- p)) / den.

(** Which of the two neighbours [lo * 10 ^ p] and [(lo + 1) * 10 ^ p] of
    [num / den] is nearer (ties to the even one): [true] for the upper. *)
Definition upper_is_nearer (num den lo p : Z) : bool :=
  let twice_x := if 0 <=? p then 2 * num else 2 * num * 10 ^ (- p) in
  let middle := if 0 <=? p then (2 * lo + 1) * 10 ^ p * den else (2 * lo + 1) * den in
  match twice_x ?= middle with
  | Lt => false
  | Gt => true
  | Eq => Z.odd lo
  end.

Definition eqb (x y : float) : bool :=
  match x, y with
  | S754_finite s1 m1 e1, S754_finite s2 m2 e2 =>
      Bool.eqb s1 s2 && Pos.eqb m1 m2 && Z.eqb e1 e2
  | _, _ => false
  end.

(** Search the digit counts 1, 2, ... for the first numeral [c * 10 ^ p]
    that reads back as [x]. *)
Fixpoint shortest (fuel : nat) (x : float) (num den k nd : Z) : Z * Z :=
  let p := k - nd + 1 in
  let lo := scaled_floor num den p in
  match fuel with
  | O => (lo, p)
  | S f =>
      let lo_ok := eqb (of_decimal false lo p) x in
      let hi_ok := eqb (of_decimal false (lo + 1) p) x in
      if lo_ok && hi_ok then
        (if upper_is_nearer num den lo p then lo + 1 else lo, p)
      else if lo_ok then (lo, p)
      else if hi_ok then (lo + 1, p)
      else shortest f x num den k (nd + 1)
  end.

Fixpoint strip_zeros (fuel : nat) (c p : Z) : Z * Z :=
  match fuel with
  | O => (c, p)
  | S f => if (c mod 10 =? 0) && (0 <? c) then strip_zeros f (c / 10) (p + 1) else (c, p)
  end.

Definition digits_of (z : Z) : string := NilZero.string_of_int (Z.to_int z).

Fixpoint zeros (n : nat) : string :=
  match n with
  | O => ""
  | S k => "0" +:+ zeros k
  end.

Definition string_take (n : nat) (s : string) : string := String.substring 0 n s.
Definition string_drop (n : nat) (s : string) : string :=
  String.substring n (String.length s - n) s.

(** The layout rules of [repr]: plain notation when the decimal point
    falls within [-4 < decpt <= 16], exponent notation otherwise. *)
Definition layout (digits : string) (decpt : Z) : string :=
  let len := Z.of_nat (String.length digits) in
  if (decpt <=? -4) || (16 <? decpt) then
    let ex := decpt - 1 in
    let mant :=
      if len =? 1 then digits
      else string_take 1 digits +:+ "." +:+ string_drop 1 digits in
    let ds := digits_of (Z.abs ex) in
    mant +:+ "e" +:+ (if ex <? 0 then "-" else "+")
         +:+ (if Z.abs ex <? 10 then "0" else "") +:+ ds
  else if decpt <=? 0 then
    "0." +:+ zeros (Z.to_nat (- decpt)) +:+ digits
  else if len <=? decpt then
    digits +:+ zeros (Z.to_nat (decpt - len)) +:+ ".0"
  else
    string_take (Z.to_nat decpt) digits +:+ "." +:+ string_drop (Z.to_nat decpt) digits.

Definition repr (x : float) : string :=
  match x with
  | S754_zero s => if s then "-0.0" else "0.0"
  | S754_infinity s => if s then "-inf" else "inf"
  | S754_nan => "nan"
  | S754_finite s m e =>
      let '(num, den) := fraction m e in
      let k := log10_floor num den in
      let '(c0, p0) := shortest 17 (S754_finite false m e) num den k 1 in
      let '(c, p) := strip_zeros 20 c0 p0 in
      let digits := digits_of c in
      let decpt := Z.of_nat (String.length digits) + p in
      (if s then "-" else "") +:+ layout digits decpt
  end.

(** *** Notions used to state the rounding facts *)

(** The exact value of a finite float. *)
Definition to_Q (x : float) : option Q :=
  match x with
  | S754_zero _ => Some 0%Q
  | S754_finite s m e =>
      let v := if 0 <=? e then inject_Z (Zpos m * 2 ^ e)
               else Qmake (Zpos m) (Z.to_pos (2 ^ (- e))) in
      Some (if s then Qopp v else v)
  | _ => None
  end.

(** A location of the rounding is inexact when bits were dropped. *)
Definition inexact (l : location) : bool :=
  match l with
  | loc_Exact => false
  | _ => true
  end.

(** Round to nearest, ties to even, from the round bit and the sticky bit. *)
Definition rne (m : Z) (r s : bool) : Z := if r && (s || Z.odd m) then m + 1 else m.

(** A float of sign [sx] whose magnitude is at most the integer [B]. *)
Definition bounded_by (sx : bool) (B : Z) (x : float) : Prop :=
  x = S754_zero sx
  \/ exists m e, x = S754_finite sx m e /\ e <= 0 /\ Zpos m <= B * 2 ^ (- e).


(** The integer that [float(n)] stands for: [n] itself up to 53 bits, else
    [n] rounded to 53 bits, ties to even. *)
Definition nearest_double (n : Z) : Z :=
  let d := Zdigits2 n in
  if d <=? 53 then n
  else
    let k := d - 53 in
    rne (n / 2 ^ k) (Z.odd (n / 2 ^ (k - 1))) (negb (n mod 2 ^ (k - 1) =? 0)) * 2 ^ k.


End Float.

Abbreviation float := spec_float.

(** ** Python values, exceptions and the monad of effects *)

(** JSON scalars, as Python values. *)
Inductive atom :=
  | ANone
  | ABool (b : bool)
  | AInt (z : Z)
  | AFloat (f : float)
  | AStr (s : string).

(** JSON values as Python builds them: objects are dictionaries in the order
    of the document. *)
#[local] Unset Elimination Schemes.
Inductive pyval :=
  | Atom (a : atom)
  | PList (l : list pyval)
  | PDict (d : list (string * pyval)).
#[local] Set Elimination Schemes.

Abbreviation PNone := (Atom ANone).
Abbreviation PBool b := (Atom (ABool b)).
Abbreviation PInt z := (Atom (AInt z)).
Abbreviation PFloat f := (Atom (AFloat f)).
Abbreviation PStr s := (Atom (AStr s)).

(** The numbers the script computes with: [completion] is the integer [-1]
    or a float. *)
Inductive number :=
  | Int (z : Z)
  | Flt (f : float).

Definition number_val (n : number) : pyval :=
  match n with
  | Int z => PInt z
  | Flt f => PFloat f
  end.

Inductive exn :=
  | KeyError (key : string)
  | TypeError
  | AttributeError
  | ValueError
  | OverflowError
  | OSError
  | ZeroDivisionError
  | UnboundLocalError (var : string)
  | ConnectionError          (* any transport failure raised by [requests] *)
  | HTTPError (status : Z)   (* raised by [raise_for_status] *)
  | JSONDecodeError.         (* raised by [response.json()] *)

(** [except requests.exceptions.RequestException]; the JSON error of
    [requests] derives from it as well as from [ValueError]. *)
Definition is_RequestException (e : exn) : bool :=
  match e with
  | ConnectionError | HTTPError _ | JSONDecodeError => true
  | _ => false
  end.

Definition is_ValueError (e : exn) : bool :=
  match e with
  | ValueError | JSONDecodeError => true
  | _ => false
  end.

Definition result (A : Type) : Type := exn + A.

(** [str] of an integer, and of the scalars. *)
Definition str_int (z : Z) : string := NilZero.string_of_int (Z.to_int z).

Definition str_atom (a : atom) : string :=
  match a with
  | ANone => "None"
  | ABool b => if b then "True" else "False"
  | AInt z => str_int z
  | AFloat f => Float.repr f
  | AStr s => s
  end.

Definition str_number (n : number) : string :=
  match n with
  | Int z => str_int z
  | Flt f => Float.repr f
  end.

(** [float(n)] raises [OverflowError] when the integer is too large. *)
Definition py_float (z : Z) : result float :=
  let f := Float.of_Z z in
  if Float.is_finite f then inr f else inl OverflowError.

(** [float(x)] for a number: a float is returned as it is. *)
Definition py_float_number (n : number) : result float :=
  match n with
  | Int z => py_float z
  | Flt f => inr f
  end.

(** [x / y] on floats raises [ZeroDivisionError] on a zero divisor. *)
Definition py_truediv (x y : float) : result float :=
  if Float.is_zero y then inl ZeroDivisionError else inr (Float.div x y).

(** [n >= 0] and [n > 0] on numbers. *)
Definition number_ge0 (n : number) : bool :=
  match n with
  | Int z => 0 <=? z
  | Flt f => Float.leb Float.zero f
  end.

(** Lookup in a JSON object. *)
Fixpoint dict_get (d : list (string * pyval)) (k : string) : option pyval :=
  match d with
  | [] => None
  | (k', v) :: d' => if String.eqb k' k then Some v else dict_get d' k
  end.

(** *** HTTP *)

Record Response := {
  status_code : Z;
  text : string;
  (** the parsed body, [None] when the body is not JSON *)
  json_body : option pyval
}.

(** What [requests.get], [requests.post] or [requests.patch] does: it returns
    a response or raises a transport exception. *)
Inductive http_outcome :=
  | Returns (r : Response)
  | Raises.

(** The properties of a page, keyed by column name, and the body of a
    create or update request. *)
Record page_data := {
  parent : option pyval;
  properties : gmap string pyval;
  cover : pyval;
  icon : pyval
}.

Inductive json_data :=
  | NoBody
  | Body (v : pyval)
  | PageBody (d : page_data).

Record request := {
  req_method : string;
  req_url : string;
  req_headers : list (string * string);
  req_json : json_data;
  req_params : list (string * atom)
}.

(** *** Logging *)

Inductive level := DEBUG | INFO | WARNING | ERROR.

Inductive log_arg :=
  | LStr (s : string)
  | LVal (v : pyval)
  | LExn (e : exn).

(** A log record: the level, the literal text of the message and the values
    formatted into it. *)
Record log_record := {
  lvl : level;
  msg : string;
  args : list log_arg
}.

(** *** The world *)

(** The remote services answer the [n]-th HTTP call of the run (counting from
    0) according to [network]; the script adds to [calls], [slept] and
    [logged], each with the latest entry first. *)
Record world := {
  network : nat -> request -> http_outcome;
  calls : list request;
  slept : list Z;
  logged : list log_record
}.

Definition M (A : Type) : Type := world -> result A * world.

Definition ret {A} (a : A) : M A := fun w => (inr a, w).

Definition raise {A} (e : exn) : M A := fun w => (inl e, w).

Definition bind {A B} (m : M A) (k : A -> M B) : M B :=
  fun w =>
    match m w with
    | (inr a, w') => k a w'
    | (inl e, w') => (inl e, w')
    end.

#[global] Instance M_ret : MRet M := @ret.
#[global] Instance M_bind : MBind M := fun A B k m => bind m k.
#[global] Instance M_fmap : FMap M := fun A B f m => bind m (fun a => ret (f a)).

(** Lift a pure computation that may raise. *)
Definition lift {A} (r : result A) : M A := fun w => (r, w).

(** The body of a [try]: its exception, if any, becomes a value. *)
Definition attempt {A} (m : M A) : M (result A) :=
  fun w => let '(r, w') := m w in (inr r, w').

Definition logger (l : level) (text : string) (a : list log_arg) : M unit :=
  fun w => (inr tt, {| network := network w; calls := calls w; slept := slept w;
                       logged := {| lvl := l; msg := text; args := a |} :: logged w |}).

Definition time_sleep (seconds : Z) : M unit :=
  fun w => (inr tt, {| network := network w; calls := calls w;
                       slept := seconds :: slept w; logged := logged w |}).

(** One call of [requests]. *)
Definition requests_call (rq : request) : M Response :=
  fun w =>
    let w' := {| network := network w; calls := rq :: calls w;
                 slept := slept w; logged := logged w |} in
    match network w (length (calls w)) rq with
    | Returns r => (inr r, w')
    | Raises => (inl ConnectionError, w')
    end.

(** [response.raise_for_status()]: client and server error codes raise. *)
Definition raise_for_status (r : Response) : M unit :=
  if (400 <=? status_code r) && (status_code r <? 600)
  then raise (HTTPError (status_code r))
  else ret tt.

(** [response.json()] *)
Definition response_json (r : Response) : M pyval :=
  match json_body r with
  | Some v => ret v
  | None => raise JSONDecodeError
  end.

(** [d[k]] on a dictionary of the script. *)
Definition getitem {A} (d : gmap string A) (k : string) : M A :=
  match d !! k with
  | Some v => ret v
  | None => raise (KeyError k)
  end.

(** [game[k]] *)
Definition field {A} (k : string) (o : option A) : M A :=
  match o with
  | Some v => ret v
  | None => raise (KeyError k)
  end.

(** *** Operations of Python on JSON values *)

(** Truth value of a JSON value. *)
Definition truthy (v : pyval) : bool :=
  match v with
  | PNone => false
  | PBool b => b
  | PInt z => negb (z =? 0)
  | PFloat f => negb (Float.is_zero f)
  | PStr s => negb (String.eqb s "")
  | PList l => match l with [] => false | _ => true end
  | PDict d => match d with [] => false | _ => true end
  end.

(** [v.get(k, default)]: only dictionaries have the method. *)
Definition py_get (v : pyval) (k : string) (default : pyval) : result pyval :=
  match v with
  | PDict d => inr (from_option id default (dict_get d k))
  | _ => inl AttributeError
  end.

(** [v[k]] for a string key. *)
Definition py_getitem (v : pyval) (k : string) : result pyval :=
  match v with
  | PDict d =>
      match dict_get d k with
      | Some x => inr x
      | None => inl (KeyError k)
      end
  | _ => inl TypeError
  end.

Definition is_substring (k s : string) : bool :=
  match String.index 0 k s with
  | Some _ => true
  | None => String.eqb k ""
  end.

Definition is_str (v : pyval) (k : string) : bool :=
  match v with
  | PStr s => String.eqb s k
  | _ => false
  end.

(** [k in v] for a string [k]: key of a dictionary, element of a list,
    substring of a string. *)
Definition py_contains (v : pyval) (k : string) : result bool :=
  match v with
  | PDict d => inr (bool_decide (is_Some (dict_get d k)))
  | PList l => inr (existsb (fun x => is_str x k) l)
  | PStr s => inr (is_substring k s)
  | _ => inl TypeError
  end.

(** The elements a [for] loop runs over: the items of a list, the keys of a
    dictionary, the characters of a string. *)
Definition py_iter (v : pyval) : result (list pyval) :=
  match v with
  | PList l => inr l
  | PDict d => inr (map (fun kv => PStr (fst kv)) d)
  | PStr s => inr (map (fun c => PStr (String c "")) (list_ascii_of_string s))
  | _ => inl TypeError
  end.

(** ** The [time] module *)

(** A time zone: the wall clock reading, in seconds, at an instant, and the
    instant of a wall clock reading. *)
Record timezone := {
  local_of_utc : Z -> Z;
  utc_of_local : Z -> Z
}.

Definition UTC : timezone := {| local_of_utc := fun t => t; utc_of_local := fun t => t |}.

Record struct_time := {
  tm_year : Z; tm_mon : Z; tm_mday : Z;
  tm_hour : Z; tm_min : Z; tm_sec : Z
}.

(** Days between 1970-01-01 and a date of the Gregorian calendar. *)
Definition days_from_civil (y m d : Z) : Z :=
  let y' := if m <=? 2 then y - 1 else y in
  let era := y' / 400 in
  let yoe := y' - era * 400 in
  let doy := (153 * (if 2 <? m then m - 3 else m + 9) + 2) / 5 + d - 1 in
  let doe := yoe * 365 + yoe / 4 - yoe / 100 + doy in
  era * 146097 + doe - 719468.

Definition civil_from_days (z : Z) : Z * Z * Z :=
  let z' := z + 719468 in
  let era := z' / 146097 in
  let doe := z' - era * 146097 in
  let yoe := (doe - doe / 1460 + doe / 36524 - doe / 146096) / 365 in
  let doy := doe - (365 * yoe + yoe / 4 - yoe / 100) in
  let mp := (5 * doy + 2) / 153 in
  let d := doy - (153 * mp + 2) / 5 + 1 in
  let m := if mp <? 10 then mp + 3 else mp - 9 in
  (yoe + era * 400 + (if m <=? 2 then 1 else 0), m, d).

Definition digit_of (c : ascii) : option Z :=
  let n := Z.of_nat (nat_of_ascii c) in
  if (48 <=? n) && (n <=? 57) then Some (n - 48) else None.

Fixpoint parse_digits (s : string) (acc : Z) : option Z :=
  match s with
  | EmptyString => Some acc
  | String c s' =>
      match digit_of c with
      | Some d => parse_digits s' (10 * acc + d)
      | None => None
      end
  end.

Definition number_at (s : string) (start len : nat) : option Z :=
  let part := String.substring start len s in
  if Nat.eqb (String.length part) len then parse_digits part 0 else None.

Definition char_at (s : string) (i : nat) (c : string) : bool :=
  String.eqb (String.substring i 1 s) c.

(** [time.strptime(s, "%Y-%m-%d %H:%M:%S")], for text laid out with four
    digits for the year and two for every other field. *)
Definition strptime (s : string) : result struct_time :=
  match number_at s 0 4, number_at s 5 2, number_at s 8 2,
        number_at s 11 2, number_at s 14 2, number_at s 17 2 with
  | Some y, Some mo, Some d, Some h, Some mi, Some sec =>
      if Nat.eqb (String.length s) 19
         && char_at s 4 "-" && char_at s 7 "-" && char_at s 10 " "
         && char_at s 13 ":" && char_at s 16 ":"
         && (1 <=? mo) && (mo <=? 12) && (1 <=? d) && (d <=? 31)
         && (h <=? 23) && (mi <=? 59) && (sec <=? 61)
      then inr {| tm_year := y; tm_mon := mo; tm_mday := d;
                  tm_hour := h; tm_min := mi; tm_sec := sec |}
      else inl ValueError
  | _, _, _, _, _, _ => inl ValueError
  end.

(** [time.mktime]: the instant of a local wall clock reading.  Python returns
    it as a float with an integral value; comparisons of integers with it are
    exact, so the embedding keeps the integer. *)
Definition mktime (tz : timezone) (t : struct_time) : Z :=
  utc_of_local tz
    (days_from_civil (tm_year t) (tm_mon t) (tm_mday t) * 86400
     + tm_hour t * 3600 + tm_min t * 60 + tm_sec t).

(** The timestamps that fit the 64-bit [time_t] of the platform, and the
    years whose offset from 1900 fits the [int] field [tm_year] of C. *)
Definition fits_time_t (t : Z) : bool :=
  (- 9223372036854775808 <=? t) && (t <=? 9223372036854775807).

Definition fits_tm_year (y : Z) : bool :=
  (- 2147483648 <=? y - 1900) && (y - 1900 <=? 2147483647).

(** [time.localtime(t)] for an integer [t], as CPython does on Linux: the
    conversion of [t] to [time_t] raises [OverflowError] when it does not
    fit, and [localtime_r] fails with [EOVERFLOW], raised as [OSError], when
    the year does not fit [tm_year]. *)
Definition localtime (tz : timezone) (t : Z) : result struct_time :=
  if negb (fits_time_t t) then inl OverflowError
  else
    let l := local_of_utc tz t in
    let '(y, m, d) := civil_from_days (l / 86400) in
    let s := l mod 86400 in
    if negb (fits_tm_year y) then inl OSError
    else inr {| tm_year := y; tm_mon := m; tm_mday := d;
                tm_hour := s / 3600; tm_min := (s mod 3600) / 60; tm_sec := s mod 60 |}.

Definition pad (width : nat) (z : Z) : string :=
  let d := str_int z in
  Float.zeros (width - String.length d) +:+ d.

(** [time.strftime("%Y-%m-%d", t)] with the C library of Linux: [%Y] prints
    the year as it is, without padding, [%m] and [%d] print two digits. *)
Definition strftime_ymd (t : struct_time) : string :=
  str_int (tm_year t) +:+ "-" +:+ pad 2 (tm_mon t) +:+ "-" +:+ pad 2 (tm_mday t).

(** ** Configuration and the data of the script *)

(** The environment variables read when the module is loaded. *)
Record config := {
  STEAM_API_KEY : option string;
  STEAM_USER_ID : option string;
  NOTION_API_KEY : option string;
  NOTION_DATABASE_ID : option string;
  include_played_free_games : string;
  enable_item_update : string;
  enable_filter : string
}.

(** [os.environ.get] gives a string or [None]. *)
Definition env_val (o : option string) : atom :=
  match o with
  | Some s => AStr s
  | None => ANone
  end.

(** A game of the owned-games list.  Every key is looked up with [game[k]]
    and may be absent. *)
Record game := {
  appid : option Z;
  name : option string;
  playtime_forever : option number;
  rtime_last_played : option Z;
  img_icon_url : option string
}.

(** An entry of the tag list of the store data: a dictionary or a scalar. *)
Inductive tag_value :=
  | TagDict (d : list (string * pyval))
  | TagAtom (a : atom).

Definition tag_val (t : tag_value) : pyval :=
  match t with
  | TagDict d => PDict d
  | TagAtom a => Atom a
  end.

Record steam_store_data := {
  info : option string;
  tag : option (list tag_value)
}.

(** A dictionary display [{k1: v1, k2: v2, ...}]: a later key replaces an
    earlier one. *)
Definition dict_of {A} (l : list (string * A)) : gmap string A :=
  fold_left (fun m kv => <[fst kv := snd kv]> m) l ∅.

Definition PROPERTY_MAPPING : gmap string string :=
  dict_of [
    ("TITLE", "游戏名称");
    ("PLAYTIME", "游玩时长 (h)");
    ("LAST_PLAYED", "上次游玩时间");
    ("STORE_URL", "商店链接");
    ("COMPLETION", "完成度");
    ("TOTAL_ACHIEVEMENTS", "总成就数");
    ("ACHIEVED_ACHIEVEMENTS", "已完成成就数");
    ("REVIEW", "评测");
    ("INFO", "游戏简介");
    ("TAGS", "游戏标签")
  ].

(** The items of [PROPERTY_TYPES], in the order of the source. *)
Definition PROPERTY_TYPES_items : list (string * string) := [
    ("游戏名称", "title");
    ("游玩时长 (h)", "number");
    ("上次游玩时间", "date");
    ("商店链接", "url");
    ("完成度", "multi_select");
    ("总成就数", "number");
    ("已完成成就数", "number");
    ("评测", "rich_text");
    ("游戏简介", "rich_text");
    ("游戏标签", "multi_select")
  ].

Definition PROPERTY_TYPES : gmap string string := dict_of PROPERTY_TYPES_items.

Definition MAX_RETRIES : Z := 20.
Definition RETRY_DELAY : Z := 2.

(** What [send_request_with_retry] returns: the response, or [{}]. *)
Inductive retry_result :=
  | Resp (r : Response)
  | EmptyMapping.

(** Truth value: a response is true when its status is no error, the empty
    dictionary is false. *)
Definition retry_truthy (r : retry_result) : bool :=
  match r with
  | Resp r => negb ((400 <=? status_code r) && (status_code r <? 600))
  | EmptyMapping => false
  end.

(** [r.json()] on the result of [send_request_with_retry] *)
Definition retry_json (r : retry_result) : M pyval :=
  match r with
  | Resp r => response_json r
  | EmptyMapping => raise AttributeError
  end.

(** ** The retrying HTTP client *)

Definition error_text_of (response : option Response) : string :=
  match response with
  | Some r => text r
  | None => "No response"
  end.

(** The [while retries > 0] loop of [send_request_with_retry].  [fuel] bounds
    the number of iterations; the loop needs [retries] of them at most. *)
Fixpoint retry_loop (fuel : nat) (url : string) (headers : list (string * string))
    (json : json_data) (params : list (string * atom))
    (method : string) (response : option Response) (retries : Z)
    : M retry_result :=
  match fuel with
  | O => mret EmptyMapping
  | S fuel' =>
      if 0 <? retries then
        let rq := {| req_method := method; req_url := url; req_headers := headers;
                     req_json := json; req_params := params |} in
        (* try: *)
        sent ← attempt (
          if String.eqb method "patch" then Some <$> requests_call rq
          else if String.eqb method "post" then Some <$> requests_call rq
          else if String.eqb method "get" then
            Some <$> requests_call {| req_method := method; req_url := url;
                                      req_headers := headers; req_json := NoBody;
                                      req_params := params |}
          else mret None);
        let except (response : option Response) (e : exn) : M retry_result :=
          if is_RequestException e then
            let error_text := error_text_of response in
            logger ERROR "请求异常: <{}> .错误: {}, 重试中...." [LExn e; LStr error_text];;
            let retries := retries - 1 in
            if 0 <? retries then
              time_sleep RETRY_DELAY;;
              retry_loop fuel' url headers json params method response retries
            else
              logger ERROR "超过最大重试次数.错误: {}, 放弃." [LStr error_text];;
              mret EmptyMapping
          else raise e in
        match sent with
        | inl e => except response e
        | inr assigned =>
            let response := match assigned with Some r => Some r | None => response end in
            match response with
            | None => raise AttributeError
            | Some r =>
                checked ← attempt (raise_for_status r);
                match checked with
                | inl e => except response e
                | inr _ => mret (Resp r)
                end
            end
        end
      else mret EmptyMapping
  end.

Definition send_request_with_retry (url : string) (headers : list (string * string))
    (json : json_data) (params : list (string * atom))
    (retries : Z) (method : string) : M retry_result :=
  let response := None in
  retry_loop (Z.to_nat retries) url headers json params method response retries.

Section Sync.

Context (cfg : config) (tz : timezone).

(** ** The schema validator *)

(** The body of the [for] loop over [PROPERTY_TYPES.items()]. *)
Fixpoint validate_loop (database : pyval) (items : list (string * string)) : M unit :=
  match items with
  | [] => mret tt
  | (prop_name, prop_type) :: rest =>
      props ← lift (py_getitem database "properties");
      present ← lift (py_contains props prop_name);
      (if present : bool then
         props ← lift (py_getitem database "properties");
         entry ← lift (py_getitem props prop_name);
         db_prop_type ← lift (py_getitem entry "type");
         if negb (is_str db_prop_type prop_type) then
           logger WARNING "属性 '{}' 类型不匹配: 数据库是 {}, 代码期望 {}"
             [LStr prop_name; LVal db_prop_type; LStr prop_type]
         else mret tt
       else
         logger WARNING "数据库中缺少属性: {}" [LStr prop_name]);;
      validate_loop database rest
  end.

Definition validate_database_structure : M bool :=
  let url := "https://api.notion.com/v1/databases/"
             +:+ str_atom (env_val (NOTION_DATABASE_ID cfg)) in
  let headers := [
    ("Authorization", "Bearer " +:+ str_atom (env_val (NOTION_API_KEY cfg)));
    ("Notion-Version", "2022-06-28")
  ] in
  (* try: *)
  r ← attempt (
    response ← requests_call {| req_method := "get"; req_url := url;
                                req_headers := headers; req_json := NoBody;
                                req_params := [] |};
    raise_for_status response;;
    database ← response_json response;
    validate_loop database PROPERTY_TYPES_items;;
    logger INFO "数据库结构验证完成" [];;
    mret true);
  match r with
  | inr b => mret b
  | inl e =>
      (* except Exception as e: *)
      logger ERROR "验证数据库结构失败: {}" [LExn e];;
      mret false
  end.

(** ** The Steam data fetcher *)

Definition get_owned_game_data_from_steam : M pyval :=
  let url := "http://api.steampowered.com/IPlayerService/GetOwnedGames/v0001/" in
  let params := [
    ("key", env_val (STEAM_API_KEY cfg));
    ("steamid", env_val (STEAM_USER_ID cfg));
    ("include_appinfo", ABool true);
    ("format", AStr "json")
  ] in
  let params :=
    if String.eqb (include_played_free_games cfg) "true"
    then (params ++ [("include_played_free_games", ABool true)])%list
    else params in
  logger INFO "从Steam获取数据中.." [];;
  r ← attempt (
    response ← send_request_with_retry url [] NoBody params MAX_RETRIES "get";
    if retry_truthy response then
      logger INFO "数据获取成功!" [];;
      retry_json response
    else
      logger ERROR "获取Steam数据失败: 无响应" [];;
      mret (PDict []));
  match r with
  | inr v => mret v
  | inl e =>
      logger ERROR "获取Steam数据失败: {}" [LExn e];;
      mret (PDict [])
  end.

(** [response] is first assigned inside the [try]: when [requests.get]
    itself raises, the handler reads a variable that has no value. *)
Definition query_achievements_info_from_steam (game : game) : M (option pyval) :=
  let url := "http://api.steampowered.com/ISteamUserStats/GetPlayerAchievements/v0001/" in
  id ← field "appid" (appid game);
  let params := [
    ("key", env_val (STEAM_API_KEY cfg));
    ("steamid", env_val (STEAM_USER_ID cfg));
    ("appid", AInt id)
  ] in
  n ← field "name" (name game);
  logger INFO "查询游戏成就数据: {}" [LStr n];;
  let except (response : option Response) (e : exn) : M (option pyval) :=
    if is_RequestException e then
      error_text ← match response with
                   | Some r => mret (text r)   (* hasattr(response, 'text') *)
                   | None => raise (UnboundLocalError "response")
                   end;
      n ← field "name" (name game);
      logger ERROR "查询成就失败: {}: {} .错误: {}" [LStr n; LExn e; LStr error_text];;
      mret None
    else if is_ValueError e then
      n ← field "name" (name game);
      logger ERROR "解析JSON响应失败: {}: {}" [LStr n; LExn e];;
      mret None
    else raise e in
  (* try: *)
  got ← attempt (requests_call {| req_method := "get"; req_url := url;
                                  req_headers := []; req_json := NoBody;
                                  req_params := params |});
  match got with
  | inl e => except None e
  | inr response =>
      parsed ← attempt (raise_for_status response;; response_json response);
      match parsed with
      | inl e => except (Some response) e
      | inr v => mret (Some v)
      end
  end.

Definition is_False (v : pyval) : bool :=
  match v with
  | PBool false => true
  | _ => false
  end.

(** [v is None] for a parsed body: the JSON value null is [None]. *)
Definition is_None (v : pyval) : bool :=
  match v with
  | PNone => true
  | _ => false
  end.

(** The [for achievement_dict in achievements_array] loop. *)
Fixpoint count_loop (achievements_array : list pyval)
    (achievements_info : gmap string Z) : M (gmap string Z) :=
  match achievements_array with
  | [] => mret achievements_info
  | achievement_dict :: rest =>
      t ← getitem achievements_info "total";
      let achievements_info := <["total" := t + 1]> achievements_info in
      achieved ← lift (py_getitem achievement_dict "achieved");
      achievements_info ← (
        if truthy achieved then
          a ← getitem achievements_info "achieved";
          mret (<["achieved" := a + 1]> achievements_info)
        else mret achievements_info);
      count_loop rest achievements_info
  end.

Definition get_achievements_count (game : game) : M (gmap string Z) :=
  game_achievements ← query_achievements_info_from_steam game;
  let achievements_info : gmap string Z := ∅ in
  let achievements_info := <["total" := 0]> achievements_info in
  let achievements_info := <["achieved" := 0]> achievements_info in
  (* [is None] holds when the query returned nothing and when the body of
     the answer is the JSON value null *)
  no_data ← match game_achievements with
            | None => mret true
            | Some v =>
                if is_None v then mret true
                else
                  playerstats ← lift (py_get v "playerstats" (PDict []));
                  success ← lift (py_get playerstats "success" (PBool false));
                  mret (is_False success)
            end;
  if no_data : bool then
    let achievements_info := <["total" := -1]> achievements_info in
    let achievements_info := <["achieved" := -1]> achievements_info in
    n ← field "name" (name game);
    logger INFO "游戏无成就信息: {}" [LStr n];;
    mret achievements_info
  else
    let v := from_option id PNone game_achievements in
    playerstats ← lift (py_getitem v "playerstats");
    has ← lift (py_contains playerstats "achievements");
    if negb has then
      let achievements_info := <["total" := -1]> achievements_info in
      let achievements_info := <["achieved" := -1]> achievements_info in
      n ← field "name" (name game);
      logger INFO "游戏无成就: {}" [LStr n];;
      mret achievements_info
    else
      playerstats ← lift (py_getitem v "playerstats");
      achievements_array ← lift (py_getitem playerstats "achievements");
      items ← lift (py_iter achievements_array);
      achievements_info ← count_loop items achievements_info;
      n ← field "name" (name game);
      logger INFO "{} 成就统计完成!" [LStr n];;
      mret achievements_info.

(** ** The record filter *)

Definition is_record (game : game) (achievements_info : gmap string Z) : M bool :=
  let not_record_time := "2020-01-01 00:00:00" in
  time_tuple ← lift (strptime not_record_time);
  let timestamp := mktime tz time_tuple in
  minutes ← field "playtime_forever" (playtime_forever game);
  x ← lift (py_float_number minutes);
  q ← lift (py_truediv x (Float.of_Z 60));
  let playtime := Float.round1 q in
  c1 ← (if Float.ltb playtime (Float.of_decimal false 1 (-1)) then
          t ← getitem achievements_info "total";
          mret (t <? 1)
        else mret false);
  c ← (if c1 : bool then mret true
       else if from_option id 0 (rtime_last_played game) <? timestamp then
         t ← getitem achievements_info "total";
         if t <? 1 then mret (Float.ltb playtime (Float.of_Z 6)) else mret false
       else mret false);
  if c : bool then
    n ← field "name" (name game);
    logger INFO "{} 不符合过滤规则!" [LStr n];;
    mret false
  else mret true.

(** ** The Notion reconciler *)

(** The local variables of [add_item_to_notion_database] and of
    [update_item_to_notion_database] at the point where the request is
    sent. *)
Record frame := {
  url : string;
  headers : list (string * string);
  playtime : float;
  last_played_time : string;
  store_url : string;
  icon_url : string;
  cover_url : string;
  total_achievements : Z;
  achieved_achievements : Z;
  completion : number;
  data : page_data
}.

(** The [for tag in ...] loop of [add_item_to_notion_database]. *)
Fixpoint add_item_tags_loop (l : list tag_value) (tags : list pyval) : M (list pyval) :=
  match l with
  | [] => mret tags
  | tag :: rest =>
      tags ← match tag with
             | TagDict d =>
                 match dict_get d "name" with
                 | Some v => mret (tags ++ [PDict [("name", v)]])%list
                 | None =>
                     logger WARNING "无效标签格式: {}" [LVal (tag_val tag)];;
                     mret tags
                 end
             | TagAtom a => mret (tags ++ [PDict [("name", PStr (str_atom a))]])%list
             end;
      add_item_tags_loop rest tags
  end.

(** Lines 195 to 281 of [add_item_to_notion_database]. *)
Definition add_item_frame (game : game) (achievements_info : gmap string Z)
    (review_text : string) (steam_store_data : steam_store_data) : M frame :=
  let url := "https://api.notion.com/v1/pages" in
  let headers := [
    ("Authorization", "Bearer " +:+ str_atom (env_val (NOTION_API_KEY cfg)));
    ("Content-Type", "application/json");
    ("Notion-Version", "2022-06-28")
  ] in
  n ← field "name" (name game);
  logger INFO "添加游戏到Notion: {}" [LStr n];;
  minutes ← field "playtime_forever" (playtime_forever game);
  x ← lift (py_float_number minutes);
  q ← lift (py_truediv x (Float.of_Z 60));
  let playtime := Float.round1 q in
  local ← lift (localtime tz (from_option id 0 (rtime_last_played game)));
  let last_played_time := strftime_ymd local in
  id1 ← field "appid" (appid game);
  let store_url := "https://store.steampowered.com/app/" +:+ str_int id1 in
  id2 ← field "appid" (appid game);
  icon ← field "img_icon_url" (img_icon_url game);
  let icon_url := "https://media.steampowered.com/steamcommunity/public/images/apps/"
                  +:+ str_int id2 +:+ "/" +:+ icon +:+ ".jpg" in
  id3 ← field "appid" (appid game);
  let cover_url := "https://steamcdn-a.akamaihd.net/steam/apps/"
                   +:+ str_int id3 +:+ "/header.jpg" in
  let total_achievements := from_option id 0 (achievements_info !! "total") in
  let achieved_achievements := from_option id 0 (achievements_info !! "achieved") in
  let completion := Int (-1) in
  completion ← (if 0 <? total_achievements then
                  a ← lift (py_float achieved_achievements);
                  t ← lift (py_float total_achievements);
                  r ← lift (py_truediv a t);
                  mret (Flt (Float.round1 (Float.mul r (Float.of_Z 100))))
                else mret completion);
  k_title ← getitem PROPERTY_MAPPING "TITLE";
  n ← field "name" (name game);
  k_playtime ← getitem PROPERTY_MAPPING "PLAYTIME";
  k_last_played ← getitem PROPERTY_MAPPING "LAST_PLAYED";
  k_store_url ← getitem PROPERTY_MAPPING "STORE_URL";
  k_total ← getitem PROPERTY_MAPPING "TOTAL_ACHIEVEMENTS";
  k_achieved ← getitem PROPERTY_MAPPING "ACHIEVED_ACHIEVEMENTS";
  k_review ← getitem PROPERTY_MAPPING "REVIEW";
  k_info ← getitem PROPERTY_MAPPING "INFO";
  let properties : gmap string pyval := dict_of [
    (k_title, PDict [
       ("type", PStr "title");
       ("title", PList [PDict [("type", PStr "text");
                               ("text", PDict [("content", PStr n)])]])]);
    (k_playtime, PDict [("type", PStr "number"); ("number", PFloat playtime)]);
    (k_last_played, PDict [("type", PStr "date");
                           ("date", PDict [("start", PStr last_played_time)])]);
    (k_store_url, PDict [("type", PStr "url"); ("url", PStr store_url)]);
    (k_total, PDict [("type", PStr "number"); ("number", PInt total_achievements)]);
    (k_achieved, PDict [("type", PStr "number"); ("number", PInt achieved_achievements)]);
    (k_review, PDict [
       ("type", PStr "rich_text");
       ("rich_text", PList [PDict [("type", PStr "text");
                                   ("text", PDict [("content", PStr review_text)])]])]);
    (k_info, PDict [
       ("type", PStr "rich_text");
       ("rich_text", PList [PDict [("type", PStr "text");
                                   ("text", PDict [("content",
                                      PStr (from_option id "" (info steam_store_data)))])]])])
  ] in
  k_completion ← getitem PROPERTY_MAPPING "COMPLETION";
  properties ← (
    if String.eqb (from_option id "" (PROPERTY_TYPES !! k_completion)) "multi_select" then
      let completion_value := [] in
      let completion_value :=
        if number_ge0 completion
        then [PDict [("name", PStr (str_number completion +:+ "%"))]]
        else completion_value in
      k ← getitem PROPERTY_MAPPING "COMPLETION";
      mret (<[k := PDict [("type", PStr "multi_select");
                          ("multi_select", PList completion_value)]]> properties)
    else
      k ← getitem PROPERTY_MAPPING "COMPLETION";
      mret (<[k := PDict [("type", PStr "number");
                          ("number", number_val completion)]]> properties));
  k_tags ← getitem PROPERTY_MAPPING "TAGS";
  properties ← (
    if String.eqb (from_option id "" (PROPERTY_TYPES !! k_tags)) "checkbox" then
      let has_tags := 0 <? Z.of_nat (length (from_option id [] (tag steam_store_data))) in
      k ← getitem PROPERTY_MAPPING "TAGS";
      mret (<[k := PDict [("type", PStr "checkbox");
                          ("checkbox", PBool has_tags)]]> properties)
    else
      let tags := [] in
      tags ← add_item_tags_loop (from_option id [] (tag steam_store_data)) tags;
      k ← getitem PROPERTY_MAPPING "TAGS";
      mret (<[k := PDict [("type", PStr "multi_select");
                          ("multi_select", PList tags)]]> properties));
  let data := {|
    parent := Some (PDict [("type", PStr "database_id");
                           ("database_id", Atom (env_val (NOTION_DATABASE_ID cfg)))]);
    properties := properties;
    cover := PDict [("type", PStr "external");
                    ("external", PDict [("url", PStr cover_url)])];
    icon := PDict [("type", PStr "external");
                   ("external", PDict [("url", PStr icon_url)])]
  |} in
  mret {| url := url; headers := headers; playtime := playtime;
          last_played_time := last_played_time; store_url := store_url;
          icon_url := icon_url; cover_url := cover_url;
          total_achievements := total_achievements;
          achieved_achievements := achieved_achievements;
          completion := completion; data := data |}.

Definition add_item_to_notion_database (game : game) (achievements_info : gmap string Z)
    (review_text : string) (steam_store_data : steam_store_data) : M pyval :=
  fr ← add_item_frame game achievements_info review_text steam_store_data;
  (* try: *)
  r ← attempt (
    response ← send_request_with_retry (url fr) (headers fr) (PageBody (data fr)) []
                 MAX_RETRIES "post";
    if retry_truthy response then
      n ← field "name" (name game);
      logger INFO "{} 添加成功!" [LStr n];;
      retry_json response
    else mret (PDict []));
  match r with
  | inr v => mret v
  | inl e =>
      logger ERROR "添加失败: {}" [LExn e];;
      mret (PDict [])
  end.

Definition query_item_from_notion_database (game : game) : M pyval :=
  let url := "https://api.notion.com/v1/databases/"
             +:+ str_atom (env_val (NOTION_DATABASE_ID cfg)) +:+ "/query" in
  let headers := [
    ("Authorization", "Bearer " +:+ str_atom (env_val (NOTION_API_KEY cfg)));
    ("Content-Type", "application/json");
    ("Notion-Version", "2022-06-28")
  ] in
  n ← field "name" (name game);
  logger INFO "在数据库中查询游戏: {}" [LStr n];;
  k_title ← getitem PROPERTY_MAPPING "TITLE";
  n ← field "name" (name game);
  let data := PDict [
    ("filter", PDict [
       ("property", PStr k_title);
       ("title", PDict [("equals", PStr n)])])
  ] in
  (* try: *)
  r ← attempt (
    response ← send_request_with_retry url headers (Body data) [] MAX_RETRIES "post";
    if retry_truthy response then
      logger INFO "查询完成!" [];;
      retry_json response
    else mret (PDict [("results", PList [])]));
  match r with
  | inr v => mret v
  | inl e =>
      logger ERROR "查询失败: {}" [LExn e];;
      mret (PDict [("results", PList [])])
  end.

(** The [for tag in ...] loop of [update_item_to_notion_database]. *)
Fixpoint update_item_tags_loop (l : list tag_value) (tags : list pyval) : M (list pyval) :=
  match l with
  | [] => mret tags
  | tag :: rest =>
      tags ← match tag with
             | TagDict d =>
                 match dict_get d "name" with
                 | Some v => mret (tags ++ [PDict [("name", v)]])%list
                 | None =>
                     logger WARNING "无效标签格式: {}" [LVal (tag_val tag)];;
                     mret tags
                 end
             | TagAtom a => mret (tags ++ [PDict [("name", PStr (str_atom a))]])%list
             end;
      update_item_tags_loop rest tags
  end.

(** Lines 325 to 410 of [update_item_to_notion_database]. *)
Definition update_item_frame (page_id : string) (game : game)
    (achievements_info : gmap string Z)
    (review_text : string) (steam_store_data : steam_store_data) : M frame :=
  let url := "https://api.notion.com/v1/pages/" +:+ page_id in
  let headers := [
    ("Authorization", "Bearer " +:+ str_atom (env_val (NOTION_API_KEY cfg)));
    ("Content-Type", "application/json");
    ("Notion-Version", "2022-06-28")
  ] in
  minutes ← field "playtime_forever" (playtime_forever game);
  x ← lift (py_float_number minutes);
  q ← lift (py_truediv x (Float.of_Z 60));
  let playtime := Float.round1 q in
  local ← lift (localtime tz (from_option id 0 (rtime_last_played game)));
  let last_played_time := strftime_ymd local in
  id1 ← field "appid" (appid game);
  let store_url := "https://store.steampowered.com/app/" +:+ str_int id1 in
  id2 ← field "appid" (appid game);
  icon ← field "img_icon_url" (img_icon_url game);
  let icon_url := "https://media.steampowered.com/steamcommunity/public/images/apps/"
                  +:+ str_int id2 +:+ "/" +:+ icon +:+ ".jpg" in
  id3 ← field "appid" (appid game);
  let cover_url := "https://steamcdn-a.akamaihd.net/steam/apps/"
                   +:+ str_int id3 +:+ "/header.jpg" in
  let total_achievements := from_option id 0 (achievements_info !! "total") in
  let achieved_achievements := from_option id 0 (achievements_info !! "achieved") in
  let completion := Int (-1) in
  completion ← (if 0 <? total_achievements then
                  a ← lift (py_float achieved_achievements);
                  t ← lift (py_float total_achievements);
                  r ← lift (py_truediv a t);
                  mret (Flt (Float.round1 (Float.mul r (Float.of_Z 100))))
                else mret completion);
  n ← field "name" (name game);
  logger INFO "更新游戏信息: {}" [LStr n];;
  k_title ← getitem PROPERTY_MAPPING "TITLE";
  n ← field "name" (name game);
  k_playtime ← getitem PROPERTY_MAPPING "PLAYTIME";
  k_last_played ← getitem PROPERTY_MAPPING "LAST_PLAYED";
  k_store_url ← getitem PROPERTY_MAPPING "STORE_URL";
  k_total ← getitem PROPERTY_MAPPING "TOTAL_ACHIEVEMENTS";
  k_achieved ← getitem PROPERTY_MAPPING "ACHIEVED_ACHIEVEMENTS";
  k_review ← getitem PROPERTY_MAPPING "REVIEW";
  k_info ← getitem PROPERTY_MAPPING "INFO";
  let properties : gmap string pyval := dict_of [
    (k_title, PDict [
       ("type", PStr "title");
       ("title", PList [PDict [("type", PStr "text");
                               ("text", PDict [("content", PStr n)])]])]);
    (k_playtime, PDict [("type", PStr "number"); ("number", PFloat playtime)]);
    (k_last_played, PDict [("type", PStr "date");
                           ("date", PDict [("start", PStr last_played_time)])]);
    (k_store_url, PDict [("type", PStr "url"); ("url", PStr store_url)]);
    (k_total, PDict [("type", PStr "number"); ("number", PInt total_achievements)]);
    (k_achieved, PDict [("type", PStr "number"); ("number", PInt achieved_achievements)]);
    (k_review, PDict [
       ("type", PStr "rich_text");
       ("rich_text", PList [PDict [("type", PStr "text");
                                   ("text", PDict [("content", PStr review_text)])]])]);
    (k_info, PDict [
       ("type", PStr "rich_text");
       ("rich_text", PList [PDict [("type", PStr "text");
                                   ("text", PDict [("content",
                                      PStr (from_option id "" (info steam_store_data)))])]])])
  ] in
  k_completion ← getitem PROPERTY_MAPPING "COMPLETION";
  properties ← (
    if String.eqb (from_option id "" (PROPERTY_TYPES !! k_completion)) "multi_select" then
      let completion_value := [] in
      let completion_value :=
        if number_ge0 completion
        then [PDict [("name", PStr (str_number completion +:+ "%"))]]
        else completion_value in
      k ← getitem PROPERTY_MAPPING "COMPLETION";
      mret (<[k := PDict [("type", PStr "multi_select");
                          ("multi_select", PList completion_value)]]> properties)
    else
      k ← getitem PROPERTY_MAPPING "COMPLETION";
      mret (<[k := PDict [("type", PStr "number");
                          ("number", number_val completion)]]> properties));
  k_tags ← getitem PROPERTY_MAPPING "TAGS";
  properties ← (
    if String.eqb (from_option id "" (PROPERTY_TYPES !! k_tags)) "checkbox" then
      let has_tags := 0 <? Z.of_nat (length (from_option id [] (tag steam_store_data))) in
      k ← getitem PROPERTY_MAPPING "TAGS";
      mret (<[k := PDict [("type", PStr "checkbox");
                          ("checkbox", PBool has_tags)]]> properties)
    else
      let tags := [] in
      tags ← update_item_tags_loop (from_option id [] (tag steam_store_data)) tags;
      k ← getitem PROPERTY_MAPPING "TAGS";
      mret (<[k := PDict [("type", PStr "multi_select");
                          ("multi_select", PList tags)]]> properties));
  let data := {|
    parent := None;
    properties := properties;
    cover := PDict [("type", PStr "external");
                    ("external", PDict [("url", PStr cover_url)])];
    icon := PDict [("type", PStr "external");
                   ("external", PDict [("url", PStr icon_url)])]
  |} in
  mret {| url := url; headers := headers; playtime := playtime;
          last_played_time := last_played_time; store_url := store_url;
          icon_url := icon_url; cover_url := cover_url;
          total_achievements := total_achievements;
          achieved_achievements := achieved_achievements;
          completion := completion; data := data |}.

Definition update_item_to_notion_database (page_id : string) (game : game)
    (achievements_info : gmap string Z)
    (review_text : string) (steam_store_data : steam_store_data) : M pyval :=
  fr ← update_item_frame page_id game achievements_info review_text steam_store_data;
  (* try: *)
  r ← attempt (
    response ← send_request_with_retry (url fr) (headers fr) (PageBody (data fr)) []
                 MAX_RETRIES "patch";
    if retry_truthy response then
      n ← field "name" (name game);
      logger INFO "{} 更新成功!" [LStr n];;
      retry_json response
    else mret (PDict []));
  match r with
  | inr v => mret v
  | inl e =>
      logger ERROR "更新失败: {}" [LExn e];;
      mret (PDict [])
  end.

End Sync.

(** ** The driver *)

(** The driver hands JSON values to functions that read games field by
    field.  The embedding covers the entries of the owned-games list that
    are objects whose "appid" and "rtime_last_played" are integers, whose
    "playtime_forever" is a number and whose "name" and "img_icon_url" are
    strings, each of them present or not, and the page identifiers that are
    scalars.  A run that meets any other value ends in [None]: the embedding
    says nothing about it. *)
Definition int_field (d : list (string * pyval)) (k : string) : option (option Z) :=
  match dict_get d k with
  | None => Some None
  | Some (PInt z) => Some (Some z)
  | Some _ => None
  end.

Definition num_field (d : list (string * pyval)) (k : string) : option (option number) :=
  match dict_get d k with
  | None => Some None
  | Some (PInt z) => Some (Some (Int z))
  | Some (PFloat f) => Some (Some (Flt f))
  | Some _ => None
  end.

Definition str_field (d : list (string * pyval)) (k : string) : option (option string) :=
  match dict_get d k with
  | None => Some None
  | Some (PStr s) => Some (Some s)
  | Some _ => None
  end.

Definition as_game (v : pyval) : option game :=
  match v with
  | PDict d =>
      match int_field d "appid", str_field d "name", num_field d "playtime_forever",
            int_field d "rtime_last_played", str_field d "img_icon_url" with
      | Some i, Some n, Some p, Some t, Some ic =>
          Some {| appid := i; name := n; playtime_forever := p;
                  rtime_last_played := t; img_icon_url := ic |}
      | _, _, _, _, _ => None
      end
  | _ => None
  end.

(** [f"{page_id}"] *)
Definition as_page_id (v : pyval) : option string :=
  match v with
  | Atom a => Some (str_atom a)
  | _ => None
  end.

(** [s[:n]]: the first [n] characters of a string held as UTF-8, a byte that
    continues a character staying with it. *)
Fixpoint slice_to (n : nat) (s : string) : string :=
  match s with
  | EmptyString => EmptyString
  | String c s' =>
      if (128 <=? Z.of_nat (nat_of_ascii c)) && (Z.of_nat (nat_of_ascii c) <? 192)
      then String c (slice_to n s')
      else match n with
           | O => EmptyString
           | S n' => String c (slice_to n' s')
           end
  end.

(** [results[0]] on a value that is true.  The first item of a list and the
    first character of a string; numbers cannot be indexed.  A dictionary
    raises a [KeyError] whose key is no string. *)
Definition first_item (results : pyval) : option (result pyval) :=
  match results with
  | PList (x :: _) => Some (inr x)
  | PStr (String c s) => Some (inr (PStr (slice_to 1 (String c s))))
  | PBool _ | PInt _ | PFloat _ => Some (inl TypeError)
  | _ => None
  end.

(** [key[:n]] on a variable of the environment: [None] cannot be sliced. *)
Definition key_prefix (n : nat) (key : option string) : M string :=
  match key with
  | Some s => mret (slice_to n s)
  | None => raise TypeError
  end.

(** [game["rtime_last_played"] = t] *)
Definition set_rtime_last_played (g : game) (t : Z) : game := {|
  appid := appid g;
  name := name g;
  playtime_forever := playtime_forever g;
  rtime_last_played := Some t;
  img_icon_url := img_icon_url g
|}.

Section Driver.

Context (cfg : config) (tz : timezone).

(** The collaborators [features.review] and [features.steamstore]: a review
    text for a game and a user, the store data of a game.  They are called
    as they are; what they do to the world is theirs. *)
Context (get_steam_review_info : Z -> atom -> M string).
Context (get_steam_store_info : Z -> M steam_store_data).

(** Lines 476 to 494: the filter, the query and the write of one game.
    [continue] ends the iteration with [Some tt]. *)
Definition reconcile (game : game) (achievements_info : gmap string Z)
    (review_text : string) (steam_store_data : steam_store_data) : M (option unit) :=
  skip ← (if String.eqb (enable_filter cfg) "true" then
            keep ← is_record tz game achievements_info;
            mret (negb keep)
          else mret false);
  if skip : bool then mret (Some tt)
  else
    queryed_item ← query_item_from_notion_database cfg game;
    has ← lift (py_contains queryed_item "results");
    if negb has then
      n ← field "name" (name game);
      logger ERROR "{} 查询失败! 跳过" [LStr n];;
      mret (Some tt)
    else
      results ← lift (py_getitem queryed_item "results");
      if truthy results then
        if String.eqb (enable_item_update cfg) "true" then
          n ← field "name" (name game);
          logger INFO "{} 已存在! 更新中..." [LStr n];;
          results ← lift (py_getitem queryed_item "results");
          match first_item results with
          | None => mret None
          | Some first =>
              first ← lift first;
              id ← lift (py_getitem first "id");
              match as_page_id id with
              | None => mret None
              | Some page_id =>
                  update_item_to_notion_database cfg tz page_id game achievements_info
                    review_text steam_store_data;;
                  mret (Some tt)
              end
          end
        else
          n ← field "name" (name game);
          logger INFO "{} 已存在! 跳过" [LStr n];;
          mret (Some tt)
      else
        n ← field "name" (name game);
        logger INFO "{} 不存在! 创建新条目" [LStr n];;
        add_item_to_notion_database cfg tz game achievements_info review_text
          steam_store_data;;
        mret (Some tt).

(** Lines 467 to 494: the body of the loop over the games. *)
Definition process_game (game : game) : M (option unit) :=
  achievements_info ← get_achievements_count cfg game;
  id ← field "appid" (appid game);
  review_text ← get_steam_review_info id (env_val (STEAM_USER_ID cfg));
  id ← field "appid" (appid game);
  steam_store_data ← get_steam_store_info id;
  n ← field "name" (name game);
  logger INFO "{} 评测: {}" [LStr n; LStr review_text];;
  game ← match rtime_last_played game with
         | None =>
             n ← field "name" (name game);
             logger INFO "{} 无最后游玩时间! 设置为0" [LStr n];;
             mret (set_rtime_last_played game 0)
         | Some _ => mret game
         end;
  reconcile game achievements_info review_text steam_store_data.

(** The loop [for game in owned_game_data["response"]["games"]]. *)
Fixpoint main_loop (games : list pyval) : M (option unit) :=
  match games with
  | [] => mret (Some tt)
  | v :: rest =>
      match as_game v with
      | None => mret None
      | Some game =>
          r ← process_game game;
          match r with
          | Some _ => main_loop rest
          | None => mret None
          end
      end
  end.

(** The script from line 446 on, once the command line is read and the log
    handlers are installed; it returns the exit status of the process, 1
    through [exit(1)] and 0 at the end of the file. *)
Definition main : M (option Z) :=
  logger DEBUG "环境变量配置:" [];;
  key ← key_prefix 4 (STEAM_API_KEY cfg);
  logger DEBUG "STEAM_API_KEY: {}..." [LStr key];;
  logger DEBUG "STEAM_USER_ID: {}" [LVal (Atom (env_val (STEAM_USER_ID cfg)))];;
  key ← key_prefix 6 (NOTION_API_KEY cfg);
  logger DEBUG "NOTION_API_KEY: {}..." [LStr key];;
  logger DEBUG "NOTION_DATABASE_ID: {}" [LVal (Atom (env_val (NOTION_DATABASE_ID cfg)))];;
  logger DEBUG "include_played_free_games: {}" [LStr (include_played_free_games cfg)];;
  logger DEBUG "enable_item_update: {}" [LStr (enable_item_update cfg)];;
  logger DEBUG "enable_filter: {}" [LStr (enable_filter cfg)];;
  valid ← validate_database_structure cfg;
  if negb valid then
    logger ERROR "数据库结构验证失败，请检查属性配置" [];;
    mret (Some 1)
  else
    owned_game_data ← get_owned_game_data_from_steam cfg;
    unusable ← (if negb (truthy owned_game_data) then mret true
                else
                  has ← lift (py_contains owned_game_data "response");
                  if negb has then mret true
                  else
                    response ← lift (py_getitem owned_game_data "response");
                    has ← lift (py_contains response "games");
                    mret (negb has));
    if unusable : bool then
      logger ERROR "无法获取Steam游戏数据，请检查API密钥和用户ID" [];;
      mret (Some 1)
    else
      response ← lift (py_getitem owned_game_data "response");
      games ← lift (py_getitem response "games");
      items ← lift (py_iter games);
      r ← main_loop items;
      mret (match r with
            | Some _ => Some 0
            | None => None
            end).

End Driver.

(** * Notions used in the statements *)

Definition add_logged (l : list log_record) (w : world) : world :=
  {| network := network w; calls := calls w; slept := slept w;
     logged := l ++ logged w |}.

Definition result_map {A B} (f : A -> B) (r : result A) : result B :=
  match r with
  | inl e => inl e
  | inr a => inr (f a)
  end.

(** The normalisation in the words of the specification: a dictionary with a
    name passes its name on, a dictionary without one is dropped, anything
    else is wrapped as its [str]. *)
Definition normalize_tag (t : tag_value) : option pyval :=
  match t with
  | TagDict d =>
      match dict_get d "name" with
      | Some v => Some (PDict [("name", v)])
      | None => None
      end
  | TagAtom a => Some (PDict [("name", PStr (str_atom a))])
  end.

Definition normalize_tags (l : list tag_value) : list pyval := omap normalize_tag l.

Definition malformed (t : tag_value) : bool :=
  match normalize_tag t with
  | Some _ => false
  | None => true
  end.

(** The warnings of a tag list, in the order of the tags. *)
Definition tag_warnings (l : list tag_value) : list log_record :=
  map (fun t => {| lvl := WARNING; msg := "无效标签格式: {}"; args := [LVal (tag_val t)] |})
      (List.filter malformed l).

(** [completion] in the words of the specification: [-1] when there are no
    achievements, else [round(achieved / total * 100, 1)]. *)
Definition completion_of (total achieved : Z) : result number :=
  if 0 <? total then
    match py_float achieved with
    | inl e => inl e
    | inr a =>
        match py_float total with
        | inl e => inl e
        | inr t =>
            match py_truediv a t with
            | inl e => inl e
            | inr r => inr (Flt (Float.round1 (Float.mul r (Float.of_Z 100))))
            end
        end
    end
  else inr (Int (-1)).

(** The COMPLETION property on a multi-select column. *)
Definition completion_property (c : number) : pyval :=
  PDict [("type", PStr "multi_select");
         ("multi_select",
          PList (if number_ge0 c then [PDict [("name", PStr (str_number c +:+ "%"))]] else []))].

Definition tags_property (l : list tag_value) : pyval :=
  PDict [("type", PStr "multi_select"); ("multi_select", PList (normalize_tags l))].

Definition number_property (v : pyval) : pyval :=
  PDict [("type", PStr "number"); ("number", v)].

(** What a successful run of either frame function fixes. *)
Record derived (g : game) (a : gmap string Z) (s : steam_store_data) (fr : frame) : Prop := {
  derived_fields :
    is_Some (appid g) /\ is_Some (name g) /\ is_Some (img_icon_url g);
  derived_playtime :
    exists minutes x q,
      playtime_forever g = Some minutes /\ py_float_number minutes = inr x /\
      py_truediv x (Float.of_Z 60) = inr q /\ playtime fr = Float.round1 q;
  derived_total : total_achievements fr = default 0 (a !! "total");
  derived_achieved : achieved_achievements fr = default 0 (a !! "achieved");
  derived_completion :
    completion_of (default 0 (a !! "total")) (default 0 (a !! "achieved"))
    = inr (completion fr);
  derived_COMPLETION :
    properties (data fr) !! "完成度" = Some (completion_property (completion fr));
  derived_TAGS :
    properties (data fr) !! "游戏标签" = Some (tags_property (default [] (tag s)));
  derived_PLAYTIME :
    properties (data fr) !! "游玩时长 (h)" = Some (number_property (PFloat (playtime fr)));
  derived_TOTAL :
    properties (data fr) !! "总成就数" = Some (number_property (PInt (total_achievements fr)));
  derived_ACHIEVED :
    properties (data fr) !! "已完成成就数"
    = Some (number_property (PInt (achieved_achievements fr)))
}.

Definition succeeds {A} (r : result A) : bool :=
  match r with
  | inr _ => true
  | inl _ => false
  end.

(** The games for which the frame functions reach the request: the keys
    are there, the playtime converts to a float and the time last played,
    0 when there is none, is a time that the platform can show as a local
    date. *)
Definition game_complete (tz : timezone) (g : game) : bool :=
  match appid g, name g, playtime_forever g, img_icon_url g with
  | Some _, Some _, Some minutes, Some _ =>
      succeeds (py_float_number minutes)
      && succeeds (localtime tz (default 0 (rtime_last_played g)))
  | _, _, _, _ => false
  end.

(** Two runs agree on a payload when both raise or both return the same
    payload. *)
Definition same_payload {A} (r1 r2 : result A) : Prop :=
  match r1, r2 with
  | inr p1, inr p2 => p1 = p2
  | inl _, inl _ => True
  | _, _ => False
  end.

Definition properties_of (run : result frame * world) : result (gmap string pyval) :=
  result_map (fun fr => properties (data fr)) (fst run).

(** The page that a PATCH with the properties [new] leaves: the properties
    given replace the stored ones, the others stay. *)
Definition patched (new stored : gmap string pyval) : gmap string pyval := new ∪ stored.

(** An attempt fails when [requests] raises or the status is an error. *)
Definition attempt_fails (o : http_outcome) : bool :=
  match o with
  | Raises => true
  | Returns r => (400 <=? status_code r) && (status_code r <? 600)
  end.

(** Every call from now on fails, whatever the request. *)
Definition all_attempts_fail (w : world) : Prop :=
  forall k rq, (length (calls w) <= k)%nat -> attempt_fails (network w k rq) = true.

Definition supported (method : string) : bool :=
  String.eqb method "patch" || String.eqb method "post" || String.eqb method "get".

Module Examples.

Definition cfg : config := {|
  STEAM_API_KEY := Some "steam-key";
  STEAM_USER_ID := Some "76561198000000000";
  NOTION_API_KEY := Some "secret";
  NOTION_DATABASE_ID := Some "db";
  include_played_free_games := "true";
  enable_item_update := "true";
  enable_filter := "false"
|}.

(** A world in which every call raises a transport error. *)
Definition offline : world :=
  {| network := fun _ _ => Raises; calls := []; slept := []; logged := [] |}.

(** A world in which every call is answered by [r]. *)
Definition answering (r : Response) : world :=
  {| network := fun _ _ => Returns r; calls := []; slept := []; logged := [] |}.

Definition half_life : game := {|
  appid := Some 10;
  name := Some "Half-Life";
  playtime_forever := Some (Int 600);
  rtime_last_played := Some 1700000000;
  img_icon_url := Some "icon"
|}.

Definition ten_of_twenty : gmap string Z := dict_of [("total", 20); ("achieved", 10)].

Definition store : steam_store_data := {|
  info := Some "A game.";
  tag := Some [TagAtom (AStr "Indie");
               TagDict [("name", PStr "RPG")];
               TagDict [("bad", PInt 1)]]
|}.

End Examples.

Definition no_results : pyval := PDict [("results", PList [])].

(** The next call is answered by a response without an error status whose
    body is not JSON. *)
Definition next_is_not_json (w : world) : Prop :=
  forall rq, exists r,
    network w (length (calls w)) rq = Returns r
    /\ ((400 <=? status_code r) && (status_code r <? 600)) = false
    /\ json_body r = None.

Definition tenth : float := Float.of_decimal false 1 (-1).

(** The instant of 2020-01-01 00:00:00 on the local clock. *)
Definition cutoff (tz : timezone) : Z :=
  mktime tz {| tm_year := 2020; tm_mon := 1; tm_mday := 1;
               tm_hour := 0; tm_min := 0; tm_sec := 0 |}.

(** The hours shown for a playtime in minutes: [round(minutes / 60, 1)]. *)
Definition hours_of (minutes : Z) : float :=
  Float.round1 (Float.div (Float.of_Z minutes) (Float.of_Z 60)).

(** The same for minutes that are a float already. *)
Definition hours (x : float) : float := Float.round1 (Float.div x (Float.of_Z 60)).

(** The exclusion rule in the words of the specification. *)
Definition excluded (playtime : float) (last_played total limit : Z) : bool :=
  (Float.ltb playtime tenth && (total <? 1))
  || ((last_played <? limit) && (total <? 1) && Float.ltb playtime (Float.of_Z 6)).

Definition six_minutes_long_ago : game := {|
  appid := Some 70;
  name := Some "Half-Life";
  playtime_forever := Some (Int 6);
  rtime_last_played := Some 0;
  img_icon_url := Some "icon"
|}.

(** Two games played in November 2023: one for 6 minutes, one for 5.94
    minutes, which are 0.099 hours. *)
Definition six_minutes_recently : game := {|
  appid := Some 70;
  name := Some "Half-Life";
  playtime_forever := Some (Int 6);
  rtime_last_played := Some 1700000000;
  img_icon_url := Some "icon"
|}.

Definition short_of_tenth : game := {|
  appid := Some 70;
  name := Some "Half-Life";
  playtime_forever := Some (Flt (Float.of_decimal false 594 (-2)));
  rtime_last_played := Some 1700000000;
  img_icon_url := Some "icon"
|}.

Definition no_achievements : gmap string Z := dict_of [("total", 0); ("achieved", 0)].


(** The fields of the game of the scenario that the specification writes
    out; [with_icon] adds the icon that every game of the owned-games list
    carries. *)
Definition scenario_game : game := {|
  appid := Some 10;
  name := Some "Half-Life";
  playtime_forever := Some (Int 600);
  rtime_last_played := Some 1700000000;
  img_icon_url := None
|}.

Definition with_icon (g : game) (ic : string) : game := {|
  appid := appid g;
  name := name g;
  playtime_forever := playtime_forever g;
  rtime_last_played := rtime_last_played g;
  img_icon_url := Some ic
|}.

Definition validate_request (cfg : config) : request := {|
  req_method := "get";
  req_url := "https://api.notion.com/v1/databases/"
             +:+ str_atom (env_val (NOTION_DATABASE_ID cfg));
  req_headers := [
    ("Authorization", "Bearer " +:+ str_atom (env_val (NOTION_API_KEY cfg)));
    ("Notion-Version", "2022-06-28")
  ];
  req_json := NoBody;
  req_params := []
|}.

(** The schema that the validator gets to see: the parsed body of the
    answer, when the fetch and the parse succeed. *)
Definition fetched_schema (cfg : config) (w : world) : option pyval :=
  match network w (length (calls w)) (validate_request cfg) with
  | Returns r =>
      if (400 <=? status_code r) && (status_code r <? 600) then None else json_body r
  | Raises => None
  end.

(** An expected property is absent, or is an object with a type. *)
Definition entry_typed (props : list (string * pyval)) (prop_name : string) : bool :=
  match dict_get props prop_name with
  | None => true
  | Some (PDict entry) => bool_decide (is_Some (dict_get entry "type"))
  | Some _ => false
  end.

(** The body has the shape of a database object: an object whose
    "properties" member is an object with typed entries. *)
Definition schema_shaped (db : pyval) : bool :=
  match db with
  | PDict d =>
      match dict_get d "properties" with
      | Some (PDict props) => forallb (entry_typed props) (map fst PROPERTY_TYPES_items)
      | _ => false
      end
  | _ => false
  end.

(** The schema agrees with the expected types. *)
Definition schema_matches (db : pyval) : bool :=
  match db with
  | PDict d =>
      match dict_get d "properties" with
      | Some (PDict props) =>
          forallb (fun kv =>
                     match dict_get props (fst kv) with
                     | Some (PDict entry) =>
                         match dict_get entry "type" with
                         | Some t => is_str t (snd kv)
                         | None => false
                         end
                     | _ => false
                     end) PROPERTY_TYPES_items
      | _ => false
      end
  | _ => false
  end.

(** A database whose columns all have other types than the expected ones,
    and one that answers with an empty object. *)
Definition mistyped_schema : pyval :=
  PDict [("properties",
          PDict [("游戏名称", PDict [("type", PStr "rich_text")]);
                 ("完成度", PDict [("type", PStr "number")])])].

Definition ok_response (body : pyval) : Response :=
  {| status_code := 200; text := "(json)"; json_body := Some body |}.

Definition sentinel : gmap string Z := <["achieved" := -1]> (<["total" := -1]> (<["achieved" := 0]> (<["total" := 0]> ∅))).

(** An entry counts as achieved when its "achieved" field is true. *)
Definition is_achieved (entry : pyval) : bool :=
  match py_getitem entry "achieved" with
  | inr v => truthy v
  | inl _ => false
  end.

Definition achieved_count (items : list pyval) : nat := length (List.filter is_achieved items).


(** [completion] as a float: [round(achieved / total * 100, 1)]. *)
Definition percent (achieved total : Z) : float :=
  Float.round1 (Float.mul (Float.div (Float.of_Z achieved) (Float.of_Z total))
                  (Float.of_Z 100)).

(** The completion is [-1] or a float between 0 and 100. *)
Definition completion_in_range (c : number) : Prop :=
  c = Int (-1)
  \/ exists f v, c = Flt f /\ Float.to_Q f = Some v /\ (0 <= v <= 100)%Q.

(** The answer of Steam for a game with two achievements, one of them
    achieved. *)
Definition one_of_two : pyval :=
  PDict [("playerstats",
          PDict [("steamID", PStr "76561198000000000");
                 ("gameName", PStr "Half-Life");
                 ("achievements",
                  PList [PDict [("apiname", PStr "FIRST"); ("achieved", PInt 1)];
                         PDict [("apiname", PStr "SECOND"); ("achieved", PInt 0)]]);
                 ("success", PBool true)])].

(** The achievements counted from that answer. *)
Definition one_achieved_of_two : gmap string Z :=
  <["achieved" := 1]> (<["total" := 2]> (<["total" := 1]>
    (<["achieved" := 0]> (<["total" := 0]> ∅)))).

(** ** Notions for the runs of the client, of its callers and of the driver *)

(** The request of an attempt: [requests.get] is called without the JSON
    body. *)
Definition request_of (url : string) (headers : list (string * string))
    (json : json_data) (params : list (string * atom)) (method : string) : request :=
  {| req_method := method; req_url := url; req_headers := headers;
     req_json := if String.eqb method "get" then NoBody else json;
     req_params := params |}.

(** The answer of the network to the [k]-th call from now. *)
Definition answer (w : world) (k : nat) (rq : request) : http_outcome :=
  network w (length (calls w) + k) rq.

(** The error lines of a run of [n] attempts: one for each failed attempt,
    and one more when the client gives up. *)
Definition error_lines (res : retry_result) (n : nat) : nat :=
  match res, n with
  | Resp _, _ => (n - 1)%nat
  | EmptyMapping, O => O
  | EmptyMapping, S _ => S n
  end.

(** An answer that is no failure. *)
Definition success (o : http_outcome) : option Response :=
  match o with
  | Returns r => if attempt_fails o then None else Some r
  | Raises => None
  end.

(** The first of the answers [k], [k+1], ... [k+n-1] to [rq] that is no
    failure, with its index. *)
Fixpoint first_success (w : world) (rq : request) (k n : nat) : option (nat * Response) :=
  match n with
  | O => None
  | S n' =>
      match success (answer w k rq) with
      | Some r => Some (k, r)
      | None => first_success w rq (S k) n'
      end
  end.

(** The world after [n] attempts at [rq]: the network is the same, [n] calls
    were made and the run slept between them. *)
Definition attempts (rq : request) (n : nat) (w w' : world) : Prop :=
  network w' = network w
  /\ calls w' = (repeat rq n ++ calls w)%list
  /\ slept w' = (repeat RETRY_DELAY (n - 1) ++ slept w)%list.

(** The attempts that the client makes on a budget: up to the first answer
    that is no failure, or all of them. *)
Definition attempts_made (budget : nat) (d : option (nat * Response)) : nat :=
  match d with
  | Some (i, _) => S i
  | None => budget
  end.

(** What the callers of the client make of its result: the parsed body of
    the response, or [fallback] when there is no response or its body is not
    JSON. *)
Definition body_or (fallback : pyval) (d : option (nat * Response)) : pyval :=
  match d with
  | Some (_, r) => default fallback (json_body r)
  | None => fallback
  end.

(** The requests of the script. *)
Definition notion_headers (cfg : config) : list (string * string) := [
  ("Authorization", "Bearer " +:+ str_atom (env_val (NOTION_API_KEY cfg)));
  ("Content-Type", "application/json");
  ("Notion-Version", "2022-06-28")
].

Definition query_request (cfg : config) (n : string) : request := {|
  req_method := "post";
  req_url := "https://api.notion.com/v1/databases/"
             +:+ str_atom (env_val (NOTION_DATABASE_ID cfg)) +:+ "/query";
  req_headers := notion_headers cfg;
  req_json := Body (PDict [("filter", PDict [("property", PStr "游戏名称");
                                             ("title", PDict [("equals", PStr n)])])]);
  req_params := []
|}.

Definition page_request (method : string) (fr : frame) : request := {|
  req_method := method;
  req_url := url fr;
  req_headers := headers fr;
  req_json := PageBody (data fr);
  req_params := []
|}.

Definition owned_games_request (cfg : config) : request := {|
  req_method := "get";
  req_url := "http://api.steampowered.com/IPlayerService/GetOwnedGames/v0001/";
  req_headers := [];
  req_json := NoBody;
  req_params :=
    [("key", env_val (STEAM_API_KEY cfg));
     ("steamid", env_val (STEAM_USER_ID cfg));
     ("include_appinfo", ABool true);
     ("format", AStr "json")]
    ++ (if String.eqb (include_played_free_games cfg) "true"
        then [("include_played_free_games", ABool true)] else [])
|}.

(** A computation that only logs: it leaves the world as it was but for the
    log. *)
Definition only_logs {A} (m : M A) : Prop :=
  forall w, exists l, snd (m w) = add_logged l w.

(** The warning of the validator for one expected property: none when the
    column is there with the expected type. *)
Definition schema_warning (props : list (string * pyval)) (kv : string * string)
    : option log_record :=
  match dict_get props (fst kv) with
  | None => Some {| lvl := WARNING; msg := "数据库中缺少属性: {}"; args := [LStr (fst kv)] |}
  | Some entry =>
      match py_getitem entry "type" with
      | inr t =>
          if is_str t (snd kv) then None
          else Some {| lvl := WARNING;
                       msg := "属性 '{}' 类型不匹配: 数据库是 {}, 代码期望 {}";
                       args := [LStr (fst kv); LVal t; LStr (snd kv)] |}
      | inl _ => None
      end
  end.

(** The warnings for a schema, in the order of [PROPERTY_TYPES]. *)
Definition schema_warnings (props : list (string * pyval)) : list log_record :=
  omap (schema_warning props) PROPERTY_TYPES_items.

Definition achievements_request (cfg : config) (id : Z) : request := {|
  req_method := "get";
  req_url := "http://api.steampowered.com/ISteamUserStats/GetPlayerAchievements/v0001/";
  req_headers := [];
  req_json := NoBody;
  req_params := [("key", env_val (STEAM_API_KEY cfg));
                 ("steamid", env_val (STEAM_USER_ID cfg));
                 ("appid", AInt id)]
|}.

(** The world after one more call, [rq], and the log lines [l]. *)
Definition called (rq : request) (l : list log_record) (w : world) : world :=
  {| network := network w; calls := rq :: calls w; slept := slept w;
     logged := l ++ logged w |}.

(** An entry of the achievements list that can be counted. *)
Definition has_achieved (entry : pyval) : bool :=
  match py_getitem entry "achieved" with
  | inr _ => true
  | inl _ => false
  end.

(** The achievements that an answer of Steam lists: the list under
    "playerstats", when the answer does not report a failure. *)
Definition listed_achievements (body : pyval) : option (list pyval) :=
  match body with
  | PDict d =>
      match dict_get d "playerstats" with
      | Some (PDict ps) =>
          if is_False (default (PBool false) (dict_get ps "success")) then None
          else
            match dict_get ps "achievements" with
            | Some (PList items) => Some items
            | _ => None
            end
      | _ => None
      end
  | _ => None
  end.

(** An answer that stands for no achievements: no "playerstats", or a
    "success" that is false or missing, or no "achievements". *)
Definition reports_no_achievements (body : pyval) : bool :=
  match body with
  | PDict d =>
      match dict_get d "playerstats" with
      | None => true
      | Some (PDict ps) =>
          is_False (default (PBool false) (dict_get ps "success"))
          || negb (bool_decide (is_Some (dict_get ps "achievements")))
      | Some _ => false
      end
  | _ => false
  end.

Definition validation_done : log_record :=
  {| lvl := INFO; msg := "数据库结构验证完成"; args := [] |}.


(** The filter lets the game through: it is off, or [is_record] says true. *)
Definition filter_passes (cfg : config) (tz : timezone) (g : game) (a : gmap string Z)
    (w : world) : Prop :=
  enable_filter cfg = "true" -> is_record tz g a w = (inr true, w).

(** What the query returns for the title [n] in the world [w]. *)
Definition queried (cfg : config) (n : string) (w : world) : pyval :=
  body_or no_results (first_success w (query_request cfg n) 0 20).

(** The attempts of the query for the title [n] lead from [w] to [w']. *)
Definition after_query (cfg : config) (n : string) (w w' : world) : Prop :=
  attempts (query_request cfg n)
    (attempts_made 20 (first_success w (query_request cfg n) 0 20)) w w'.

(** The lines that [main] logs before it validates the database. *)
Definition debug_lines (cfg : config) (k1 k2 : string) : list log_record := [
  {| lvl := DEBUG; msg := "enable_filter: {}"; args := [LStr (enable_filter cfg)] |};
  {| lvl := DEBUG; msg := "enable_item_update: {}"; args := [LStr (enable_item_update cfg)] |};
  {| lvl := DEBUG; msg := "include_played_free_games: {}";
     args := [LStr (include_played_free_games cfg)] |};
  {| lvl := DEBUG; msg := "NOTION_DATABASE_ID: {}";
     args := [LVal (Atom (env_val (NOTION_DATABASE_ID cfg)))] |};
  {| lvl := DEBUG; msg := "NOTION_API_KEY: {}..."; args := [LStr (slice_to 6 k2)] |};
  {| lvl := DEBUG; msg := "STEAM_USER_ID: {}";
     args := [LVal (Atom (env_val (STEAM_USER_ID cfg)))] |};
  {| lvl := DEBUG; msg := "STEAM_API_KEY: {}..."; args := [LStr (slice_to 4 k1)] |};
  {| lvl := DEBUG; msg := "环境变量配置:"; args := [] |}
].

(** The owned games that [main] gets in the world [w]: the fetch runs after
    the one request of the validator. *)
Definition owned (cfg : config) (w : world) : pyval :=
  body_or (PDict [])
    (first_success (called (validate_request cfg) [] w) (owned_games_request cfg) 0 20).

(** The body has the shape of a database object. *)
Definition shaped_schema (cfg : config) (w : world) : Prop :=
  exists d props,
    fetched_schema cfg w = Some (PDict d)
    /\ dict_get d "properties" = Some (PDict props)
    /\ forallb (entry_typed props) (map fst PROPERTY_TYPES_items) = true.

(** The requests of [main] before the loop: one for the schema, then the
    attempts at the owned games. *)
Definition startup_calls (cfg : config) (w : world) : list request :=
  repeat (owned_games_request cfg)
    (attempts_made 20
       (first_success (called (validate_request cfg) [] w) (owned_games_request cfg) 0 20))
  ++ [validate_request cfg].

(** A computation whose new requests all satisfy [P], whether it returns or
    raises. *)
Definition sends (P : request -> Prop) {A} (m : M A) : Prop :=
  forall w, exists new, calls (snd (m w)) = (new ++ calls w)%list /\ Forall P new.

Definition not_patch (rq : request) : Prop := req_method rq <> "patch".

(** ** Worlds, answers and configurations of the examples *)

(** A world whose first [k] calls raise a transport error and whose later
    calls are answered by [r]. *)
Definition flaky (k : nat) (r : Response) : world :=
  {| network := fun n _ => if (n <? k)%nat then Raises else Returns r;
     calls := []; slept := []; logged := [] |}.

(** The answers of a run: the [n]-th call is answered by the [n]-th
    response of the list, and calls beyond the list raise. *)
Definition scripted (answers : list Response) : world :=
  {| network := fun n _ => match nth_error answers n with
                           | Some r => Returns r
                           | None => Raises
                           end;
     calls := []; slept := []; logged := [] |}.

(** A world that answers every call with the body [b]. *)
Definition always (b : pyval) : world := Examples.answering (ok_response b).

(** The answer of Steam for a private profile. *)
Definition forbidden : Response :=
  {| status_code := 403; text := "Forbidden"; json_body := None |}.

Definition one_page : pyval := PDict [("results", PList [PDict [("id", PStr "page")]])].

Definition matching_schema : pyval :=
  PDict [("object", PStr "database");
         ("properties",
          PDict [("游戏名称", PDict [("type", PStr "title")]);
                 ("游玩时长 (h)", PDict [("type", PStr "number")]);
                 ("上次游玩时间", PDict [("type", PStr "date")]);
                 ("商店链接", PDict [("type", PStr "url")]);
                 ("完成度", PDict [("type", PStr "multi_select")]);
                 ("总成就数", PDict [("type", PStr "number")]);
                 ("已完成成就数", PDict [("type", PStr "number")]);
                 ("评测", PDict [("type", PStr "rich_text")]);
                 ("游戏简介", PDict [("type", PStr "rich_text")]);
                 ("游戏标签", PDict [("type", PStr "multi_select")])])].

(** A schema with all the expected columns, the last one with another
    type. *)
Definition tags_as_checkbox : pyval :=
  PDict [("object", PStr "database");
         ("properties",
          PDict [("游戏名称", PDict [("type", PStr "title")]);
                 ("游玩时长 (h)", PDict [("type", PStr "number")]);
                 ("上次游玩时间", PDict [("type", PStr "date")]);
                 ("商店链接", PDict [("type", PStr "url")]);
                 ("完成度", PDict [("type", PStr "multi_select")]);
                 ("总成就数", PDict [("type", PStr "number")]);
                 ("已完成成就数", PDict [("type", PStr "number")]);
                 ("评测", PDict [("type", PStr "rich_text")]);
                 ("游戏简介", PDict [("type", PStr "rich_text")]);
                 ("游戏标签", PDict [("type", PStr "checkbox")])])].

Definition empty_library : pyval :=
  PDict [("response", PDict [("game_count", PInt 0); ("games", PList [])])].

(** Half-Life as the owned-games list carries it. *)
Definition half_life_json : pyval :=
  PDict [("appid", PInt 10); ("name", PStr "Half-Life"); ("playtime_forever", PInt 600);
         ("rtime_last_played", PInt 1700000000); ("img_icon_url", PStr "icon")].


(** The configuration of the examples with the updates off. *)
Definition no_updates : config := {|
  STEAM_API_KEY := Some "steam-key";
  STEAM_USER_ID := Some "76561198000000000";
  NOTION_API_KEY := Some "secret";
  NOTION_DATABASE_ID := Some "db";
  include_played_free_games := "true";
  enable_item_update := "false";
  enable_filter := "false"
|}.

(** A configuration without the key of Steam. *)
Definition no_steam_key : config := {|
  STEAM_API_KEY := None;
  STEAM_USER_ID := Some "76561198000000000";
  NOTION_API_KEY := Some "secret";
  NOTION_DATABASE_ID := Some "db";
  include_played_free_games := "true";
  enable_item_update := "true";
  enable_filter := "false"
|}.

(** Collaborators that answer with a fixed review and fixed store data. *)
Definition review_of (text : string) : Z -> atom -> M string := fun _ _ => mret text.

Definition store_of (s : steam_store_data) : Z -> M steam_store_data := fun _ => mret s.

(** * Properties *)

(** ** Facts on the rounding of binary64 numbers *)

Module FloatFacts.

Import Float.

Lemma digits2_pos_bounds p :
  2 ^ (Zpos (digits2_pos p) - 1) <= Zpos p < 2 ^ Zpos (digits2_pos p).
Proof.
  induction p as [p IH|p IH|]; cbn [digits2_pos].
  - rewrite Pos2Z.inj_succ. replace (Z.succ (Zpos (digits2_pos p)) - 1) with (Zpos (digits2_pos p)) by lia.
    rewrite Z.pow_succ_r by lia.
    replace (2 ^ Zpos (digits2_pos p)) with (2 * 2 ^ (Zpos (digits2_pos p) - 1)) in *
      by (rewrite <- Z.pow_succ_r by lia; f_equal; lia).
    lia.
  - rewrite Pos2Z.inj_succ. replace (Z.succ (Zpos (digits2_pos p)) - 1) with (Zpos (digits2_pos p)) by lia.
    rewrite Z.pow_succ_r by lia.
    replace (2 ^ Zpos (digits2_pos p)) with (2 * 2 ^ (Zpos (digits2_pos p) - 1)) in *
      by (rewrite <- Z.pow_succ_r by lia; f_equal; lia).
    lia.
  - cbn. lia.
Qed.

Lemma Zdigits2_bounds m :
  0 < m -> 2 ^ (Zdigits2 m - 1) <= m < 2 ^ Zdigits2 m.
Proof. destruct m as [|p|p]; try lia. intros _. apply digits2_pos_bounds. Qed.

Lemma Zdigits2_nonneg m : 0 <= Zdigits2 m.
Proof. destruct m; cbn; lia. Qed.

Lemma Zdigits2_pos m : 0 < m -> 0 < Zdigits2 m.
Proof. destruct m; cbn; lia. Qed.

(** One step of the right shift halves the mantissa and remembers what it
    drops. *)
Lemma shr_1_spec m r s :
  0 <= m ->
  shr_1 {| shr_m := m; shr_r := r; shr_s := s |}
  = {| shr_m := m / 2; shr_r := Z.odd m; shr_s := r || s |}.
Proof.
  intros Hm. destruct m as [|p|p]; [reflexivity| |lia].
  destruct p as [p|p|]; cbn [shr_1 Z.odd].
  - f_equal. rewrite Pos2Z.inj_xI. apply Z.div_unique with 1; lia.
  - f_equal. rewrite Pos2Z.inj_xO. apply Z.div_unique with 0; lia.
  - reflexivity.
Qed.

Lemma iter_pos_nat {A} (f : A -> A) p : forall x, SpecFloat.iter_pos f p x = Nat.iter (Pos.to_nat p) f x.
Proof.
  induction p as [p IH|p IH|]; intros x; cbn [SpecFloat.iter_pos].
  - rewrite !IH, Pos2Nat.inj_xI.
    replace (S (2 * Pos.to_nat p)) with (S (Pos.to_nat p + Pos.to_nat p)) by lia.
    rewrite Nat.iter_succ_r, Nat.iter_add. reflexivity.
  - rewrite !IH, Pos2Nat.inj_xO.
    replace (2 * Pos.to_nat p)%nat with (Pos.to_nat p + Pos.to_nat p)%nat by lia.
    rewrite Nat.iter_add. reflexivity.
  - reflexivity.
Qed.

Lemma mod_double m P :
  0 < P ->
  negb (m mod (2 * P) =? 0) = Z.odd (m / P) || negb (m mod P =? 0).
Proof.
  intros HP.
  pose proof (Z.div_mod m P ltac:(lia)) as E.
  pose proof (Z.mod_pos_bound m P HP) as Hb.
  pose proof (Z.div_mod (m / P) 2 ltac:(lia)) as E'.
  destruct (Z.odd (m / P)) eqn:Hodd.
  - cbn [orb]. apply negb_true_iff, Z.eqb_neq.
    rewrite Zodd_mod in Hodd. apply Z.eqb_eq in Hodd.
    rewrite <- (Z.mod_unique m (2 * P) (m / P / 2) (P + m mod P)); [lia | left; lia | ].
    rewrite E at 1. rewrite E' at 1. rewrite Hodd. ring.
  - cbn [orb]. f_equal. f_equal.
    assert (Hev : (m / P) mod 2 = 0).
    { pose proof (Zodd_mod (m / P)) as Ho. rewrite Hodd in Ho.
      symmetry in Ho. apply Z.eqb_neq in Ho.
      pose proof (Z.mod_pos_bound (m / P) 2 ltac:(lia)). lia. }
    symmetry. apply (Z.mod_unique m (2 * P) (m / P / 2) (m mod P)); [left; lia|].
    rewrite E at 1. rewrite E' at 1. rewrite Hev. ring.
Qed.

(** [k + 1] steps divide by [2 ^ (k + 1)]; the round bit is bit [k], the
    sticky bit tells whether anything below was set. *)
Lemma shr_iter k : forall m r s,
  0 <= m ->
  Nat.iter (S k) shr_1 {| shr_m := m; shr_r := r; shr_s := s |}
  = {| shr_m := m / 2 ^ Z.of_nat (S k);
       shr_r := Z.odd (m / 2 ^ Z.of_nat k);
       shr_s := r || s || negb (m mod 2 ^ Z.of_nat k =? 0) |}.
Proof.
  induction k as [|k IH]; intros m r s Hm.
  - cbn [Nat.iter]. rewrite shr_1_spec by done. cbn [Z.of_nat Z.pow Z.pow_pos Pos.iter Pos.of_succ_nat].
    rewrite Z.div_1_r, Z.mod_1_r. cbn. by rewrite orb_false_r.
  - rewrite Nat.iter_succ, IH by done.
    rewrite shr_1_spec by (apply Z.div_pos; lia).
    set (P := 2 ^ Z.of_nat k). assert (HP : 0 < P) by (apply Z.pow_pos_nonneg; lia).
    assert (E1 : 2 ^ Z.of_nat (S k) = 2 * P)
      by (rewrite Nat2Z.inj_succ, Z.pow_succ_r by lia; reflexivity).
    assert (E2 : 2 ^ Z.of_nat (S (S k)) = 2 * (2 * P))
      by (rewrite Nat2Z.inj_succ, Z.pow_succ_r, E1 by lia; reflexivity).
    rewrite E1, E2.
    f_equal.
    + rewrite Z.div_div by lia. f_equal. lia.
    + pose proof (mod_double m P HP) as K.
      rewrite K. destruct r, s, (Z.odd (m / P)), (negb (m mod P =? 0)); reflexivity.
Qed.

Lemma shr_spec m r s e n :
  0 <= m -> 0 < n ->
  shr {| shr_m := m; shr_r := r; shr_s := s |} e n
  = ({| shr_m := m / 2 ^ n;
        shr_r := Z.odd (m / 2 ^ (n - 1));
        shr_s := r || s || negb (m mod 2 ^ (n - 1) =? 0) |}, e + n).
Proof.
  intros Hm Hn. destruct n as [|p|p]; try lia. cbn [shr].
  rewrite iter_pos_nat.
  destruct (Pos.to_nat p) as [|k] eqn:Hk; [lia|].
  rewrite shr_iter by done.
  replace (Z.of_nat (S k)) with (Zpos p) by lia.
  replace (Z.of_nat k) with (Zpos p - 1) by lia. reflexivity.
Qed.

Lemma round_nearest_even_rne m m' r s :
  round_nearest_even m (loc_of_shr_record {| shr_m := m'; shr_r := r; shr_s := s |})
  = rne m r s.
Proof.
  unfold rne. destruct r, s; cbn; try reflexivity.
  rewrite <- Z.negb_odd. by destruct (Z.odd m).
Qed.

Lemma rne_bounds m r s : m <= rne m r s <= m + (if r || s then 1 else 0).
Proof. unfold rne. destruct r, s, (Z.odd m); cbn; lia. Qed.

Lemma shr_record_of_loc_bits m l :
  exists r s, shr_record_of_loc m l = {| shr_m := m; shr_r := r; shr_s := s |}
              /\ r || s = inexact l.
Proof. destruct l as [|[| |]]; cbn; eauto. Qed.

(** The first step of [binary_round_aux]: a right shift by
    [n = max 0 (fexp (digits m + e) - e)] places. *)
Lemma shr_fexp_floor m e l :
  0 <= m ->
  exists m1 r1 s1 n,
    shr_fexp prec emax m e l = ({| shr_m := m1; shr_r := r1; shr_s := s1 |}, e + n)
    /\ 0 <= n
    /\ e + n = Z.max e (fexp prec emax (Zdigits2 m + e))
    /\ m1 = m / 2 ^ n
    /\ r1 || s1 = inexact l || negb (m mod 2 ^ n =? 0).
Proof.
  intros Hm. unfold shr_fexp.
  destruct (shr_record_of_loc_bits m l) as (r & s & -> & Hrs).
  set (n := fexp prec emax (Zdigits2 m + e) - e).
  destruct (Z.ltb_spec 0 n) as [Hn|Hn].
  - rewrite shr_spec by done. eexists _, _, _, n. split; [reflexivity|].
    split; [lia|]. split; [lia|]. split; [reflexivity|].
    rewrite <- Hrs.
    replace (2 ^ n) with (2 * 2 ^ (n - 1))
      by (rewrite <- Z.pow_succ_r by lia; f_equal; lia).
    rewrite mod_double by (apply Z.pow_pos_nonneg; lia).
    destruct r, s, (Z.odd (m / 2 ^ (n - 1))), (negb (m mod 2 ^ (n - 1) =? 0)); reflexivity.
  - exists m, r, s, 0. replace (shr _ e n) with ({| shr_m := m; shr_r := r; shr_s := s |}, e)
      by (unfold shr; destruct n; try reflexivity; lia).
    rewrite Z.add_0_r. split; [reflexivity|]. split; [lia|]. split; [lia|].
    rewrite Z.pow_0_r, Z.div_1_r, Z.mod_1_r. split; [reflexivity|].
    rewrite <- Hrs. cbn. by rewrite orb_false_r.
Qed.

(** A mantissa below [B * 2 ^ (- e)] with [B < 2 ^ 53] needs no positive
    exponent. *)
Lemma fexp_nonpos B m e :
  0 <= m -> e <= 0 -> B < 2 ^ 53 -> m <= B * 2 ^ (- e) ->
  fexp prec emax (Zdigits2 m + e) <= 0.
Proof.
  intros Hm He HB Hle. unfold fexp, emin, prec, emax.
  destruct (Z.eq_dec m 0) as [->|Hne]; [cbn; lia|].
  destruct (Z.le_gt_cases (Zdigits2 m + e - 53) 0) as [|Hbig]; [lia|].
  exfalso.
  pose proof (Zdigits2_bounds m ltac:(lia)) as [Hlo _].
  assert (2 ^ (53 - e) <= 2 ^ (Zdigits2 m - 1)) by (apply Z.pow_le_mono_r; lia).
  assert (2 ^ (53 - e) = 2 ^ 53 * 2 ^ (- e)) by (rewrite <- Z.pow_add_r by lia; f_equal; lia).
  assert (0 < 2 ^ (- e)) by (apply Z.pow_pos_nonneg; lia).
  nia.
Qed.

(** Dropping [n] bits of a mantissa that is below a multiple of [2 ^ n]. *)
Lemma shift_le Q m n (i : bool) :
  0 <= m -> 0 <= n ->
  m + (if i then 1 else 0) <= Q * 2 ^ n ->
  m / 2 ^ n + (if i || negb (m mod 2 ^ n =? 0) then 1 else 0) <= Q.
Proof.
  intros Hm Hn Hle.
  assert (HP : 0 < 2 ^ n) by (apply Z.pow_pos_nonneg; lia).
  pose proof (Z.div_mod m (2 ^ n) ltac:(lia)) as E.
  pose proof (Z.mod_pos_bound m (2 ^ n) HP) as Hb.
  destruct (m mod 2 ^ n =? 0) eqn:Hz; [apply Z.eqb_eq in Hz | apply Z.eqb_neq in Hz];
    destruct i; cbn [orb negb] in *; nia.
Qed.

(** Rounding does not cross an integer below [2 ^ 53]: if the exact value,
    given by the mantissa [mx], the exponent [ex <= 0] and the location
    [lx], is at most [B], so is the rounded float. *)
Lemma binary_round_aux_le sx B mx ex lx :
  0 <= mx -> ex <= 0 -> B < 2 ^ 53 ->
  mx + (if inexact lx then 1 else 0) <= B * 2 ^ (- ex) ->
  bounded_by sx B (binary_round_aux prec emax sx mx ex lx).
Proof.
  intros Hmx Hex HB Hle. unfold binary_round_aux.
  destruct (shr_fexp_floor mx ex lx Hmx) as (m1 & r1 & s1 & n & -> & Hn & He1 & Hm1 & Hrs).
  cbn [shr_m]. rewrite round_nearest_even_rne.
  set (e1 := ex + n) in *.
  assert (Hmle : mx <= B * 2 ^ (- ex)) by (destruct (inexact lx); lia).
  assert (He1' : e1 <= 0).
  { pose proof (fexp_nonpos B mx ex Hmx Hex HB Hmle). lia. }
  assert (Hpow : 2 ^ (- ex) = 2 ^ (- e1) * 2 ^ n).
  { rewrite <- Z.pow_add_r by lia. f_equal. lia. }
  assert (H1 : m1 + (if r1 || s1 then 1 else 0) <= B * 2 ^ (- e1)).
  { rewrite Hm1, Hrs. apply shift_le; [done | done |]. rewrite Hpow in Hle. lia. }
  assert (Hm1pos : 0 <= m1) by (rewrite Hm1; apply Z.div_pos; [lia | apply Z.pow_pos_nonneg; lia]).
  pose proof (rne_bounds m1 r1 s1) as Hr.
  set (m2 := rne m1 r1 s1) in *.
  assert (Hm2 : 0 <= m2) by lia.
  assert (H2 : m2 <= B * 2 ^ (- e1)) by lia.
  destruct (shr_fexp_floor m2 e1 loc_Exact Hm2) as (m3 & r3 & s3 & n' & -> & Hn' & He3 & Hm3 & _).
  cbn [shr_m].
  set (e3 := e1 + n') in *.
  assert (He3' : e3 <= 0).
  { pose proof (fexp_nonpos B m2 e1 Hm2 He1' HB H2). lia. }
  assert (Hpow' : 2 ^ (- e1) = 2 ^ (- e3) * 2 ^ n').
  { rewrite <- Z.pow_add_r by lia. f_equal. lia. }
  assert (H3 : m3 <= B * 2 ^ (- e3)).
  { pose proof (shift_le (B * 2 ^ (- e3)) m2 n' false Hm2 Hn') as S3.
    cbn [orb] in S3. rewrite Hm3.
    destruct (negb (m2 mod 2 ^ n' =? 0)); rewrite Hpow' in H2; lia. }
  assert (Hm3pos : 0 <= m3) by (rewrite Hm3; apply Z.div_pos; [lia | apply Z.pow_pos_nonneg; lia]).
  destruct m3 as [|p|p]; [by left | | lia].
  replace (e3 <=? emax - prec) with true
    by (symmetry; apply Z.leb_le; unfold emax, prec; lia).
  right. exists p, e3. done.
Qed.

Lemma inexact_new_location m r : inexact (new_location m r) = negb (r =? 0).
Proof.
  unfold new_location, new_location_even, new_location_odd.
  destruct (Z.even m), (r =? 0); reflexivity.
Qed.

(** The quotient that [SFdiv] hands over to the rounding: when the exact
    quotient is at most [B], mantissa and location say so. *)
Lemma div_core_le B K m1 e1 m2 e2 :
  0 < m1 -> 0 < m2 -> 0 <= B ->
  0 <= e1 + K -> 0 <= e2 + K ->
  m1 * 2 ^ (e1 + K) <= B * (m2 * 2 ^ (e2 + K)) ->
  Z.min (fexp prec emax (Zdigits2 m1 + e1 - (Zdigits2 m2 + e2))) (e1 - e2) <= 0 ->
  exists mz ez lz,
    SFdiv_core_binary prec emax m1 e1 m2 e2 = (mz, ez, lz)
    /\ 0 <= mz /\ ez <= 0
    /\ mz + (if inexact lz then 1 else 0) <= B * 2 ^ (- ez).
Proof.
  intros H1 H2 HB HK1 HK2 Hle Hez. unfold SFdiv_core_binary.
  set (e' := Z.min (fexp prec emax (Zdigits2 m1 + e1 - (Zdigits2 m2 + e2))) (e1 - e2)) in *.
  set (s := e1 - e2 - e').
  assert (Hs : 0 <= s) by (unfold s, e'; lia).
  set (m' := match s with Zpos _ => Z.shiftl m1 s | Z0 => m1 | Zneg _ => 0 end).
  assert (Hm' : m' = m1 * 2 ^ s).
  { unfold m'. destruct s as [|p|p] eqn:Es; [rewrite Z.pow_0_r; lia | | lia].
    rewrite Z.shiftl_mul_pow2 by lia. reflexivity. }
  clearbody m'.
  destruct (Z.div_eucl m' m2) as [q r] eqn:Hdiv.
  pose proof (Z_div_mod m' m2 ltac:(lia)) as Hspec. rewrite Hdiv in Hspec.
  destruct Hspec as [Eq Hr].
  exists q, e', (new_location m2 r). split; [reflexivity|].
  rewrite inexact_new_location.
  assert (Hpow : 2 ^ s * 2 ^ (e2 + K) = 2 ^ (e1 + K) * 2 ^ (- e')).
  { rewrite <- !Z.pow_add_r by lia. f_equal. unfold s. lia. }
  assert (Hp1 : 0 < 2 ^ (e2 + K)) by (apply Z.pow_pos_nonneg; lia).
  assert (Hp2 : 0 < 2 ^ (- e')) by (apply Z.pow_pos_nonneg; lia).
  assert (Hp3 : 0 < 2 ^ s) by (apply Z.pow_pos_nonneg; lia).
  assert (Hbound : m' <= (B * 2 ^ (- e')) * m2).
  { rewrite Hm'.
    assert (m1 * 2 ^ s * 2 ^ (e2 + K) <= B * 2 ^ (- e') * m2 * 2 ^ (e2 + K)).
    { replace (m1 * 2 ^ s * 2 ^ (e2 + K)) with (m1 * 2 ^ (e1 + K) * 2 ^ (- e'))
        by (rewrite <- !Z.mul_assoc, Hpow; reflexivity).
      replace (B * 2 ^ (- e') * m2 * 2 ^ (e2 + K))
        with (B * (m2 * 2 ^ (e2 + K)) * 2 ^ (- e')) by ring.
      apply Z.mul_le_mono_nonneg_r; lia. }
    apply Z.mul_le_mono_pos_r with (2 ^ (e2 + K)); lia. }
  assert (0 <= m') by (rewrite Hm'; lia).
  split; [nia|]. split; [done|].
  destruct (r =? 0) eqn:Hz; [apply Z.eqb_eq in Hz | apply Z.eqb_neq in Hz]; cbn [negb]; nia.
Qed.

Lemma of_Z_100 : of_Z 100 = S754_finite false 7036874417766400 (-46).
Proof. reflexivity. Qed.

(** A ratio of at most 1, times 100, is at most 100. *)
Lemma mul_100_le x :
  bounded_by false 1 x -> bounded_by false 100 (mul x (of_Z 100)).
Proof.
  intros [-> | (m & e & -> & He & Hm)]; [by left|].
  rewrite of_Z_100. unfold mul, SFmul. cbn [xorb].
  apply binary_round_aux_le; [lia | lia | lia |].
  cbn [inexact]. rewrite Z.add_0_r, Pos2Z.inj_mul.
  replace (- (e + -46)) with (- e + 46) by lia.
  rewrite Z.pow_add_r by lia.
  assert (0 < 2 ^ (- e)) by (apply Z.pow_pos_nonneg; lia).
  change (2 ^ 46) with 70368744177664. nia.
Qed.

Lemma round_half_even_shr_le n k Q :
  0 <= n -> 0 < k -> n <= Q * 2 ^ k ->
  0 <= round_half_even_shr n k <= Q.
Proof.
  intros Hn Hk Hle. unfold round_half_even_shr.
  rewrite Z.shiftr_div_pow2, Z.land_ones, Z.shiftl_1_l by lia.
  assert (HP : 0 < 2 ^ k) by (apply Z.pow_pos_nonneg; lia).
  assert (Hh : 0 < 2 ^ (k - 1)) by (apply Z.pow_pos_nonneg; lia).
  pose proof (Z.div_mod n (2 ^ k) ltac:(lia)) as E.
  pose proof (Z.mod_pos_bound n (2 ^ k) HP) as Hb.
  assert (0 <= n / 2 ^ k) by (apply Z.div_pos; lia).
  destruct (n mod 2 ^ k ?= 2 ^ (k - 1)) eqn:Hc.
  - apply Z.compare_eq in Hc. destruct (Z.even (n / 2 ^ k)); nia.
  - nia.
  - apply Z.compare_gt_iff in Hc. nia.
Qed.

Lemma of_ratio_le B s n d :
  0 <= n -> 0 <= B < 2 ^ 53 -> n <= B * Zpos d ->
  bounded_by s B (of_ratio s n d).
Proof.
  intros Hn HB Hle. unfold of_ratio. destruct n as [|p|p]; [by left | | lia].
  destruct (div_core_le B 0 (Zpos p) 0 (Zpos d) 0) as (mz & ez & lz & -> & Hmz & Hez & Hb);
    try lia.
  apply binary_round_aux_le; [done | done | lia | done].
Qed.

(** [round(x, 1)] keeps a float of at most 100 at most 100. *)
Lemma round1_le x :
  bounded_by false 100 x -> bounded_by false 100 (round1 x).
Proof.
  intros [-> | (m & e & -> & He & Hm)]; [by left|].
  unfold round1. destruct (0 <=? e) eqn:E0.
  - right. eauto.
  - apply Z.leb_gt in E0.
    pose proof (round_half_even_shr_le (10 * Zpos m) (- e) 1000 ltac:(lia) ltac:(lia)
                  ltac:(lia)) as Hn.
    apply of_ratio_le; lia.
Qed.

(** *** The float of an integer *)

Lemma Zdigits2_unique m d :
  2 ^ (d - 1) <= m < 2 ^ d -> 0 < m -> Zdigits2 m = d.
Proof.
  intros [Hlo Hhi] Hm.
  pose proof (Zdigits2_bounds m Hm) as [Hlo' Hhi'].
  pose proof (Zdigits2_pos m Hm).
  assert (0 < d).
  { destruct (Z.lt_trichotomy d 0) as [|[|]]; [|subst|lia].
    - rewrite Z.pow_neg_r in Hhi by lia. lia.
    - rewrite Z.pow_0_r in Hhi. lia. }
  assert (d - 1 < Zdigits2 m) by (apply (Z.pow_lt_mono_r_iff 2); lia).
  assert (Zdigits2 m - 1 < d) by (apply (Z.pow_lt_mono_r_iff 2); lia).
  lia.
Qed.

Lemma Zdigits2_mono a b : 0 < a <= b -> Zdigits2 a <= Zdigits2 b.
Proof.
  intros [Ha Hab].
  pose proof (Zdigits2_bounds a Ha) as [Hlo _].
  pose proof (Zdigits2_bounds b ltac:(lia)) as [_ Hhi].
  pose proof (Zdigits2_pos b ltac:(lia)).
  assert (Zdigits2 a - 1 < Zdigits2 b) by (apply (Z.pow_lt_mono_r_iff 2); lia).
  lia.
Qed.

Lemma iter_xO m k : Zpos (Pos.iter xO m k) = Zpos m * 2 ^ Zpos k.
Proof.
  induction k as [|k IH] using Pos.peano_ind.
  - cbn. lia.
  - rewrite Pos.iter_succ, Pos2Z.inj_xO, IH, Pos2Z.inj_succ, Z.pow_succ_r by lia. ring.
Qed.

(** A mantissa that already has its exponent is left alone. *)
Lemma binary_round_aux_exact sx p e :
  fexp prec emax (Zpos (digits2_pos p) + e) <= e -> e <= 971 ->
  binary_round_aux prec emax sx (Zpos p) e loc_Exact = S754_finite sx p e.
Proof.
  intros Hf He. unfold binary_round_aux.
  assert (Hshr : shr_fexp prec emax (Zpos p) e loc_Exact
                 = ({| shr_m := Zpos p; shr_r := false; shr_s := false |}, e)).
  { unfold shr_fexp, shr. cbn [Zdigits2 shr_record_of_loc].
    destruct (fexp prec emax (Zpos (digits2_pos p) + e) - e) eqn:E; try reflexivity. lia. }
  rewrite Hshr. cbn [shr_m loc_of_shr_record round_nearest_even]. rewrite Hshr.
  cbn [shr_m]. replace (e <=? emax - prec) with true; [reflexivity|].
  symmetry. apply Z.leb_le. unfold emax, prec. lia.
Qed.

Lemma fexp_digits d : 1 <= d -> fexp prec emax d = d - 53.
Proof. unfold fexp, emin, prec, emax. lia. Qed.

Lemma of_Z_spec p :
  of_Z (Zpos p) = S754_infinity false
  \/ exists m e,
       of_Z (Zpos p) = S754_finite false m e
       /\ -52 <= e
       /\ Zpos m * 2 ^ (e + 52) = nearest_double (Zpos p) * 2 ^ 52.
Proof.
  unfold of_Z, binary_normalize, binary_round, nearest_double. cbn [Zdigits2].
  set (d := Zpos (digits2_pos p)).
  pose proof (digits2_pos_bounds p) as [Hlo Hhi]. fold d in Hlo, Hhi.
  assert (Hd : 1 <= d) by (unfold d; lia).
  rewrite Z.add_0_r, (fexp_digits d Hd).
  destruct (Z.leb_spec d 53) as [Hle|Hgt].
  - right. unfold shl_align.
    destruct (d - 53 - 0) as [|k|k] eqn:Ek; [ | lia | ].
    + (* exactly 53 bits *)
      assert (d = 53) by lia.
      rewrite binary_round_aux_exact; [| fold d; rewrite fexp_digits; lia | lia].
      exists p, 0. split; [reflexivity|]. split; [lia|]. reflexivity.
    + assert (Hk : Zpos k = 53 - d) by lia.
      assert (Hmz : Zpos (Pos.iter xO p k) = Zpos p * 2 ^ (53 - d))
        by (rewrite iter_xO, Hk; reflexivity).
      assert (Hdz : Zpos (digits2_pos (Pos.iter xO p k)) = 53).
      { apply (Zdigits2_unique (Zpos (Pos.iter xO p k)) 53); [|lia].
        rewrite Hmz.
        assert (E1 : 2 ^ (53 - 1) = 2 ^ (d - 1) * 2 ^ (53 - d))
          by (rewrite <- Z.pow_add_r by lia; f_equal; lia).
        assert (E2 : 2 ^ 53 = 2 ^ d * 2 ^ (53 - d))
          by (rewrite <- Z.pow_add_r by lia; f_equal; lia).
        assert (0 < 2 ^ (53 - d)) by (apply Z.pow_pos_nonneg; lia).
        rewrite E1, E2. nia. }
      rewrite binary_round_aux_exact; [| rewrite Hdz, fexp_digits; lia | lia].
      eexists _, _. split; [reflexivity|]. split; [lia|].
      rewrite Hmz, <- Z.mul_assoc, <- Z.pow_add_r by lia. do 2 f_equal. lia.
  - (* more than 53 bits: the low bits are rounded away *)
    unfold shl_align.
    replace (match d - 53 - 0 with Z.neg d0 => (Pos.iter xO p d0, d - 53) | _ => (p, 0) end)
      with (p, 0) by (destruct (d - 53 - 0) eqn:E; try reflexivity; lia).
    unfold binary_round_aux.
    set (k := d - 53) in *.
    assert (Hshr : shr_fexp prec emax (Zpos p) 0 loc_Exact
                   = ({| shr_m := Zpos p / 2 ^ k;
                         shr_r := Z.odd (Zpos p / 2 ^ (k - 1));
                         shr_s := negb (Zpos p mod 2 ^ (k - 1) =? 0) |}, k)).
    { unfold shr_fexp. cbn [Zdigits2 shr_record_of_loc]. fold d.
      rewrite Z.add_0_r, fexp_digits, Z.sub_0_r by done. fold k.
      rewrite shr_spec by lia. reflexivity. }
    rewrite Hshr. cbn [shr_m]. rewrite round_nearest_even_rne.
    set (m1 := Zpos p / 2 ^ k).
    set (r1 := Z.odd (Zpos p / 2 ^ (k - 1))).
    set (s1 := negb (Zpos p mod 2 ^ (k - 1) =? 0)).
    assert (HPk : 0 < 2 ^ k) by (apply Z.pow_pos_nonneg; lia).
    assert (Hm1 : 2 ^ 52 <= m1 < 2 ^ 53).
    { assert (E1 : 2 ^ (d - 1) = 2 ^ 52 * 2 ^ k)
        by (rewrite <- Z.pow_add_r by lia; f_equal; lia).
      assert (E2 : 2 ^ d = 2 ^ 53 * 2 ^ k)
        by (rewrite <- Z.pow_add_r by lia; f_equal; lia).
      unfold m1. split.
      - apply Z.div_le_lower_bound; lia.
      - apply Z.div_lt_upper_bound; lia. }
    pose proof (rne_bounds m1 r1 s1) as Hr.
    set (m2 := rne m1 r1 s1) in *.
    assert (Hm2 : 2 ^ 52 <= m2 <= 2 ^ 53) by (destruct (r1 || s1); lia).
    destruct (shr_fexp_floor m2 k loc_Exact ltac:(lia)) as (m3 & r3 & s3 & n' & -> & Hn' & He3 & Hm3 & _).
    cbn [shr_m].
    assert (Hcase : (n' = 0 /\ m3 = m2) \/ (n' = 1 /\ m3 = 2 ^ 52 /\ m2 = 2 ^ 53)).
    { destruct (Z.eq_dec m2 (2 ^ 53)) as [E|NE].
      - right. assert (Hd2 : Zdigits2 m2 = 54) by (apply Zdigits2_unique; rewrite E; cbn; lia).
        rewrite Hd2, fexp_digits in He3 by lia.
        assert (n' = 1) by lia. subst n'. split; [done|]. split; [|done].
        rewrite Hm3, E. reflexivity.
      - left. assert (Hd2 : Zdigits2 m2 = 53) by (apply Zdigits2_unique; lia).
        rewrite Hd2, fexp_digits in He3 by lia.
        assert (n' = 0) by lia. subst n'. split; [done|].
        rewrite Hm3, Z.pow_0_r, Z.div_1_r. reflexivity. }
    assert (Hval : m3 * 2 ^ n' = m2).
    { destruct Hcase as [[-> ->] | (-> & -> & ->)]; [rewrite Z.pow_0_r; lia | reflexivity]. }
    assert (Hm3pos : 0 < m3) by (destruct Hcase as [[_ ->] | (_ & -> & _)]; lia).
    destruct m3 as [|q|q]; try lia.
    destruct (k + n' <=? emax - prec); [|by left].
    right. exists q, (k + n'). split; [reflexivity|]. split; [lia|].
    rewrite <- Hval.
    replace (k + n' + 52) with (n' + k + 52) by lia.
    rewrite !Z.pow_add_r by lia. ring.
Qed.

Lemma top_bits n :
  0 < n -> 53 < Zdigits2 n ->
  2 ^ 52 <= n / 2 ^ (Zdigits2 n - 53) < 2 ^ 53.
Proof.
  intros Hn Hd. pose proof (Zdigits2_bounds n Hn) as [Hlo Hhi].
  set (d := Zdigits2 n) in *. set (k := d - 53).
  assert (HPk : 0 < 2 ^ k) by (apply Z.pow_pos_nonneg; lia).
  assert (E1 : 2 ^ (d - 1) = 2 ^ 52 * 2 ^ k)
    by (rewrite <- Z.pow_add_r by lia; f_equal; lia).
  assert (E2 : 2 ^ d = 2 ^ 53 * 2 ^ k)
    by (rewrite <- Z.pow_add_r by lia; f_equal; lia).
  split.
  - apply Z.div_le_lower_bound; lia.
  - apply Z.div_lt_upper_bound; lia.
Qed.

Lemma rne_round_bit m r s : rne m r s <= m + (if r then 1 else 0).
Proof. unfold rne. destruct r, s, (Z.odd m); cbn; lia. Qed.

Lemma rne_sticky_mono m r s s' : (s = true -> s' = true) -> rne m r s <= rne m r s'.
Proof. unfold rne. destruct r, s, s', (Z.odd m); cbn; intros H; try lia; by specialize (H eq_refl). Qed.

Lemma nearest_double_pos n : 0 < n -> 0 < nearest_double n.
Proof.
  intros Hn. unfold nearest_double. destruct (Zdigits2 n <=? 53) eqn:E; [done|].
  apply Z.leb_gt in E. pose proof (top_bits n Hn E) as [Hlo _].
  pose proof (rne_bounds (n / 2 ^ (Zdigits2 n - 53))
                (Z.odd (n / 2 ^ (Zdigits2 n - 53 - 1)))
                (negb (n mod 2 ^ (Zdigits2 n - 53 - 1) =? 0))) as [Hr _].
  assert (0 < 2 ^ (Zdigits2 n - 53)) by (apply Z.pow_pos_nonneg; lia).
  assert (0 < 2 ^ 52) by (cbn; lia). nia.
Qed.

(** Rounding an integer to a double is monotone. *)
Lemma nearest_double_mono a t :
  0 < a <= t -> nearest_double a <= nearest_double t.
Proof.
  intros [Ha Hat]. assert (Ht : 0 < t) by lia.
  pose proof (Zdigits2_mono a t ltac:(lia)) as Hd.
  pose proof (Zdigits2_bounds a Ha) as [Hloa Hhia].
  pose proof (Zdigits2_bounds t Ht) as [Hlot Hhit].
  unfold nearest_double.
  set (da := Zdigits2 a) in *. set (dt := Zdigits2 t) in *.
  destruct (Z.leb_spec dt 53) as [Ht53|Ht53].
  { replace (da <=? 53) with true by (symmetry; apply Z.leb_le; lia). done. }
  pose proof (top_bits t Ht Ht53) as [Hlo_t Hhi_t]. fold dt in Hlo_t, Hhi_t.
  set (kt := dt - 53) in *.
  assert (HPt : 0 < 2 ^ kt) by (apply Z.pow_pos_nonneg; lia).
  pose proof (rne_bounds (t / 2 ^ kt) (Z.odd (t / 2 ^ (kt - 1)))
                (negb (t mod 2 ^ (kt - 1) =? 0))) as [Hrt _].
  assert (Hbig : 2 ^ (dt - 1) = 2 ^ 52 * 2 ^ kt)
    by (rewrite <- Z.pow_add_r by lia; f_equal; lia).
  assert (Hpow52 : 0 < 2 ^ 52) by (cbn; lia).
  destruct (Z.leb_spec da 53) as [Ha53|Ha53].
  { (* a is exact, t has more bits *)
    assert (2 ^ da <= 2 ^ (dt - 1)) by (apply Z.pow_le_mono_r; lia). nia. }
  pose proof (top_bits a Ha Ha53) as [Hlo_a Hhi_a]. fold da in Hlo_a, Hhi_a.
  set (ka := da - 53) in *.
  assert (HPa : 0 < 2 ^ ka) by (apply Z.pow_pos_nonneg; lia).
  pose proof (rne_bounds (a / 2 ^ ka) (Z.odd (a / 2 ^ (ka - 1)))
                (negb (a mod 2 ^ (ka - 1) =? 0))) as [_ Hra].
  destruct (Z.eq_dec da dt) as [Edd|Ndd].
  2: { (* fewer bits: a power of two lies between *)
    assert (Hda : 2 ^ da = 2 ^ 53 * 2 ^ ka)
      by (rewrite <- Z.pow_add_r by lia; f_equal; lia).
    assert (2 ^ da <= 2 ^ (dt - 1)) by (apply Z.pow_le_mono_r; lia).
    assert ((a / 2 ^ ka + 1) * 2 ^ ka <= 2 ^ da) by nia.
    destruct (Z.odd (a / 2 ^ (ka - 1)) || negb (a mod 2 ^ (ka - 1) =? 0)); nia. }
  (* the same number of bits *)
  assert (Ek : ka = kt) by (unfold ka, kt; lia). rewrite Ek in *. clear Ek.
  apply Z.mul_le_mono_nonneg_r; [lia|].
  set (h := 2 ^ (kt - 1)).
  assert (Hh : 0 < h) by (apply Z.pow_pos_nonneg; lia).
  assert (E2h : 2 ^ kt = h * 2).
  { unfold h. replace kt with (Z.succ (kt - 1)) at 1 by lia.
    rewrite Z.pow_succ_r by lia. lia. }
  rewrite E2h, <- !Z.div_div by lia.
  set (Pa := a / h). set (Pt := t / h).
  assert (HP : Pa <= Pt) by (apply Z.div_le_mono; lia).
  destruct (Z.eq_dec Pa Pt) as [EP|NP].
  - rewrite EP. apply rne_sticky_mono.
    intros Hs. apply negb_true_iff, Z.eqb_neq in Hs. apply negb_true_iff, Z.eqb_neq.
    pose proof (Z.div_mod a h ltac:(lia)) as Ea. pose proof (Z.div_mod t h ltac:(lia)) as Et.
    pose proof (Z.mod_pos_bound a h Hh). pose proof (Z.mod_pos_bound t h Hh).
    fold Pa in Ea. fold Pt in Et. rewrite EP in Ea. lia.
  - pose proof (rne_round_bit (Pa / 2) (Z.odd Pa) (negb (a mod h =? 0))) as Hup.
    pose proof (rne_bounds (Pt / 2) (Z.odd Pt) (negb (t mod h =? 0))) as [Hdown _].
    assert (Pa / 2 + (if Z.odd Pa then 1 else 0) <= Pt / 2); [|lia].
    pose proof (Z.div_mod Pa 2 ltac:(lia)) as E1. pose proof (Z.div_mod Pt 2 ltac:(lia)) as E2.
    pose proof (Z.mod_pos_bound Pa 2 ltac:(lia)). pose proof (Z.mod_pos_bound Pt 2 ltac:(lia)).
    rewrite Zodd_mod. destruct (Pa mod 2 =? 1) eqn:Eo;
      [apply Z.eqb_eq in Eo | apply Z.eqb_neq in Eo]; lia.
Qed.


Lemma of_Z_finite_spec p :
  is_finite (of_Z (Zpos p)) = true ->
  exists m e,
    of_Z (Zpos p) = S754_finite false m e
    /\ -52 <= e
    /\ Zpos m * 2 ^ (e + 52) = nearest_double (Zpos p) * 2 ^ 52.
Proof.
  intros Hf. destruct (of_Z_spec p) as [E | H]; [rewrite E in Hf; discriminate | exact H].
Qed.

(** [float(a) / float(t)] is at most 1 when [0 <= a <= t]. *)
Lemma div_of_Z_le_one a t :
  0 <= a <= t -> 0 < t ->
  is_finite (of_Z a) = true -> is_finite (of_Z t) = true ->
  bounded_by false 1 (div (of_Z a) (of_Z t)).
Proof.
  intros [Ha Hat] Ht Hfa Hft.
  destruct t as [|pt|pt]; try lia.
  destruct (of_Z_finite_spec pt Hft) as (mt & et & Et & Het & Hvt).
  destruct a as [|pa|pa]; [ | | lia].
  { left. rewrite Et. reflexivity. }
  destruct (of_Z_finite_spec pa Hfa) as (ma & ea & Ea & Hea & Hva).
  rewrite Ea, Et. unfold div, SFdiv. cbn [xorb].
  pose proof (nearest_double_mono (Zpos pa) (Zpos pt) ltac:(lia)) as Hmono.
  assert (Hle : Zpos ma * 2 ^ (ea + 52) <= 1 * (Zpos mt * 2 ^ (et + 52))).
  { rewrite Hva, Hvt. change (2 ^ 52) with 4503599627370496. lia. }
  destruct (div_core_le 1 52 (Zpos ma) ea (Zpos mt) et) as (mz & ez & lz & -> & Hmz & Hez & Hb);
    try lia.
  - destruct (Z.le_gt_cases ea et) as [|Hgt]; [lia|].
    apply Z.min_le_iff. left.
    pose proof (Zdigits2_bounds (Zpos ma) ltac:(lia)) as [Hlo _].
    pose proof (Zdigits2_bounds (Zpos mt) ltac:(lia)) as [_ Hhi].
    pose proof (Zdigits2_pos (Zpos ma) ltac:(lia)).
    pose proof (Zdigits2_pos (Zpos mt) ltac:(lia)).
    set (da := Zdigits2 (Zpos ma)) in *. set (dt := Zdigits2 (Zpos mt)) in *.
    assert (Hlt : 2 ^ (da - 1 + (ea + 52)) < 2 ^ (dt + (et + 52))).
    { rewrite (Z.pow_add_r 2 (da - 1)), (Z.pow_add_r 2 dt) by lia.
      assert (HX : 0 < 2 ^ (ea + 52)) by (apply Z.pow_pos_nonneg; lia).
      assert (HY : 0 < 2 ^ (et + 52)) by (apply Z.pow_pos_nonneg; lia).
      apply Z.le_lt_trans with (Zpos ma * 2 ^ (ea + 52)).
      - apply Z.mul_le_mono_nonneg_r; lia.
      - apply Z.le_lt_trans with (Zpos mt * 2 ^ (et + 52)); [lia|].
        apply Zmult_lt_compat_r; lia. }
    apply Z.pow_lt_mono_r_iff in Hlt; [|lia|lia].
    unfold fexp, emin, prec, emax. lia.
  - apply binary_round_aux_le; [done | done | cbn; lia | done].
Qed.

(** The completion of [a] achievements out of [t] is at most 100. *)
Lemma completion_le_100 a t :
  0 <= a <= t -> 0 < t ->
  is_finite (of_Z a) = true -> is_finite (of_Z t) = true ->
  bounded_by false 100 (round1 (mul (div (of_Z a) (of_Z t)) (of_Z 100))).
Proof.
  intros Ha Ht Hfa Hft.
  apply round1_le, mul_100_le, div_of_Z_le_one; done.
Qed.

(** *** The completion, to one decimal

    Rounding never crosses a number that it can represent: brackets on a
    binary grid follow the division, the product and the decimal rounding
    of the completion. *)











(** The bound, read on the exact value. *)
Lemma bounded_by_to_Q B x :
  0 <= B -> bounded_by false B x ->
  exists v, to_Q x = Some v /\ (0 <= v <= inject_Z B)%Q.
Proof.
  intros HB [-> | (m & e & -> & He & Hm)].
  - exists 0%Q. split; [reflexivity|]. split; [apply Qle_refl|].
    change 0%Q with (inject_Z 0). rewrite <- (Zle_Qle 0 B). exact HB.
  - cbn [to_Q]. eexists. split; [reflexivity|].
    destruct (0 <=? e) eqn:E0.
    + apply Z.leb_le in E0. assert (e = 0) by lia. subst e.
      rewrite Z.pow_0_r, Z.mul_1_r in *. split.
      * change 0%Q with (inject_Z 0). rewrite <- (Zle_Qle 0 (Zpos m)). lia.
      * rewrite <- (Zle_Qle (Zpos m) B). lia.
    + assert (HP : 0 < 2 ^ (- e)) by (apply Z.pow_pos_nonneg; lia).
      unfold Qle. cbn [Qnum Qden inject_Z]. rewrite Z2Pos.id by done. split; lia.
Qed.

End FloatFacts.

(** ** Running the monad *)

(** Unfold the monad so that a run becomes a nest of [match]es. *)
Ltac mrun :=
  cbv [mbind M_bind bind mret M_ret ret lift field raise logger time_sleep
       getitem attempt fmap M_fmap].

Lemma add_logged_nil w : add_logged [] w = w.
Proof. by destruct w. Qed.

Lemma add_logged_app l1 l2 w : add_logged l1 (add_logged l2 w) = add_logged (l1 ++ l2) w.
Proof. unfold add_logged; cbn. by rewrite app_assoc. Qed.

(** The constant tables, looked up. *)
Lemma table_lookups :
  PROPERTY_MAPPING !! "TITLE" = Some "游戏名称" /\
  PROPERTY_MAPPING !! "PLAYTIME" = Some "游玩时长 (h)" /\
  PROPERTY_MAPPING !! "LAST_PLAYED" = Some "上次游玩时间" /\
  PROPERTY_MAPPING !! "STORE_URL" = Some "商店链接" /\
  PROPERTY_MAPPING !! "COMPLETION" = Some "完成度" /\
  PROPERTY_MAPPING !! "TOTAL_ACHIEVEMENTS" = Some "总成就数" /\
  PROPERTY_MAPPING !! "ACHIEVED_ACHIEVEMENTS" = Some "已完成成就数" /\
  PROPERTY_MAPPING !! "REVIEW" = Some "评测" /\
  PROPERTY_MAPPING !! "INFO" = Some "游戏简介" /\
  PROPERTY_MAPPING !! "TAGS" = Some "游戏标签" /\
  PROPERTY_TYPES !! "完成度" = Some "multi_select" /\
  PROPERTY_TYPES !! "游戏标签" = Some "multi_select".
Proof. vm_compute. repeat split. Qed.

Ltac use_tables :=
  let T1 := fresh "T" in let T2 := fresh "T" in let T3 := fresh "T" in
  let T4 := fresh "T" in let T5 := fresh "T" in let T6 := fresh "T" in
  let T7 := fresh "T" in let T8 := fresh "T" in let T9 := fresh "T" in
  let T10 := fresh "T" in let T11 := fresh "T" in let T12 := fresh "T" in
  destruct table_lookups as (T1 & T2 & T3 & T4 & T5 & T6 & T7 & T8 & T9 & T10 & T11 & T12);
  rewrite ?T1, ?T2, ?T3, ?T4, ?T5, ?T6, ?T7, ?T8, ?T9, ?T10;
  cbn [from_option id];
  rewrite ?T11, ?T12;
  cbn [from_option id String.eqb Ascii.eqb Bool.eqb];
  clear T1 T2 T3 T4 T5 T6 T7 T8 T9 T10 T11 T12.

(** ** Tag normalisation (C5) *)

Lemma add_item_tags_loop_run l : forall tags w,
  add_item_tags_loop l tags w
  = (inr (tags ++ normalize_tags l)%list, add_logged (rev (tag_warnings l)) w).
Proof.
  induction l as [|t l IH]; intros tags w.
  - cbn. by rewrite app_nil_r, add_logged_nil.
  - cbn [add_item_tags_loop]. unfold normalize_tags, tag_warnings, malformed.
    destruct t as [d|a]; cbn [omap list_omap normalize_tag List.filter].
    + destruct (dict_get d "name") as [v|] eqn:Hd; mrun.
      * rewrite IH. by rewrite <- app_assoc.
      * rewrite IH. cbn [map rev]. rewrite <- add_logged_app. reflexivity.
    + mrun. rewrite IH. by rewrite <- app_assoc.
Qed.

Lemma update_item_tags_loop_run l : forall tags w,
  update_item_tags_loop l tags w
  = (inr (tags ++ normalize_tags l)%list, add_logged (rev (tag_warnings l)) w).
Proof.
  induction l as [|t l IH]; intros tags w.
  - cbn. by rewrite app_nil_r, add_logged_nil.
  - cbn [update_item_tags_loop]. unfold normalize_tags, tag_warnings, malformed.
    destruct t as [d|a]; cbn [omap list_omap normalize_tag List.filter].
    + destruct (dict_get d "name") as [v|] eqn:Hd; mrun.
      * rewrite IH. by rewrite <- app_assoc.
      * rewrite IH. cbn [map rev]. rewrite <- add_logged_app. reflexivity.
    + mrun. rewrite IH. by rewrite <- app_assoc.
Qed.

(** The normalisation keeps the order of the tags: it distributes over
    concatenation. *)
Lemma normalize_tags_app l1 l2 :
  normalize_tags (l1 ++ l2) = (normalize_tags l1 ++ normalize_tags l2)%list.
Proof. unfold normalize_tags. apply omap_app. Qed.

(** ** The derived fields of a page *)

Lemma sixty_not_zero : Float.is_zero (Float.of_Z 60) = false.
Proof. reflexivity. Qed.

Ltac frame_exec :=
  cbn [appid name playtime_forever rtime_last_played img_icon_url];
  mrun; try discriminate; use_tables.

Lemma add_item_frame_inv cfg tz g a r s w fr w' :
  add_item_frame cfg tz g a r s w = (inr fr, w') ->
  derived g a s fr /\
  exists n, name g = Some n /\
    w' = add_logged (rev (tag_warnings (default [] (tag s)))
                     ++ [{| lvl := INFO; msg := "添加游戏到Notion: {}"; args := [LStr n] |}]) w.
Proof.
  destruct g as [[i|] [n|] [pf|] rt [ic|]]; unfold add_item_frame; frame_exec.
  all: try (destruct (py_float_number pf); discriminate).
  all: try (destruct (py_float_number pf) as [|x]; [discriminate|];
            destruct (py_truediv x (Float.of_Z 60)); discriminate).
  all: try (destruct (py_float_number pf) as [|x]; [discriminate|];
            destruct (py_truediv x (Float.of_Z 60)); [discriminate|];
            destruct (localtime tz (default 0 rt)); discriminate).
  destruct (py_float_number pf) as [|x] eqn:Hx; [discriminate|].
  destruct (py_truediv x (Float.of_Z 60)) as [|q] eqn:Hq; [discriminate|].
  destruct (localtime tz (default 0 rt)) as [|local]; [discriminate|].
  pose proof (eq_refl : completion_of (default 0 (a !! "total")) (default 0 (a !! "achieved")) = _) as Hc.
  unfold completion_of in Hc at 2.
  destruct (0 <? default 0 (a !! "total")).
  - destruct (py_float (default 0 (a !! "achieved"))) as [|fa]; [discriminate|].
    destruct (py_float (default 0 (a !! "total"))) as [|ft]; [discriminate|].
    destruct (py_truediv fa ft) as [|d]; [discriminate|].
    rewrite add_item_tags_loop_run. cbn [app].
    intros [= <- <-]. split.
    + split; cbn; eauto 10.
    + exists n. split; [done|]. unfold add_logged; cbn. by rewrite <- app_assoc.
  - rewrite add_item_tags_loop_run. cbn [app].
    intros [= <- <-]. split.
    + split; cbn; eauto 10.
    + exists n. split; [done|]. unfold add_logged; cbn. by rewrite <- app_assoc.
Qed.

Lemma update_item_frame_inv cfg tz page_id g a r s w fr w' :
  update_item_frame cfg tz page_id g a r s w = (inr fr, w') ->
  derived g a s fr /\
  exists n, name g = Some n /\
    w' = add_logged (rev (tag_warnings (default [] (tag s)))
                     ++ [{| lvl := INFO; msg := "更新游戏信息: {}"; args := [LStr n] |}]) w.
Proof.
  destruct g as [[i|] [n|] [pf|] rt [ic|]]; unfold update_item_frame; frame_exec.
  all: try (destruct (py_float_number pf); discriminate).
  all: try (destruct (py_float_number pf) as [|x]; [discriminate|];
            destruct (py_truediv x (Float.of_Z 60)); discriminate).
  all: try (destruct (py_float_number pf) as [|x]; [discriminate|];
            destruct (py_truediv x (Float.of_Z 60)); [discriminate|];
            destruct (localtime tz (default 0 rt)); discriminate).
  - destruct (py_float_number pf) as [|x] eqn:Hx; [discriminate|].
    destruct (py_truediv x (Float.of_Z 60)) as [|q] eqn:Hq; [discriminate|].
    destruct (localtime tz (default 0 rt)) as [|local]; [discriminate|].
    pose proof (eq_refl : completion_of (default 0 (a !! "total")) (default 0 (a !! "achieved")) = _) as Hc.
    unfold completion_of in Hc at 2.
    destruct (0 <? default 0 (a !! "total")).
    + destruct (py_float (default 0 (a !! "achieved"))) as [|fa]; [discriminate|].
      destruct (py_float (default 0 (a !! "total"))) as [|ft]; [discriminate|].
      destruct (py_truediv fa ft) as [|d]; [discriminate|].
      rewrite update_item_tags_loop_run. cbn [app].
      intros [= <- <-]. split.
      * split; cbn; eauto 10.
      * exists n. split; [done|]. unfold add_logged; cbn. by rewrite <- app_assoc.
    + rewrite update_item_tags_loop_run. cbn [app].
      intros [= <- <-]. split.
      * split; cbn; eauto 10.
      * exists n. split; [done|]. unfold add_logged; cbn. by rewrite <- app_assoc.
  - (* no name: the completion is computed, then the log line raises *)
    destruct (py_float_number pf) as [|x]; [discriminate|].
    destruct (py_truediv x (Float.of_Z 60)) as [|q]; [discriminate|].
    destruct (localtime tz (default 0 rt)) as [|local]; [discriminate|].
    destruct (0 <? default 0 (a !! "total")); [|discriminate].
    destruct (py_float (default 0 (a !! "achieved"))) as [|fa]; [discriminate|].
    destruct (py_float (default 0 (a !! "total"))) as [|ft]; [discriminate|].
    destruct (py_truediv fa ft) as [|d]; discriminate.
Qed.

(** Both frame functions reach the request for a complete game whose
    completion can be computed. *)
Lemma add_item_frame_returns cfg tz g a r s w c :
  game_complete tz g = true ->
  completion_of (default 0 (a !! "total")) (default 0 (a !! "achieved")) = inr c ->
  exists fr w', add_item_frame cfg tz g a r s w = (inr fr, w') /\ completion fr = c.
Proof.
  unfold game_complete, completion_of.
  destruct g as [[i|] [n|] [pf|] rt [ic|]];
    cbn [appid name playtime_forever rtime_last_played img_icon_url];
    try discriminate.
  intros Hfin Hc. unfold add_item_frame; frame_exec.
  revert Hfin.
  destruct (py_float_number pf) as [|x]; [discriminate|].
  destruct (localtime tz (default 0 rt)) as [|local]; [discriminate|]. intros _.
  unfold py_truediv at 1. rewrite sixty_not_zero.
  destruct (0 <? default 0 (a !! "total")).
  - destruct (py_float (default 0 (a !! "achieved"))) as [|fa]; [discriminate|].
    destruct (py_float (default 0 (a !! "total"))) as [|ft]; [discriminate|].
    destruct (py_truediv fa ft) as [|d]; [discriminate|].
    rewrite add_item_tags_loop_run. cbn [app]. injection Hc as <-. eauto.
  - rewrite add_item_tags_loop_run. cbn [app]. injection Hc as <-. eauto.
Qed.


(** ** Create and update derive the same properties (C1) *)

Ltac split_floats :=
  repeat match goal with
  | |- context [match py_float_number ?z with _ => _ end] => destruct (py_float_number z)
  | |- context [match localtime ?tz ?t with _ => _ end] => destruct (localtime tz t)
  | |- context [match py_float ?z with _ => _ end] => destruct (py_float z)
  | |- context [match py_truediv ?x ?y with _ => _ end] => destruct (py_truediv x y)
  | |- context [if 0 <? ?z then _ else _] => destruct (0 <? z)
  end.

(** C1: on the same game, achievements, review and store data, the create
    operation and the update operation either both raise before sending or
    derive the same properties; patching the created page with the
    properties of the update leaves the properties of a fresh create. *)
Theorem create_update_same_properties cfg tz page_id g a r s w :
  same_payload (properties_of (add_item_frame cfg tz g a r s w))
               (properties_of (update_item_frame cfg tz page_id g a r s w))
  /\ same_payload
       (result_map (fun p => patched p p)
          (properties_of (update_item_frame cfg tz page_id g a r s w)))
       (properties_of (add_item_frame cfg tz g a r s w)).
Proof.
  unfold properties_of, patched.
  destruct g as [[i|] [n|] [pf|] rt [ic|]];
    unfold add_item_frame, update_item_frame; frame_exec; split_floats;
    rewrite ?add_item_tags_loop_run, ?update_item_tags_loop_run;
    cbn [fst result_map same_payload]; try done.
  all: split; [reflexivity | apply map_union_idemp].
Qed.

(** On Half-Life both operations reach the request, with one payload. *)
Lemma create_update_half_life :
  exists p,
    properties_of (add_item_frame Examples.cfg UTC Examples.half_life
                     Examples.ten_of_twenty "Good." Examples.store Examples.offline)
    = inr p
    /\ properties_of (update_item_frame Examples.cfg UTC "page" Examples.half_life
                        Examples.ten_of_twenty "Good." Examples.store Examples.offline)
       = inr p
    /\ size p = 10%nat.
Proof. eexists. repeat split; vm_compute; reflexivity. Qed.

(** ** The retrying client exhausts its budget (C2) *)

Lemma retry_loop_exhausts url headers json params method :
  supported method = true ->
  forall fuel retries response w,
    (Z.to_nat retries <= fuel)%nat ->
    all_attempts_fail w ->
    exists w',
      retry_loop fuel url headers json params method response retries w
      = (inr EmptyMapping, w')
      /\ length (calls w') = (length (calls w) + Z.to_nat retries)%nat
      /\ length (slept w') = (length (slept w) + (Z.to_nat retries - 1))%nat
      /\ network w' = network w.
Proof.
  intros Hm. induction fuel as [|fuel IH]; intros retries response w Hfuel Hfail.
  - exists w. cbn. replace (Z.to_nat retries) with 0%nat by lia.
    rewrite !Nat.add_0_r. done.
  - cbn [retry_loop]. destruct (0 <? retries) eqn:Hpos.
    2: { exists w. mrun. apply Z.ltb_ge in Hpos.
         replace (Z.to_nat retries) with 0%nat by lia. rewrite !Nat.add_0_r. done. }
    apply Z.ltb_lt in Hpos.
    assert (Hstep : forall resp w2,
      0 < retries - 1 ->
      network w2 = network w ->
      length (calls w2) = S (length (calls w)) ->
      length (slept w2) = S (length (slept w)) ->
      exists w',
        retry_loop fuel url headers json params method resp (retries - 1) w2
        = (inr EmptyMapping, w')
        /\ length (calls w') = (length (calls w) + Z.to_nat retries)%nat
        /\ length (slept w') = (length (slept w) + (Z.to_nat retries - 1))%nat
        /\ network w' = network w).
    { intros resp w2 Hmore Hn2 Hc2 Hs2.
      destruct (IH (retries - 1) resp w2) as (w' & Hrun & Hc & Hs & Hn).
      - lia.
      - intros k rq' Hk. rewrite Hn2. apply Hfail. lia.
      - exists w'. rewrite Hrun. repeat split; [lia | lia | congruence]. }
    unfold supported in Hm.
    assert (Hsent : forall rq,
      attempt_fails (network w (length (calls w)) rq) = true) by (intros; by apply Hfail).
    destruct (String.eqb method "patch") eqn:E1;
      [|destruct (String.eqb method "post") eqn:E2;
        [|destruct (String.eqb method "get") eqn:E3; [|discriminate]]].
    all: mrun; unfold requests_call, raise_for_status; mrun.
    all: match goal with
         | |- context [network ?w0 (length (calls ?w0)) ?rq] =>
             specialize (Hsent rq); destruct (network w0 (length (calls w0)) rq) as [rs|]
         end.
    all: cbn [attempt_fails] in Hsent; rewrite ?Hsent; cbn [is_RequestException].
    all: destruct (0 <? retries - 1) eqn:Hmore;
      [ apply Z.ltb_lt in Hmore; apply Hstep; [done | reflexivity | reflexivity | reflexivity]
      | apply Z.ltb_ge in Hmore; eexists; split; [reflexivity|];
        cbn [network calls slept logged length]; repeat split; lia ].
Qed.

(** The client gives up after [retries] attempts. *)
Lemma send_request_with_retry_gives_up url headers json params retries method w :
  0 <= retries ->
  supported method = true ->
  all_attempts_fail w ->
  exists w',
    send_request_with_retry url headers json params retries method w
    = (inr EmptyMapping, w')
    /\ length (calls w') = (length (calls w) + Z.to_nat retries)%nat
    /\ length (slept w') = (length (slept w) + (Z.to_nat retries - 1))%nat.
Proof.
  intros Hret Hm Hfail. unfold send_request_with_retry.
  destruct (retry_loop_exhausts url headers json params method Hm
              (Z.to_nat retries) retries None w) as (w' & Hrun & Hc & Hs & _); [lia | done |].
  exists w'. done.
Qed.

(** C2: when every attempt fails, [send_request_with_retry] makes exactly
    [retries] attempts, sleeps between them and returns the empty mapping;
    with the default budget that is 20 attempts. *)
Theorem send_request_with_retry_exhausts url headers json params retries method w :
  0 <= retries ->
  supported method = true ->
  all_attempts_fail w ->
  exists w',
    send_request_with_retry url headers json params retries method w
    = (inr EmptyMapping, w')
    /\ Z.of_nat (length (calls w')) = Z.of_nat (length (calls w)) + retries
    /\ Z.of_nat (length (slept w')) = Z.of_nat (length (slept w)) + Z.max 0 (retries - 1)
    /\ (retries = MAX_RETRIES -> length (calls w') = (length (calls w) + 20)%nat).
Proof.
  intros Hret Hm Hfail.
  destruct (send_request_with_retry_gives_up url headers json params retries method w
              Hret Hm Hfail) as (w' & Hrun & Hc & Hs).
  exists w'. split; [done|]. split; [lia|]. split; [lia|].
  intros ->. rewrite Hc. reflexivity.
Qed.

Lemma send_request_with_retry_exhausts_witness :
  exists w',
    send_request_with_retry "https://api.notion.com/v1/pages" [] NoBody [] 20 "post"
      Examples.offline
    = (inr EmptyMapping, w')
    /\ Z.of_nat (length (calls w')) = Z.of_nat (length (calls Examples.offline)) + 20
    /\ Z.of_nat (length (slept w')) = Z.of_nat (length (slept Examples.offline)) + Z.max 0 (20 - 1)
    /\ (20 = MAX_RETRIES -> length (calls w') = (length (calls Examples.offline) + 20)%nat).
Proof.
  apply (send_request_with_retry_exhausts
           "https://api.notion.com/v1/pages" [] NoBody [] 20 "post" Examples.offline).
  - lia.
  - reflexivity.
  - intros k rq _. reflexivity.
Defined.

(** A negative budget makes no attempt at all. *)
Lemma send_request_with_retry_no_budget url headers json params retries method w :
  retries <= 0 ->
  send_request_with_retry url headers json params retries method w = (inr EmptyMapping, w).
Proof.
  intros H. unfold send_request_with_retry.
  replace (Z.to_nat retries) with 0%nat by lia. reflexivity.
Qed.

(** A method other than the three sends nothing; [response] is still [None]
    and reading its status raises. *)
Lemma send_request_with_retry_unsupported url headers json params retries method w :
  0 < retries ->
  supported method = false ->
  send_request_with_retry url headers json params retries method w = (inl AttributeError, w).
Proof.
  intros Hr Hm. unfold send_request_with_retry.
  destruct (Z.to_nat retries) as [|fuel] eqn:Hf; [lia|].
  cbn [retry_loop]. apply Z.ltb_lt in Hr. rewrite Hr.
  unfold supported in Hm.
  destruct (String.eqb method "patch"); [discriminate|].
  destruct (String.eqb method "post"); [discriminate|].
  destruct (String.eqb method "get"); [discriminate|].
  reflexivity.
Qed.

(** When the first answer carries no error status it is returned at once. *)
Lemma send_request_with_retry_first (P : Response -> Prop)
    url headers json params retries method w :
  0 < retries ->
  supported method = true ->
  (forall rq, exists r,
     network w (length (calls w)) rq = Returns r
     /\ ((400 <=? status_code r) && (status_code r <? 600)) = false /\ P r) ->
  exists r w',
    send_request_with_retry url headers json params retries method w = (inr (Resp r), w')
    /\ retry_truthy (Resp r) = true /\ P r
    /\ logged w' = logged w /\ length (calls w') = S (length (calls w)).
Proof.
  intros Hr Hm Hnext. unfold send_request_with_retry.
  destruct (Z.to_nat retries) as [|fuel] eqn:Hf; [lia|].
  cbn [retry_loop]. apply Z.ltb_lt in Hr. rewrite Hr.
  unfold supported in Hm.
  destruct (String.eqb method "patch") eqn:E1;
    [|destruct (String.eqb method "post") eqn:E2;
      [|destruct (String.eqb method "get") eqn:E3; [|discriminate]]].
  all: mrun; unfold requests_call, raise_for_status; mrun.
  all: match goal with
       | |- context [network _ (length (calls _)) ?rq] =>
           destruct (Hnext rq) as (resp & -> & Hok & HP)
       end.
  all: rewrite Hok; exists resp; eexists; split; [reflexivity|].
  all: cbn [retry_truthy]; rewrite Hok; done.
Qed.

(** ** A failed query looks like an empty result (C7) *)

(** The query spends the whole budget when every attempt fails. *)
Lemma query_exhausts_budget cfg g n w :
  name g = Some n ->
  all_attempts_fail w ->
  exists w', query_item_from_notion_database cfg g w = (inr no_results, w')
             /\ length (calls w') = (length (calls w) + 20)%nat.
Proof.
  intros Hn Hfail. unfold query_item_from_notion_database. rewrite Hn.
  mrun. use_tables.
  match goal with
  | |- context [send_request_with_retry ?u ?h ?j ?p ?b ?m ?w0] =>
      destruct (send_request_with_retry_gives_up u h j p b m w0)
        as (w' & Hrun & Hcalls & _); [done | reflexivity | exact Hfail |]
  end.
  rewrite Hrun. cbn [retry_truthy]. exists w'. split; [reflexivity|].
  rewrite Hcalls. reflexivity.
Qed.

Lemma query_not_json cfg g n w :
  name g = Some n ->
  next_is_not_json w ->
  exists w', query_item_from_notion_database cfg g w = (inr no_results, w').
Proof.
  intros Hn Hnext. unfold query_item_from_notion_database. rewrite Hn.
  mrun. use_tables.
  match goal with
  | |- context [send_request_with_retry ?u ?h ?j ?p ?b ?m ?w0] =>
      destruct (send_request_with_retry_first (fun x => json_body x = None) u h j p b m w0)
        as (resp & w' & Hrun & Hok & Hbody & _); [done | reflexivity | exact Hnext |]
  end.
  rewrite Hrun, Hok. cbn [retry_json].
  unfold response_json. rewrite Hbody. mrun. eexists. reflexivity.
Qed.

(** C7: for a game with a name, [query_item_from_notion_database] returns
    [{"results": []}] when every attempt of the HTTP call fails, so that the
    retrying client gives up with [{}], and also when the response cannot be
    parsed: the value it returns when no page matches. *)
Theorem query_failure_is_no_results cfg g n w :
  name g = Some n ->
  all_attempts_fail w \/ next_is_not_json w ->
  exists w', query_item_from_notion_database cfg g w = (inr no_results, w').
Proof.
  intros Hn [Hfail|Hnext].
  - destruct (query_exhausts_budget cfg g n w Hn Hfail) as (w' & Hrun & _). eauto.
  - by apply (query_not_json cfg g n w).
Qed.

Lemma query_failure_is_no_results_witness :
  exists w',
    query_item_from_notion_database Examples.cfg Examples.half_life Examples.offline
    = (inr no_results, w').
Proof.
  apply (query_failure_is_no_results Examples.cfg Examples.half_life "Half-Life"
           Examples.offline).
  - reflexivity.
  - left. intros k rq _. reflexivity.
Defined.

(** Without a name the first log line raises before anything is sent. *)
Lemma query_without_name cfg g w :
  name g = None ->
  query_item_from_notion_database cfg g w = (inl (KeyError "name"), w).
Proof. intros Hn. unfold query_item_from_notion_database. rewrite Hn. reflexivity. Qed.

(** ** The record filter (C3) *)

Lemma strptime_cutoff :
  strptime "2020-01-01 00:00:00"
  = inr {| tm_year := 2020; tm_mon := 1; tm_mday := 1;
           tm_hour := 0; tm_min := 0; tm_sec := 0 |}.
Proof. reflexivity. Qed.

Lemma cutoff_UTC : cutoff UTC = 1577836800.
Proof. reflexivity. Qed.

(** The filter on a game with a name and a playtime: its result is the
    negation of the rule, and it logs one line when it excludes the game. *)
Lemma is_record_run_world tz g a n p x t w :
  name g = Some n ->
  playtime_forever g = Some p ->
  py_float_number p = inr x ->
  a !! "total" = Some t ->
  let out := excluded (hours x) (default 0 (rtime_last_played g)) t (cutoff tz) in
  is_record tz g a w
  = (inr (negb out),
     if out then add_logged [{| lvl := INFO; msg := "{} 不符合过滤规则!"; args := [LStr n] |}] w
     else w).
Proof.
  intros Hn Hp Hx Ht. unfold is_record. rewrite strptime_cutoff, Hn, Hp.
  mrun. rewrite Hx. unfold py_truediv. rewrite sixty_not_zero.
  rewrite Ht. fold tenth. fold (hours x). fold (cutoff tz).
  unfold excluded.
  destruct (Float.ltb (hours x) tenth);
    destruct (t <? 1);
    destruct (default 0 (rtime_last_played g) <? cutoff tz);
    destruct (Float.ltb (hours x) (Float.of_Z 6));
    cbn [andb orb negb]; reflexivity.
Qed.

Lemma py_float_number_Int minutes :
  Float.is_finite (Float.of_Z minutes) = true ->
  py_float_number (Int minutes) = inr (Float.of_Z minutes).
Proof. intros H. cbn. unfold py_float. by rewrite H. Qed.

(** Six minutes are shown as 0.1 hours, and so are 5.94 minutes, although
    they are 0.099 hours before the rounding; up to two minutes are shown as
    0.0 hours. *)
Lemma hours_of_six : hours_of 6 = tenth.
Proof. reflexivity. Qed.

Lemma hours_short_of_tenth :
  Float.div (Float.of_decimal false 594 (-2)) (Float.of_Z 60) = Float.of_decimal false 99 (-3)
  /\ hours (Float.of_decimal false 594 (-2)) = tenth.
Proof. split; reflexivity. Qed.

Lemma hours_below_tenth minutes :
  0 <= minutes <= 2 -> Float.ltb (hours_of minutes) tenth = true.
Proof.
  intros H.
  assert (minutes = 0 \/ minutes = 1 \/ minutes = 2) as [-> | [-> | ->]] by lia;
    reflexivity.
Qed.

Lemma tenth_not_below_tenth : Float.ltb tenth tenth = false.
Proof. reflexivity. Qed.

Lemma tenth_below_six : Float.ltb tenth (Float.of_Z 6) = true.
Proof. reflexivity. Qed.

(** C3, as the code has it: [is_record] returns false exactly when the rule
    excludes the game (playtime below 0.1 and no achievements, or last played
    before the cutoff with no achievements and playtime below 6), true
    otherwise, the playtime of the rule being the rounded number
    [round(float(playtime_forever) / 60, 1)]; a game whose playtime rounds
    to 0.1 hours is recorded exactly when it was played since the cutoff or
    has achievements; this is so for 6 minutes and also for 5.94 minutes,
    that is 0.099 hours, which are recorded when played since the cutoff;
    a game played for at most two minutes, without achievements, is not
    recorded. *)
Theorem is_record_decides tz g a n p x t w :
  name g = Some n ->
  playtime_forever g = Some p ->
  py_float_number p = inr x ->
  a !! "total" = Some t ->
  let last_played := default 0 (rtime_last_played g) in
  exists b w',
    is_record tz g a w = (inr b, w')
    /\ (b = false <-> excluded (hours x) last_played t (cutoff tz) = true)
    /\ (hours x = tenth -> (b = true <-> cutoff tz <= last_played \/ 1 <= t))
    /\ (p = Int 6 \/ p = Flt (Float.of_decimal false 594 (-2)) ->
        cutoff tz <= last_played -> b = true)
    /\ (forall minutes, p = Int minutes -> 0 <= minutes <= 2 -> t < 1 -> b = false).
Proof.
  intros Hn Hp Hx Ht last_played.
  pose proof (is_record_run_world tz g a n p x t w Hn Hp Hx Ht) as Hrun.
  cbv zeta in Hrun. fold last_played in Hrun.
  assert (Htenth : hours x = tenth ->
            excluded (hours x) last_played t (cutoff tz)
            = (last_played <? cutoff tz) && (t <? 1)).
  { intros ->. unfold excluded. rewrite tenth_not_below_tenth, tenth_below_six.
    cbn [andb orb]. by rewrite andb_true_r. }
  eexists _, _. split; [exact Hrun|]. split; [|split; [|split]].
  - destruct (excluded _ _ _ _); cbn; split; congruence.
  - intros E. rewrite (Htenth E).
    destruct (Z.ltb_spec last_played (cutoff tz)); destruct (Z.ltb_spec t 1);
      cbn [andb negb]; split; try congruence; try lia; intros _; lia.
  - intros Hcase Hlast.
    assert (E : hours x = tenth).
    { destruct Hcase as [-> | ->].
      - unfold py_float_number, py_float in Hx. cbn in Hx. by injection Hx as <-.
      - injection Hx as <-. apply hours_short_of_tenth. }
    rewrite (Htenth E).
    replace (last_played <? cutoff tz) with false by (symmetry; apply Z.ltb_ge; lia).
    reflexivity.
  - intros minutes -> Hm Hlt.
    assert (E : x = Float.of_Z minutes).
    { unfold py_float_number, py_float in Hx.
      destruct (Float.is_finite (Float.of_Z minutes)); [|discriminate]. by injection Hx. }
    subst x. unfold excluded. change (hours (Float.of_Z minutes)) with (hours_of minutes).
    rewrite (hours_below_tenth minutes Hm).
    apply Z.ltb_lt in Hlt. rewrite Hlt. reflexivity.
Qed.

Lemma is_record_decides_witness :
  exists b w',
    is_record UTC six_minutes_recently no_achievements Examples.offline = (inr b, w')
    /\ (b = false <->
        excluded (hours (Float.of_Z 6)) (default 0 (rtime_last_played six_minutes_recently)) 0
                 (cutoff UTC) = true)
    /\ (hours (Float.of_Z 6) = tenth ->
        (b = true <->
         cutoff UTC <= default 0 (rtime_last_played six_minutes_recently) \/ 1 <= 0))
    /\ (Int 6 = Int 6 \/ Int 6 = Flt (Float.of_decimal false 594 (-2)) ->
        cutoff UTC <= default 0 (rtime_last_played six_minutes_recently) -> b = true)
    /\ (forall minutes, Int 6 = Int minutes -> 0 <= minutes <= 2 -> 0 < 1 -> b = false).
Proof.
  apply (is_record_decides UTC six_minutes_recently no_achievements "Half-Life" (Int 6)
           (Float.of_Z 6) 0 Examples.offline); reflexivity.
Defined.

(** C3, table value: a game played for 0.099 hours (5.94 minutes) in
    November 2023, without achievements, is recorded: the filter compares
    the rounded playtime, which is 0.1. *)
Lemma is_record_short_of_tenth_counterexample :
  playtime_forever short_of_tenth = Some (Flt (Float.of_decimal false 594 (-2)))
  /\ Float.div (Float.of_decimal false 594 (-2)) (Float.of_Z 60)
     = Float.of_decimal false 99 (-3)
  /\ Float.ltb (Float.of_decimal false 99 (-3)) tenth = true
  /\ no_achievements !! "total" = Some 0
  /\ is_record UTC short_of_tenth no_achievements Examples.offline
     = (inr true, Examples.offline).
Proof. repeat split. Qed.

(** ** Tags in the payload (C5) *)





(** ** The Half-Life scenario (C6) *)

(** C6: for the game {appid: 10, name: "Half-Life", playtime_forever: 600,
    rtime_last_played: 1700000000} of the scenario, which carries an
    [img_icon_url] as every game of the owned-games list does, and
    achievements {total: 20, achieved: 10}, the create operation derives
    playtime 10.0 and completion 50.0 and writes the COMPLETION multi-select
    [{"name": "50.0%"}], in every time zone in which the time last played
    has a local date. *)
Theorem scenario_half_life cfg tz ic r s w :
  succeeds (localtime tz 1700000000) = true ->
  exists fr w',
    add_item_frame cfg tz (with_icon scenario_game ic) Examples.ten_of_twenty r s w
    = (inr fr, w')
    /\ playtime fr = Float.of_Z 10
    /\ Float.repr (playtime fr) = "10.0"
    /\ completion fr = Flt (Float.of_Z 50)
    /\ str_number (completion fr) = "50.0"
    /\ properties (data fr) !! "游玩时长 (h)"
       = Some (PDict [("type", PStr "number"); ("number", PFloat (Float.of_Z 10))])
    /\ properties (data fr) !! "完成度"
       = Some (PDict [("type", PStr "multi_select");
                      ("multi_select", PList [PDict [("name", PStr "50.0%")]])]).
Proof.
  intros Htz.
  destruct (add_item_frame_returns cfg tz (with_icon scenario_game ic)
              Examples.ten_of_twenty r s w (Flt (Float.of_Z 50)))
    as (fr & w' & Hrun & Hc);
    [unfold game_complete; cbn [with_icon scenario_game appid name playtime_forever
                                rtime_last_played img_icon_url from_option id];
     rewrite Htz; reflexivity
    | reflexivity |].
  destruct (add_item_frame_inv _ _ _ _ _ _ _ _ _ Hrun) as (D & _).
  destruct (derived_playtime _ _ _ _ D) as (minutes & x & q & Hm & Hx & Hq & Hp).
  injection Hm as <-. vm_compute in Hx. injection Hx as <-.
  vm_compute in Hq. injection Hq as <-.
  assert (Hp' : playtime fr = Float.of_Z 10) by (rewrite Hp; reflexivity).
  exists fr, w'. split; [exact Hrun|].
  split; [exact Hp'|]. split; [rewrite Hp'; reflexivity|].
  split; [exact Hc|]. split; [rewrite Hc; reflexivity|].
  split.
  - rewrite (derived_PLAYTIME _ _ _ _ D), Hp'. reflexivity.
  - rewrite (derived_COMPLETION _ _ _ _ D), Hc. reflexivity.
Qed.

Lemma scenario_half_life_witness :
  exists fr w',
    add_item_frame Examples.cfg UTC (with_icon scenario_game "icon") Examples.ten_of_twenty
      "Good." Examples.store Examples.offline
    = (inr fr, w')
    /\ playtime fr = Float.of_Z 10
    /\ Float.repr (playtime fr) = "10.0"
    /\ completion fr = Flt (Float.of_Z 50)
    /\ str_number (completion fr) = "50.0"
    /\ properties (data fr) !! "游玩时长 (h)"
       = Some (PDict [("type", PStr "number"); ("number", PFloat (Float.of_Z 10))])
    /\ properties (data fr) !! "完成度"
       = Some (PDict [("type", PStr "multi_select");
                      ("multi_select", PList [PDict [("name", PStr "50.0%")]])]).
Proof.
  apply (scenario_half_life Examples.cfg UTC "icon" "Good." Examples.store Examples.offline).
  reflexivity.
Defined.

(** ** The schema validator (C8) *)

Lemma validate_loop_shaped d props items : forall w,
  dict_get d "properties" = Some (PDict props) ->
  forallb (entry_typed props) (map fst items) = true ->
  exists w', validate_loop (PDict d) items w = (inr tt, w').
Proof.
  induction items as [|[prop_name prop_type] items IH]; intros w Hp Hall.
  - eexists. reflexivity.
  - cbn [map fst forallb] in Hall. apply andb_true_iff in Hall as [Hentry Hall].
    cbn [validate_loop py_getitem]. mrun. cbn [py_getitem]. rewrite Hp.
    cbn [py_contains py_getitem]. unfold entry_typed in Hentry.
    destruct (dict_get props prop_name) as [[a|l|entry]|] eqn:He; try discriminate.
    + rewrite bool_decide_true by eauto. rewrite ?He.
      apply bool_decide_eq_true in Hentry as [t Ht]. cbn [py_getitem]. rewrite Ht.
      destruct (negb (is_str t prop_type)); apply IH; done.
    + rewrite bool_decide_false by (intros [? ?]; discriminate).
      apply IH; done.
Qed.

Lemma validate_loop_no_properties db kv items e w :
  py_getitem db "properties" = inl e ->
  validate_loop db (kv :: items) w = (inl e, w).
Proof.
  intros He. destruct kv as [prop_name prop_type].
  cbn [validate_loop]. mrun. rewrite He. reflexivity.
Qed.

(** C8, as the code has it: the validator always returns a boolean; it
    returns false when the fetch or the parse raises, and also when the
    parsed body has no "properties"; it returns true when the body has the
    shape of a database object, whatever the types in it and whichever
    properties are missing. *)
Theorem validate_database_structure_result cfg w :
  exists b w',
    validate_database_structure cfg w = (inr b, w')
    /\ match fetched_schema cfg w with
       | None => b = false
       | Some db =>
           (schema_shaped db = true -> b = true)
           /\ (forall e, py_getitem db "properties" = inl e -> b = false)
       end.
Proof.
  unfold validate_database_structure, fetched_schema. mrun.
  unfold requests_call, raise_for_status. fold (validate_request cfg).
  destruct (network w (length (calls w)) (validate_request cfg)) as [r|].
  2: { eexists _, _. split; reflexivity. }
  destruct ((400 <=? status_code r) && (status_code r <? 600)).
  { mrun. eexists _, _. split; reflexivity. }
  mrun. unfold response_json. destruct (json_body r) as [db|].
  2: { mrun. eexists _, _. split; reflexivity. }
  mrun.
  match goal with
  | |- context [validate_loop db PROPERTY_TYPES_items ?w0] =>
      destruct (validate_loop db PROPERTY_TYPES_items w0) as [[e|[]] w1] eqn:Hloop
  end.
  - eexists _, _. split; [reflexivity|]. split.
    + intros Hs. exfalso. unfold schema_shaped in Hs.
      destruct db as [a|l|d]; try discriminate.
      destruct (dict_get d "properties") as [[a|l|props]|] eqn:Hp; try discriminate.
      match type of Hloop with
      | validate_loop _ _ ?w0 = _ =>
          destruct (validate_loop_shaped d props PROPERTY_TYPES_items w0 Hp Hs) as (w2 & H2)
      end.
      rewrite H2 in Hloop. discriminate.
    + reflexivity.
  - eexists _, _. split; [reflexivity|]. split; [reflexivity|].
    intros e He. unfold PROPERTY_TYPES_items in Hloop.
    rewrite (validate_loop_no_properties db _ _ e _ He) in Hloop. discriminate.
Qed.

Lemma validate_database_structure_result_witness :
  schema_matches mistyped_schema = false
  /\ fst (validate_database_structure Examples.cfg
            (Examples.answering (ok_response mistyped_schema))) = inr true.
Proof.
  split; [reflexivity|].
  destruct (validate_database_structure_result Examples.cfg
              (Examples.answering (ok_response mistyped_schema)))
    as (b & w' & Hrun & Hshape & _).
  rewrite Hrun. cbn [fst]. f_equal. apply Hshape. reflexivity.
Defined.

(** C8, as stated: the fetch and the parse succeed on the body [{}], and the validator
    returns false. *)
Lemma validate_empty_object_counterexample :
  fetched_schema Examples.cfg (Examples.answering (ok_response (PDict []))) = Some (PDict [])
  /\ fst (validate_database_structure Examples.cfg
            (Examples.answering (ok_response (PDict [])))) = inr false.
Proof. split; reflexivity. Qed.

(** ** Counting achievements (C9) *)

Lemma achieved_count_le items : (achieved_count items <= length items)%nat.
Proof. unfold achieved_count. apply List.filter_length_le. Qed.

Lemma count_loop_counts items : forall info w info' w' t c,
  info !! "total" = Some t ->
  info !! "achieved" = Some c ->
  count_loop items info w = (inr info', w') ->
  info' !! "total" = Some (t + Z.of_nat (length items))
  /\ info' !! "achieved" = Some (c + Z.of_nat (achieved_count items))
  /\ w' = w.
Proof.
  induction items as [|entry items IH]; intros info w info' w' t c Ht Hc.
  - cbn. intros [= <- <-]. rewrite !Z.add_0_r. done.
  - cbn [count_loop]. mrun. rewrite Ht.
    unfold achieved_count, is_achieved. cbn [List.filter]. fold is_achieved.
    destruct (py_getitem entry "achieved") as [e|v] eqn:Hv; [discriminate|].
    destruct (truthy v).
    + rewrite lookup_insert_ne by done. rewrite Hc. intros Hrun.
      apply (IH _ _ _ _ (t + 1) (c + 1)) in Hrun.
      * destruct Hrun as (H1 & H2 & H3). unfold achieved_count in *.
        cbn [length]. rewrite H1, H2. repeat split; [f_equal; lia | f_equal; lia | done].
      * rewrite lookup_insert_ne by done. by rewrite lookup_insert_eq.
      * by rewrite lookup_insert_eq.
    + intros Hrun. apply (IH _ _ _ _ (t + 1) c) in Hrun.
      * destruct Hrun as (H1 & H2 & H3). unfold achieved_count in *.
        cbn [length]. rewrite H1, H2. repeat split; [f_equal; lia | done].
      * by rewrite lookup_insert_eq.
      * rewrite lookup_insert_ne by done. exact Hc.
Qed.

(** What [get_achievements_count] returns, when it returns. *)
Lemma get_achievements_count_inv cfg g w info w' :
  get_achievements_count cfg g w = (inr info, w') ->
  info = sentinel
  \/ exists items,
       info !! "total" = Some (Z.of_nat (length items))
       /\ info !! "achieved" = Some (Z.of_nat (achieved_count items)).
Proof.
  unfold get_achievements_count.
  cbv [mbind M_bind bind].
  destruct (query_achievements_info_from_steam cfg g w) as [[e|ga] w1]; [discriminate|].
  destruct ga as [v|].
  2: { mrun. destruct (name g); [|discriminate]. intros [= <- _]. by left. }
  mrun.
  destruct (is_None v).
  { destruct (name g); [|discriminate]. intros [= <- _]. by left. }
  destruct (py_get v "playerstats" (PDict [])) as [|ps]; [discriminate|].
  destruct (py_get ps "success" (PBool false)) as [|success]; [discriminate|].
  destruct (is_False success).
  { destruct (name g); [|discriminate]. intros [= <- _]. by left. }
  cbn [from_option id].
  destruct (py_getitem v "playerstats") as [|ps']; [discriminate|].
  destruct (py_contains ps' "achievements") as [|has]; [discriminate|].
  destruct has; cbn [negb].
  2: { destruct (name g); [|discriminate]. intros [= <- _]. by left. }
  destruct (py_getitem ps' "achievements") as [|arr]; [discriminate|].
  destruct (py_iter arr) as [|items]; [discriminate|].
  match goal with
  | |- context [count_loop items ?i ?w0] =>
      destruct (count_loop items i w0) as [[e|info1] w2] eqn:Hloop; [discriminate|]
  end.
  destruct (name g); [|discriminate]. intros [= <- _].
  right. exists items.
  apply (count_loop_counts _ _ _ _ _ 0 0) in Hloop as (H1 & H2 & _); [|done|done].
  rewrite H1, H2. split; f_equal; lia.
Qed.

(** An HTTP error status is handled: the answer is the sentinel. *)
Lemma get_achievements_count_http_error cfg g i n w r :
  appid g = Some i ->
  name g = Some n ->
  (forall rq, network w (length (calls w)) rq = Returns r) ->
  ((400 <=? status_code r) && (status_code r <? 600)) = true ->
  fst (get_achievements_count cfg g w) = inr sentinel.
Proof.
  intros Hi Hn Hnet Herr. unfold get_achievements_count, query_achievements_info_from_steam.
  rewrite Hi, Hn. mrun. unfold requests_call, raise_for_status. cbn [calls network].
  rewrite Hnet, Herr. mrun. cbn [is_RequestException]. reflexivity.
Qed.

(** A transport failure is not: [requests.get] raises before [response] is
    assigned, and the handler reads [response]. *)
Lemma get_achievements_count_transport_failure cfg g i n w :
  appid g = Some i ->
  name g = Some n ->
  (forall rq, network w (length (calls w)) rq = Raises) ->
  fst (get_achievements_count cfg g w) = inl (UnboundLocalError "response").
Proof.
  intros Hi Hn Hnet. unfold get_achievements_count, query_achievements_info_from_steam.
  rewrite Hi, Hn. mrun. unfold requests_call. cbn [calls network].
  rewrite Hnet. reflexivity.
Qed.

(** C9, at the failing input: for Half-Life, with the network down, the
    call of [get_achievements_count] raises [UnboundLocalError] instead of
    returning the sentinel. *)
Theorem get_achievements_count_network_down :
  fst (get_achievements_count Examples.cfg Examples.half_life Examples.offline)
  = inl (UnboundLocalError "response")
  /\ fst (get_achievements_count Examples.cfg Examples.half_life Examples.offline)
     <> inr sentinel.
Proof. split; [reflexivity | discriminate]. Qed.

(** ** The completion (C4) *)



Lemma completion_of_inv total achieved c :
  completion_of total achieved = inr c ->
  (total <= 0 /\ c = Int (-1))
  \/ (0 < total /\ c = Flt (percent achieved total)
      /\ Float.is_finite (Float.of_Z achieved) = true
      /\ Float.is_finite (Float.of_Z total) = true).
Proof.
  unfold completion_of, py_float, py_truediv.
  destruct (Z.ltb_spec 0 total) as [Ht|Ht].
  - destruct (Float.is_finite (Float.of_Z achieved)) eqn:Hfa; [|discriminate].
    destruct (Float.is_finite (Float.of_Z total)) eqn:Hft; [|discriminate].
    destruct (Float.is_zero (Float.of_Z total)); [discriminate|].
    intros [= <-]. right. done.
  - intros [= <-]. left. done.
Qed.



(** ** The achievements and the completion stay in range (C10) *)

Lemma sentinel_lookups :
  sentinel !! "total" = Some (-1) /\ sentinel !! "achieved" = Some (-1).
Proof. split; reflexivity. Qed.

Lemma percent_in_range achieved total :
  0 <= achieved <= total -> 0 < total ->
  Float.is_finite (Float.of_Z achieved) = true ->
  Float.is_finite (Float.of_Z total) = true ->
  completion_in_range (Flt (percent achieved total)).
Proof.
  intros Ha Ht Hfa Hft. right.
  destruct (FloatFacts.bounded_by_to_Q 100 (percent achieved total)) as (v & Hv & Hr);
    [lia | by apply FloatFacts.completion_le_100 |].
  exists (percent achieved total), v. done.
Qed.

(** C10: the achievements that [get_achievements_count] returns are the
    sentinel or satisfy [0 <= achieved <= total], and the completion that
    create or update derives from them is [-1] or lies between 0 and 100. *)
Theorem achievements_in_range cfg tz page_id g w info g' r s w2 c :
  fst (get_achievements_count cfg g w) = inr info ->
  result_map completion (fst (add_item_frame cfg tz g' info r s w2)) = inr c
  \/ result_map completion (fst (update_item_frame cfg tz page_id g' info r s w2)) = inr c ->
  (exists total achieved,
     info !! "total" = Some total /\ info !! "achieved" = Some achieved
     /\ ((total = -1 /\ achieved = -1) \/ 0 <= achieved <= total))
  /\ completion_in_range c.
Proof.
  intros Hcount Hframe.
  destruct (get_achievements_count cfg g w) as [[e|info'] w1] eqn:Hrun; [discriminate|].
  cbn [fst] in Hcount. injection Hcount as ->.
  assert (Hinfo : exists total achieved,
            info !! "total" = Some total /\ info !! "achieved" = Some achieved
            /\ ((total = -1 /\ achieved = -1) \/ 0 <= achieved <= total)).
  { destruct (get_achievements_count_inv _ _ _ _ _ Hrun) as [-> | (items & Ht & Ha)].
    - exists (-1), (-1). destruct sentinel_lookups as [-> ->]. split; [done|].
      split; [done|]. left. done.
    - exists (Z.of_nat (length items)), (Z.of_nat (achieved_count items)).
      split; [done|]. split; [done|]. right.
      pose proof (achieved_count_le items). lia. }
  split; [exact Hinfo|].
  destruct Hinfo as (total & achieved & Ht & Ha & Hrange).
  assert (D : exists fr, derived g' info s fr /\ completion fr = c).
  { destruct Hframe as [H|H].
    - destruct (add_item_frame cfg tz g' info r s w2) as [[e|fr] w3] eqn:Hf; [discriminate|].
      cbn [fst result_map] in H. injection H as <-.
      exists fr. split; [|done]. by destruct (add_item_frame_inv _ _ _ _ _ _ _ _ _ Hf).
    - destruct (update_item_frame cfg tz page_id g' info r s w2) as [[e|fr] w3] eqn:Hf;
        [discriminate|].
      cbn [fst result_map] in H. injection H as <-.
      exists fr. split; [|done]. by destruct (update_item_frame_inv _ _ _ _ _ _ _ _ _ _ Hf). }
  destruct D as (fr & D & <-).
  pose proof (derived_completion _ _ _ _ D) as Hc. rewrite Ht, Ha in Hc.
  cbn [from_option id] in Hc.
  destruct (completion_of_inv _ _ _ Hc) as [[_ ->] | (Hpos & -> & Hfa & Hft)].
  - by left.
  - apply percent_in_range; [lia | done | done | done].
Qed.

Lemma achievements_in_range_witness :
  (exists total achieved,
     one_achieved_of_two !! "total" = Some total
     /\ one_achieved_of_two !! "achieved" = Some achieved
     /\ ((total = -1 /\ achieved = -1) \/ 0 <= achieved <= total))
  /\ completion_in_range (Flt (Float.of_Z 50)).
Proof.
  apply (achievements_in_range Examples.cfg UTC "page" Examples.half_life
           (Examples.answering (ok_response one_of_two)) one_achieved_of_two
           Examples.half_life "Good." Examples.store Examples.offline (Flt (Float.of_Z 50))).
  - vm_compute. reflexivity.
  - left. vm_compute. reflexivity.
Defined.

(** * Further properties: runs on any network, and the driver *)

(** ** The loop of the retrying client *)

Lemma repeat_snoc {A} (x : A) n l : (repeat x n ++ x :: l = repeat x (S n) ++ l)%list.
Proof. induction n as [|n IH]; [done|]. cbn. f_equal. exact IH. Qed.

(** The loop of the retrying client, on any network. *)
Lemma retry_loop_spec url headers json params method :
  supported method = true ->
  forall fuel retries response w,
    (Z.to_nat retries <= fuel)%nat ->
    exists res w' n,
      retry_loop fuel url headers json params method response retries w = (inr res, w')
      /\ network w' = network w
      /\ calls w' = (repeat (request_of url headers json params method) n ++ calls w)%list
      /\ slept w' = (repeat RETRY_DELAY (n - 1) ++ slept w)%list
      /\ (exists l, logged w' = (l ++ logged w)%list /\ Forall (fun r => lvl r = ERROR) l
                     /\ length l = error_lines res n)
      /\ (n <= Z.to_nat retries)%nat
      /\ (0 < retries -> (1 <= n)%nat)
      /\ match res with
         | Resp r =>
             exists m, n = S m
               /\ answer w m (request_of url headers json params method) = Returns r
               /\ retry_truthy (Resp r) = true
               /\ forall j, (j < m)%nat ->
                    attempt_fails (answer w j (request_of url headers json params method)) = true
         | EmptyMapping =>
             n = Z.to_nat retries
             /\ forall j, (j < n)%nat ->
                  attempt_fails (answer w j (request_of url headers json params method)) = true
         end.
Proof.
  intros Hm. induction fuel as [|fuel IH]; intros retries response w Hfuel.
  - exists EmptyMapping, w, 0%nat. cbn.
    split; [done|]. split; [done|]. split; [done|]. split; [done|].
    split; [exists []; split; [done | split; [constructor | done]]|].
    split; [lia|]. split; [lia|]. split; [lia|]. intros j Hj. lia.
  - cbn [retry_loop]. destruct (0 <? retries) eqn:Hpos.
    2: { apply Z.ltb_ge in Hpos. exists EmptyMapping, w, 0%nat. mrun. cbn.
         split; [done|]. split; [done|]. split; [done|]. split; [done|].
         split; [exists []; split; [done | split; [constructor | done]]|].
         split; [lia|]. split; [lia|]. split; [lia|]. intros j Hj. lia. }
    apply Z.ltb_lt in Hpos.
    set (rq := request_of url headers json params method).
    (* what a failed attempt leads to *)
    assert (Hexcept : forall resp (e : exn) l0,
      attempt_fails (answer w 0 rq) = true ->
      Forall (fun r => lvl r = ERROR) l0 -> length l0 = 1%nat ->
      forall w1, w1 = {| network := network w; calls := rq :: calls w; slept := slept w;
                         logged := (l0 ++ logged w)%list |} ->
      exists res w' n,
        (if 0 <? retries - 1
         then (fun w2 => retry_loop fuel url headers json params method resp (retries - 1)
                 {| network := network w2; calls := calls w2;
                    slept := RETRY_DELAY :: slept w2; logged := logged w2 |})
         else (fun w2 => (inr EmptyMapping,
                 {| network := network w2; calls := calls w2; slept := slept w2;
                    logged := {| lvl := ERROR; msg := "超过最大重试次数.错误: {}, 放弃.";
                                 args := [LStr (error_text_of resp)] |} :: logged w2 |}))) w1
        = (inr res, w')
        /\ network w' = network w
        /\ calls w' = (repeat rq n ++ calls w)%list
        /\ slept w' = (repeat RETRY_DELAY (n - 1) ++ slept w)%list
        /\ (exists l, logged w' = (l ++ logged w)%list /\ Forall (fun r => lvl r = ERROR) l
                       /\ length l = error_lines res n)
        /\ (n <= Z.to_nat retries)%nat
        /\ (0 < retries -> (1 <= n)%nat)
        /\ match res with
           | Resp r =>
               exists m, n = S m /\ answer w m rq = Returns r /\ retry_truthy (Resp r) = true
                 /\ forall j, (j < m)%nat -> attempt_fails (answer w j rq) = true
           | EmptyMapping =>
               n = Z.to_nat retries
               /\ forall j, (j < n)%nat -> attempt_fails (answer w j rq) = true
           end).
    { intros resp e l0 Hfail0 Hl0 Hlen w1 ->.
      destruct (0 <? retries - 1) eqn:Hmore.
      - apply Z.ltb_lt in Hmore.
        match goal with
        | |- context [retry_loop fuel _ _ _ _ _ resp (retries - 1) ?w2] =>
            destruct (IH (retries - 1) resp w2) as (res & w' & n & Hrun & Hn & Hc & Hs & Hl & Hle & Hge & Hres);
              [lia|]
        end.
        cbn [network calls slept logged] in *.
        assert (Hans : forall j, answer {| network := network w; calls := rq :: calls w;
                         slept := RETRY_DELAY :: slept w; logged := (l0 ++ logged w)%list |} j rq
                       = answer w (S j) rq).
        { intros j. unfold answer. cbn [network calls length]. f_equal. lia. }
        specialize (Hge Hmore).
        exists res, w', (S n). split; [exact Hrun|]. split; [exact Hn|].
        split; [rewrite Hc; fold rq; apply repeat_snoc|].
        split. { rewrite Hs. destruct n as [|n]; [lia|]. cbn [Nat.sub]. rewrite Nat.sub_0_r.
                 apply repeat_snoc. }
        split. { destruct Hl as (l & -> & Hl & Hcount). exists (l ++ l0)%list.
                 split; [by rewrite app_assoc|]. split; [by apply Forall_app|].
                 rewrite length_app, Hlen, Hcount.
                 destruct res; destruct n as [|n]; cbn [error_lines]; lia. }
        split; [lia|]. split; [lia|].
        destruct res as [r|].
        + destruct Hres as (m & -> & Ha & Ht & Hj). exists (S m). split; [done|].
          fold rq in Ha, Hj. rewrite Hans in Ha. split; [exact Ha|]. split; [exact Ht|].
          intros [|j] Hlt; [exact Hfail0|]. rewrite <- Hans. apply Hj. lia.
        + destruct Hres as (-> & Hj). split; [lia|].
          fold rq in Hj.
          intros [|j] Hlt; [exact Hfail0|]. rewrite <- Hans. apply Hj. lia.
      - apply Z.ltb_ge in Hmore.
        eexists EmptyMapping, _, 1%nat. split; [reflexivity|].
        cbn [network calls slept logged repeat app Nat.sub].
        split; [done|]. split; [done|]. split; [done|].
        split. { eexists (_ :: l0). split; [reflexivity|].
                 split; [constructor; [done | exact Hl0]|]. cbn [length error_lines]. lia. }
        split; [lia|]. split; [lia|]. split; [lia|].
        intros j Hj. replace j with 0%nat by lia. exact Hfail0. }
    unfold supported in Hm.
    destruct (String.eqb method "patch") eqn:E1;
      [apply String.eqb_eq in E1; subst method
      |destruct (String.eqb method "post") eqn:E2;
        [apply String.eqb_eq in E2; subst method
        |destruct (String.eqb method "get") eqn:E3;
           [apply String.eqb_eq in E3; subst method | discriminate]]].
    all: mrun; unfold requests_call, raise_for_status; mrun.
    all: change (String.eqb _ _) with false in rq || change (String.eqb _ _) with true in rq.
    all: match goal with
         | |- context [network _ (length (calls _)) ?rq0] => change rq0 with rq
         end.
    all: pose proof (eq_refl : answer w 0 rq = network w (length (calls w) + 0) rq) as Ha0;
         rewrite Nat.add_0_r in Ha0.
    all: destruct (network w (length (calls w)) rq) as [rs|] eqn:Hnet.
    all: cbn [is_RequestException].
    all: try (destruct ((400 <=? status_code rs) && (status_code rs <? 600)) eqn:Herr).
    all: mrun; cbn [is_RequestException].
    all: try (eapply (Hexcept _ ConnectionError [_]);
              [rewrite Ha0; cbn [attempt_fails]; done
              | | reflexivity | reflexivity]; repeat constructor).
    all: try (eexists (Resp rs), _, 1%nat; split; [reflexivity|];
              cbn [network calls slept logged repeat app Nat.sub];
              split; [done|]; split; [done|]; split; [done|];
              split; [exists []; split; [done | split; [constructor | done]]|];
              split; [lia|]; split; [lia|];
              exists 0%nat; split; [done|]; split; [exact Ha0|];
              split; [cbn [retry_truthy]; rewrite Herr; done|]; intros j Hj; lia).
Qed.

Lemma success_fails o : attempt_fails o = true -> success o = None.
Proof. destruct o as [r|]; [|done]. unfold success. by intros ->. Qed.

Lemma success_ok r : attempt_fails (Returns r) = false -> success (Returns r) = Some r.
Proof. unfold success. by intros ->. Qed.

Lemma first_success_none w rq n : forall k,
  (forall j, (j < n)%nat -> attempt_fails (answer w (k + j) rq) = true) ->
  first_success w rq k n = None.
Proof.
  induction n as [|n IH]; intros k Hall; [done|].
  cbn [first_success]. pose proof (Hall 0%nat ltac:(lia)) as H0.
  rewrite Nat.add_0_r in H0. rewrite (success_fails _ H0).
  apply IH. intros j Hj. replace (S k + j)%nat with (k + S j)%nat by lia. apply Hall. lia.
Qed.

Lemma first_success_some w rq r m : forall n k,
  (m < n)%nat ->
  (forall j, (j < m)%nat -> attempt_fails (answer w (k + j) rq) = true) ->
  answer w (k + m) rq = Returns r ->
  attempt_fails (Returns r) = false ->
  first_success w rq k n = Some ((k + m)%nat, r).
Proof.
  induction m as [|m IH]; intros n k Hlt Hall Hr Hok.
  - destruct n as [|n]; [lia|]. cbn [first_success].
    rewrite Nat.add_0_r in *. by rewrite Hr, (success_ok _ Hok).
  - destruct n as [|n]; [lia|]. cbn [first_success].
    pose proof (Hall 0%nat ltac:(lia)) as H0. rewrite Nat.add_0_r in H0.
    rewrite (success_fails _ H0).
    replace (k + S m)%nat with (S k + m)%nat by lia. apply IH; [lia | | | exact Hok].
    + intros j Hj. replace (S k + j)%nat with (k + S j)%nat by lia. apply Hall. lia.
    + replace (S k + m)%nat with (k + S m)%nat by lia. exact Hr.
Qed.

Lemma retry_truthy_ok r : retry_truthy (Resp r) = true -> attempt_fails (Returns r) = false.
Proof. cbn. by intros ->%negb_true_iff. Qed.

(** The retrying client returns the first answer that is no failure, or
    [{}] when there is none within the budget. *)
Lemma send_request_with_retry_run url headers json params retries method w :
  supported method = true ->
  let rq := request_of url headers json params method in
  exists res w' n,
    send_request_with_retry url headers json params retries method w = (inr res, w')
    /\ attempts rq n w w'
    /\ (exists l, logged w' = (l ++ logged w)%list /\ Forall (fun r => lvl r = ERROR) l
                  /\ length l = error_lines res n)
    /\ match first_success w rq 0 (Z.to_nat retries) with
       | Some (k, r) => res = Resp r /\ n = S k /\ retry_truthy (Resp r) = true
       | None => res = EmptyMapping /\ n = Z.to_nat retries
       end.
Proof.
  intros Hm rq. unfold send_request_with_retry.
  destruct (retry_loop_spec url headers json params method Hm (Z.to_nat retries) retries None w)
    as (res & w' & n & Hrun & Hn & Hc & Hs & Hl & Hle & _ & Hres); [lia|].
  fold rq in Hc, Hres.
  exists res, w', n. split; [exact Hrun|]. split; [done|]. split; [exact Hl|].
  destruct res as [r|].
  - destruct Hres as (m & -> & Ha & Ht & Hfail).
    rewrite (first_success_some w rq r m (Z.to_nat retries) 0 ltac:(lia) Hfail Ha
               (retry_truthy_ok r Ht)).
    done.
  - destruct Hres as (-> & Hfail). rewrite first_success_none; [done | exact Hfail].
Qed.

Lemma first_success_ext w w' rq n : forall k,
  network w' = network w -> length (calls w') = length (calls w) ->
  first_success w' rq k n = first_success w rq k n.
Proof.
  intros k Hn Hc. revert k. induction n as [|n IH]; intros k; [done|].
  cbn [first_success]. unfold answer. rewrite Hn, Hc, IH. done.
Qed.

Lemma attempts_logged rq n w l w' :
  attempts rq n (add_logged l w) w' -> attempts rq n w w'.
Proof. done. Qed.

Lemma first_success_bound w rq n : forall k i r,
  first_success w rq k n = Some (i, r) -> (k <= i < k + n)%nat.
Proof.
  induction n as [|n IH]; intros k i r; [done|].
  cbn [first_success].
  destruct (success (answer w k rq)) as [r0|].
  - intros [= <- _]. lia.
  - intros H%IH. lia.
Qed.

Lemma attempts_made_bound w rq n :
  (1 <= n)%nat -> (1 <= attempts_made n (first_success w rq 0 n) <= n)%nat.
Proof.
  intros Hn. destruct (first_success w rq 0 n) as [[i r]|] eqn:Hd; cbn [attempts_made].
  - apply first_success_bound in Hd. lia.
  - lia.
Qed.

(** ** The query, run *)

(** The query returns the parsed body of the first answer that is no
    failure, and [{"results": []}] when there is none or it is not JSON. *)
Lemma query_item_run cfg g n w :
  name g = Some n ->
  exists w',
    query_item_from_notion_database cfg g w = (inr (queried cfg n w), w')
    /\ after_query cfg n w w'.
Proof.
  intros Hn. unfold queried, after_query, query_item_from_notion_database. rewrite Hn.
  mrun. use_tables.
  match goal with
  | |- context [send_request_with_retry ?u ?h ?j ?p ?b ?m ?w0] =>
      destruct (send_request_with_retry_run u h j p b m w0 eq_refl)
        as (res & w1 & k & Hrun & Hatt & _ & Hfs);
      change (request_of u h j p m) with (query_request cfg n) in Hatt, Hfs;
      rewrite (first_success_ext w w0) in Hfs by reflexivity
  end.
  rewrite Hrun. change (Z.to_nat MAX_RETRIES) with 20%nat in Hfs.
  destruct (first_success w (query_request cfg n) 0 20) as [[i r]|] eqn:Hd.
  - destruct Hfs as (-> & -> & Ht). rewrite Ht. cbn [retry_json body_or].
    unfold response_json. destruct (json_body r) as [v|]; mrun;
      eexists; (split; [reflexivity | exact Hatt]).
  - destruct Hfs as (-> & ->). cbn [retry_truthy body_or].
    eexists. split; [reflexivity | exact Hatt].
Qed.

(** ** Computations that only log *)

Lemma only_logs_ret {A} (a : A) : only_logs (mret a).
Proof. intros w. exists []. by rewrite add_logged_nil. Qed.

Lemma only_logs_raise {A} e : only_logs (@raise A e).
Proof. intros w. exists []. by rewrite add_logged_nil. Qed.

Lemma only_logs_lift {A} (r : result A) : only_logs (lift r).
Proof. intros w. exists []. by rewrite add_logged_nil. Qed.

Lemma only_logs_logger l text a : only_logs (logger l text a).
Proof. intros w. eexists [_]. reflexivity. Qed.

Lemma only_logs_field {A} k (o : option A) : only_logs (field k o).
Proof. destruct o; [apply only_logs_ret | apply only_logs_raise]. Qed.

Lemma only_logs_getitem {A} (d : gmap string A) k : only_logs (getitem d k).
Proof. unfold getitem. destruct (d !! k); [apply only_logs_ret | apply only_logs_raise]. Qed.

Lemma only_logs_bind {A B} (m : M A) (k : A -> M B) :
  only_logs m -> (forall a, only_logs (k a)) -> only_logs (mbind k m).
Proof.
  intros Hm Hk w. destruct (Hm w) as [l1 H1].
  cbv [mbind M_bind bind]. destruct (m w) as [[e|a] w1]; cbn [snd] in *; subst w1.
  - by exists l1.
  - destruct (Hk a (add_logged l1 w)) as [l2 H2]. exists (l2 ++ l1)%list.
    by rewrite H2, add_logged_app.
Qed.

Lemma only_logs_attempt {A} (m : M A) : only_logs m -> only_logs (attempt m).
Proof.
  intros Hm w. destruct (Hm w) as [l H]. exists l.
  unfold attempt. destruct (m w) as [r w']. exact H.
Qed.

Lemma only_logs_add_item_tags_loop l tags : only_logs (add_item_tags_loop l tags).
Proof. intros w. rewrite add_item_tags_loop_run. by eexists. Qed.

Lemma only_logs_update_item_tags_loop l tags : only_logs (update_item_tags_loop l tags).
Proof. intros w. rewrite update_item_tags_loop_run. by eexists. Qed.

Ltac only_logs_step :=
  lazymatch goal with
  | |- only_logs (mret _) => apply only_logs_ret
  | |- only_logs (raise _) => apply only_logs_raise
  | |- only_logs (lift _) => apply only_logs_lift
  | |- only_logs (logger _ _ _) => apply only_logs_logger
  | |- only_logs (field _ _) => apply only_logs_field
  | |- only_logs (getitem _ _) => apply only_logs_getitem
  | |- only_logs (add_item_tags_loop _ _) => apply only_logs_add_item_tags_loop
  | |- only_logs (update_item_tags_loop _ _) => apply only_logs_update_item_tags_loop
  | |- only_logs (attempt _) => apply only_logs_attempt
  | |- only_logs (mbind _ _) => apply only_logs_bind; [|intros ?]
  | |- only_logs (if ?b then _ else _) => destruct b
  | |- only_logs (match ?x with _ => _ end) => destruct x
  end.

Ltac only_logs_auto := cbv zeta; repeat only_logs_step.

Lemma only_logs_is_record tz g a : only_logs (is_record tz g a).
Proof. unfold is_record. only_logs_auto. Qed.

Lemma only_logs_add_item_frame cfg tz g a r s : only_logs (add_item_frame cfg tz g a r s).
Proof. unfold add_item_frame. only_logs_auto. Qed.

Lemma only_logs_update_item_frame cfg tz page_id g a r s :
  only_logs (update_item_frame cfg tz page_id g a r s).
Proof. unfold update_item_frame. only_logs_auto. Qed.

Lemma only_logs_validate_loop db items : only_logs (validate_loop db items).
Proof.
  induction items as [|[prop_name prop_type] items IH]; cbn [validate_loop];
    [apply only_logs_ret|].
  only_logs_auto. exact IH.
Qed.

Lemma only_logs_count_loop items : forall info, only_logs (count_loop items info).
Proof.
  induction items as [|entry items IH]; intros info; cbn [count_loop];
    [apply only_logs_ret|].
  only_logs_auto. apply IH.
Qed.

Lemma only_logs_run {A} (m : M A) w r w' :
  only_logs m -> m w = (r, w') ->
  network w' = network w /\ calls w' = calls w /\ slept w' = slept w
  /\ exists l, logged w' = (l ++ logged w)%list.
Proof.
  intros Hm Hrun. destruct (Hm w) as [l Hl]. rewrite Hrun in Hl. cbn in Hl. subst w'.
  repeat split. by exists l.
Qed.

(** ** The requests of create and update *)

Lemma add_item_frame_request cfg tz g a r s w fr w' :
  add_item_frame cfg tz g a r s w = (inr fr, w') ->
  url fr = "https://api.notion.com/v1/pages"
  /\ headers fr = notion_headers cfg
  /\ parent (data fr)
     = Some (PDict [("type", PStr "database_id");
                    ("database_id", Atom (env_val (NOTION_DATABASE_ID cfg)))]).
Proof.
  destruct g as [[i|] [n|] [pf|] rt [ic|]]; unfold add_item_frame; frame_exec.
  all: split_floats; try discriminate.
  all: rewrite add_item_tags_loop_run; intros [= <- <-]; done.
Qed.

Lemma update_item_frame_request cfg tz page_id g a r s w fr w' :
  update_item_frame cfg tz page_id g a r s w = (inr fr, w') ->
  url fr = "https://api.notion.com/v1/pages/" +:+ page_id
  /\ headers fr = notion_headers cfg
  /\ parent (data fr) = None.
Proof.
  destruct g as [[i|] [n|] [pf|] rt [ic|]]; unfold update_item_frame; frame_exec.
  all: split_floats; try discriminate.
  all: rewrite update_item_tags_loop_run; intros [= <- <-]; done.
Qed.

(** Once the payload is built, create returns the parsed body of the first
    answer that is no failure, and [{}] when there is none or it is not
    JSON. *)
Lemma add_item_run cfg tz g a r s w fr w1 :
  add_item_frame cfg tz g a r s w = (inr fr, w1) ->
  exists w',
    add_item_to_notion_database cfg tz g a r s w
    = (inr (body_or (PDict []) (first_success w (page_request "post" fr) 0 20)), w')
    /\ attempts (page_request "post" fr) (attempts_made 20 (first_success w (page_request "post" fr) 0 20)) w w'.
Proof.
  intros Hframe. unfold add_item_to_notion_database.
  cbv [mbind M_bind bind]. rewrite Hframe.
  destruct (add_item_frame_inv _ _ _ _ _ _ _ _ _ Hframe) as (_ & n & Hn & ->).
  rewrite Hn. mrun.
  match goal with
  | |- context [send_request_with_retry ?u ?h ?j ?p ?b ?m ?w0] =>
      destruct (send_request_with_retry_run u h j p b m w0 eq_refl)
        as (res & w2 & k & Hrun & Hatt & _ & Hfs);
      change (request_of u h j p m) with (page_request "post" fr) in Hatt, Hfs;
      rewrite (first_success_ext w w0) in Hfs by reflexivity;
      apply attempts_logged in Hatt
  end.
  rewrite Hrun. change (Z.to_nat MAX_RETRIES) with 20%nat in Hfs.
  destruct (first_success w (page_request "post" fr) 0 20) as [[i rs]|] eqn:Hd.
  - destruct Hfs as (-> & -> & Ht). rewrite Ht. cbn [retry_json body_or].
    unfold response_json. destruct (json_body rs) as [v|]; mrun;
      eexists; (split; [reflexivity | exact Hatt]).
  - destruct Hfs as (-> & ->). cbn [retry_truthy body_or].
    eexists. split; [reflexivity | exact Hatt].
Qed.

Lemma update_item_run cfg tz page_id g a r s w fr w1 :
  update_item_frame cfg tz page_id g a r s w = (inr fr, w1) ->
  exists w',
    update_item_to_notion_database cfg tz page_id g a r s w
    = (inr (body_or (PDict []) (first_success w (page_request "patch" fr) 0 20)), w')
    /\ attempts (page_request "patch" fr) (attempts_made 20 (first_success w (page_request "patch" fr) 0 20)) w w'.
Proof.
  intros Hframe. unfold update_item_to_notion_database.
  cbv [mbind M_bind bind]. rewrite Hframe.
  destruct (update_item_frame_inv _ _ _ _ _ _ _ _ _ _ Hframe) as (_ & n & Hn & ->).
  rewrite Hn. mrun.
  match goal with
  | |- context [send_request_with_retry ?u ?h ?j ?p ?b ?m ?w0] =>
      destruct (send_request_with_retry_run u h j p b m w0 eq_refl)
        as (res & w2 & k & Hrun & Hatt & _ & Hfs);
      change (request_of u h j p m) with (page_request "patch" fr) in Hatt, Hfs;
      rewrite (first_success_ext w w0) in Hfs by reflexivity;
      apply attempts_logged in Hatt
  end.
  rewrite Hrun. change (Z.to_nat MAX_RETRIES) with 20%nat in Hfs.
  destruct (first_success w (page_request "patch" fr) 0 20) as [[i rs]|] eqn:Hd.
  - destruct Hfs as (-> & -> & Ht). rewrite Ht. cbn [retry_json body_or].
    unfold response_json. destruct (json_body rs) as [v|]; mrun;
      eexists; (split; [reflexivity | exact Hatt]).
  - destruct Hfs as (-> & ->). cbn [retry_truthy body_or].
    eexists. split; [reflexivity | exact Hatt].
Qed.

(** ** The owned games *)

Lemma get_owned_game_data_run cfg w :
  exists w',
    get_owned_game_data_from_steam cfg w
    = (inr (body_or (PDict []) (first_success w (owned_games_request cfg) 0 20)), w')
    /\ attempts (owned_games_request cfg) (attempts_made 20 (first_success w (owned_games_request cfg) 0 20)) w w'.
Proof.
  unfold get_owned_game_data_from_steam. mrun.
  match goal with
  | |- context [send_request_with_retry ?u ?h ?j ?p ?b ?m ?w0] =>
      destruct (send_request_with_retry_run u h j p b m w0 eq_refl)
        as (res & w2 & k & Hrun & Hatt & _ & Hfs);
      replace (request_of u h j p m) with (owned_games_request cfg) in Hatt, Hfs
        by (unfold owned_games_request, request_of; cbn [String.eqb Ascii.eqb Bool.eqb];
            destruct (String.eqb (include_played_free_games cfg) "true");
            [reflexivity | by rewrite app_nil_r]);
      rewrite (first_success_ext w w0) in Hfs by reflexivity;
      apply (attempts_logged _ _ _ [_]) in Hatt
  end.
  rewrite Hrun. change (Z.to_nat MAX_RETRIES) with 20%nat in Hfs.
  destruct (first_success w (owned_games_request cfg) 0 20) as [[i rs]|] eqn:Hd.
  - destruct Hfs as (-> & -> & Ht). rewrite Ht. cbn [retry_json body_or].
    unfold response_json. destruct (json_body rs) as [v|]; mrun;
      eexists; (split; [reflexivity | exact Hatt]).
  - destruct Hfs as (-> & ->). cbn [retry_truthy body_or].
    eexists. split; [reflexivity | exact Hatt].
Qed.

(** ** The validator, run *)

Lemma validate_loop_run d props items : forall w,
  dict_get d "properties" = Some (PDict props) ->
  forallb (entry_typed props) (map fst items) = true ->
  validate_loop (PDict d) items w
  = (inr tt, add_logged (rev (omap (schema_warning props) items)) w).
Proof.
  induction items as [|[prop_name prop_type] items IH]; intros w Hp Hall.
  - cbn. by rewrite add_logged_nil.
  - cbn [map fst forallb] in Hall. apply andb_true_iff in Hall as [Hentry Hall].
    cbn [validate_loop py_getitem]. mrun. cbn [py_getitem]. rewrite Hp.
    cbn [py_contains py_getitem omap list_omap]. unfold entry_typed in Hentry.
    unfold schema_warning at 1. cbn [fst snd].
    destruct (dict_get props prop_name) as [[a|l|entry]|] eqn:He; try discriminate.
    + rewrite bool_decide_true by eauto. rewrite ?He.
      apply bool_decide_eq_true in Hentry as [t Ht]. cbn [py_getitem]. rewrite Ht.
      destruct (is_str t prop_type); cbn [negb].
      * apply IH; done.
      * rewrite IH by done. cbn [rev]. unfold add_logged.
        cbn [network calls slept logged]. by rewrite <- app_assoc.
    + rewrite bool_decide_false by (intros [? ?]; discriminate).
      rewrite IH by done. cbn [rev]. unfold add_logged.
      cbn [network calls slept logged]. by rewrite <- app_assoc.
Qed.

Lemma validate_run cfg w :
  exists b l,
    validate_database_structure cfg w = (inr b, called (validate_request cfg) l w)
    /\ match fetched_schema cfg w with
       | None => b = false
       | Some db =>
           forall d props,
             db = PDict d -> dict_get d "properties" = Some (PDict props) ->
             forallb (entry_typed props) (map fst PROPERTY_TYPES_items) = true ->
             b = true
             /\ l = ({| lvl := INFO; msg := "数据库结构验证完成"; args := [] |}
                     :: rev (schema_warnings props))
       end.
Proof.
  unfold validate_database_structure, fetched_schema. mrun.
  unfold requests_call, raise_for_status. fold (validate_request cfg).
  destruct (network w (length (calls w)) (validate_request cfg)) as [r|].
  2: { eexists _, [_]. split; reflexivity. }
  destruct ((400 <=? status_code r) && (status_code r <? 600)).
  { mrun. eexists _, [_]. split; reflexivity. }
  mrun. unfold response_json. destruct (json_body r) as [db|].
  2: { mrun. eexists _, [_]. split; reflexivity. }
  mrun.
  match goal with
  | |- context [validate_loop db PROPERTY_TYPES_items ?w0] =>
      destruct (validate_loop db PROPERTY_TYPES_items w0) as [[e|[]] w1] eqn:Hloop;
      pose proof (only_logs_run _ _ _ _ (only_logs_validate_loop db PROPERTY_TYPES_items) Hloop)
        as (Hn & Hc & Hs & l1 & Hl)
  end.
  - destruct w1 as [n1 c1 s1 l1']. cbn [network calls slept logged] in *. subst.
    eexists false, (_ :: l1). split; [reflexivity|].
    intros d props -> Hp Hall.
    rewrite (validate_loop_run d props _ _ Hp Hall) in Hloop. discriminate.
  - destruct w1 as [n1 c1 s1 l1']. cbn [network calls slept logged] in *. subst.
    eexists true, (_ :: l1). split; [reflexivity|].
    intros d props -> Hp Hall. split; [done|].
    rewrite (validate_loop_run d props _ _ Hp Hall) in Hloop.
    injection Hloop as Hloop.
    apply app_inv_tail in Hloop. subst l1. reflexivity.
Qed.

(** ** The achievements, run *)

Lemma count_loop_returns items : forall info w t c,
  info !! "total" = Some t ->
  info !! "achieved" = Some c ->
  forallb has_achieved items = true ->
  exists info',
    count_loop items info w = (inr info', w)
    /\ info' !! "total" = Some (t + Z.of_nat (length items))
    /\ info' !! "achieved" = Some (c + Z.of_nat (achieved_count items)).
Proof.
  induction items as [|entry items IH]; intros info w t c Ht Hc Hall.
  - exists info. cbn. rewrite !Z.add_0_r. done.
  - cbn [forallb] in Hall. apply andb_true_iff in Hall as [Hent Hall].
    unfold has_achieved in Hent.
    destruct (py_getitem entry "achieved") as [e|v] eqn:Hv; [discriminate|].
    cbn [count_loop]. mrun. rewrite Ht, Hv.
    unfold achieved_count, is_achieved. cbn [List.filter]. rewrite Hv.
    fold is_achieved.
    destruct (truthy v).
    + rewrite lookup_insert_ne by done. rewrite Hc.
      destruct (IH (<["achieved" := c + 1]> (<["total" := t + 1]> info)) w (t + 1) (c + 1))
        as (info' & Hrun & H1 & H2); [| |done|].
      * rewrite lookup_insert_ne by done. by rewrite lookup_insert_eq.
      * by rewrite lookup_insert_eq.
      * exists info'. split; [exact Hrun|]. unfold achieved_count in *.
        cbn [length]. rewrite H1, H2. split; f_equal; lia.
    + destruct (IH (<["total" := t + 1]> info) w (t + 1) c)
        as (info' & Hrun & H1 & H2); [| |done|].
      * by rewrite lookup_insert_eq.
      * rewrite lookup_insert_ne by done. exact Hc.
      * exists info'. split; [exact Hrun|]. unfold achieved_count in *.
        cbn [length]. rewrite H1, H2. split; [f_equal; lia | done].
Qed.

(** X1: when Steam answers with a list of achievements, the count is the
    length of the list and the number of entries whose "achieved" is true,
    after one request and without a retry. *)
Theorem get_achievements_count_counts cfg g i n w rs body items :
  appid g = Some i ->
  name g = Some n ->
  answer w 0 (achievements_request cfg i) = Returns rs ->
  attempt_fails (Returns rs) = false ->
  json_body rs = Some body ->
  listed_achievements body = Some items ->
  forallb has_achieved items = true ->
  exists info,
    get_achievements_count cfg g w
    = (inr info,
       called (achievements_request cfg i)
         [{| lvl := INFO; msg := "{} 成就统计完成!"; args := [LStr n] |};
          {| lvl := INFO; msg := "查询游戏成就数据: {}"; args := [LStr n] |}] w)
    /\ info !! "total" = Some (Z.of_nat (length items))
    /\ info !! "achieved" = Some (Z.of_nat (achieved_count items))
    /\ (achieved_count items <= length items)%nat.
Proof.
  intros Hi Hn Hans Hok Hbody Hlisted Hall.
  unfold get_achievements_count, query_achievements_info_from_steam.
  rewrite Hi, Hn. mrun. unfold requests_call, raise_for_status. cbn [calls network].
  unfold answer in Hans. rewrite Nat.add_0_r in Hans.
  fold (achievements_request cfg i). rewrite Hans.
  cbn [attempt_fails] in Hok. rewrite Hok. mrun.
  unfold response_json. rewrite Hbody. mrun.
  unfold listed_achievements in Hlisted.
  destruct body as [|?|d]; try discriminate.
  destruct (dict_get d "playerstats") as [[|?|ps]|] eqn:Hps; try discriminate.
  cbn [is_None py_get]. rewrite Hps. cbn [from_option id py_get].
  destruct (is_False (default (PBool false) (dict_get ps "success"))) eqn:Hs;
    [discriminate|].
  cbn [slept logged network calls].
  destruct (dict_get ps "achievements") as [[|items'|]|] eqn:Ha; try discriminate.
  injection Hlisted as ->.
  cbn [py_getitem]. rewrite Hps. cbn [py_contains py_getitem]. rewrite Ha.
  rewrite bool_decide_true by eauto. cbn [negb py_iter].
  match goal with
  | |- context [count_loop items ?i0 ?w0] =>
      destruct (count_loop_returns items i0 w0 0 0) as (info & Hrun & H1 & H2);
        [done | done | exact Hall |]
  end.
  rewrite Hrun. exists info. split; [reflexivity|].
  rewrite H1, H2. split; [f_equal; lia|]. split; [f_equal; lia|].
  apply achieved_count_le.
Qed.

Lemma get_achievements_count_counts_witness :
  exists info,
    get_achievements_count Examples.cfg Examples.half_life (always one_of_two)
    = (inr info,
       called (achievements_request Examples.cfg 10)
         [{| lvl := INFO; msg := "{} 成就统计完成!"; args := [LStr "Half-Life"] |};
          {| lvl := INFO; msg := "查询游戏成就数据: {}"; args := [LStr "Half-Life"] |}]
         (always one_of_two))
    /\ info !! "total" = Some 2
    /\ info !! "achieved" = Some 1.
Proof.
  destruct (get_achievements_count_counts Examples.cfg Examples.half_life 10 "Half-Life"
              (always one_of_two) (ok_response one_of_two) one_of_two
              [PDict [("apiname", PStr "FIRST"); ("achieved", PInt 1)];
               PDict [("apiname", PStr "SECOND"); ("achieved", PInt 0)]])
    as (info & Hrun & Ht & Ha & _); try reflexivity.
  exists info. split; [exact Hrun|]. split; [exact Ht | exact Ha].
Defined.

(** X2: an answer with an error status, with a body that is not JSON or
    with a body that reports no achievements gives the sentinel, after one
    request and without a retry. *)
Theorem get_achievements_count_sentinel cfg g i n w rs :
  appid g = Some i ->
  name g = Some n ->
  answer w 0 (achievements_request cfg i) = Returns rs ->
  attempt_fails (Returns rs) = true
  \/ json_body rs = None
  \/ (exists body, json_body rs = Some body /\ reports_no_achievements body = true) ->
  exists l,
    get_achievements_count cfg g w
    = (inr sentinel, called (achievements_request cfg i) l w)
    /\ sentinel !! "total" = Some (-1) /\ sentinel !! "achieved" = Some (-1).
Proof.
  intros Hi Hn Hans Hcases.
  unfold get_achievements_count, query_achievements_info_from_steam.
  rewrite Hi, Hn. mrun. unfold requests_call, raise_for_status. cbn [calls network].
  unfold answer in Hans. rewrite Nat.add_0_r in Hans.
  fold (achievements_request cfg i). rewrite Hans.
  cbn [attempt_fails] in Hcases.
  destruct ((400 <=? status_code rs) && (status_code rs <? 600)) eqn:Herr.
  { mrun. cbn [is_RequestException]. eexists [_; _; _]. split; [reflexivity|].
    split; reflexivity. }
  mrun. unfold response_json.
  destruct (json_body rs) as [body|] eqn:Hbody.
  2: { mrun. cbn [is_RequestException]. eexists [_; _; _]. split; [reflexivity|].
       split; reflexivity. }
  destruct Hcases as [?|[?|(body' & [= <-] & Hno)]]; try discriminate.
  mrun. unfold reports_no_achievements in Hno.
  destruct body as [|?|d]; try discriminate.
  cbn [is_None py_get].
  destruct (dict_get d "playerstats") as [[|?|ps]|] eqn:Hps; try discriminate.
  - cbn [from_option id py_get].
    destruct (is_False (default (PBool false) (dict_get ps "success"))) eqn:Hs.
    + eexists [_; _]. split; [reflexivity|]. split; reflexivity.
    + cbn [orb] in Hno. apply negb_true_iff, bool_decide_eq_false in Hno.
      cbn [py_getitem]. rewrite Hps. cbn [py_contains].
      rewrite bool_decide_false by exact Hno. cbn [negb].
      eexists [_; _]. split; [reflexivity|]. split; reflexivity.
  - cbn [from_option id py_get dict_get is_False].
    eexists [_; _]. split; [reflexivity|]. split; reflexivity.
Qed.

Lemma get_achievements_count_sentinel_witness :
  exists l,
    get_achievements_count Examples.cfg Examples.half_life (Examples.answering forbidden)
    = (inr sentinel,
       called (achievements_request Examples.cfg 10) l (Examples.answering forbidden))
    /\ sentinel !! "total" = Some (-1) /\ sentinel !! "achieved" = Some (-1).
Proof.
  apply (get_achievements_count_sentinel Examples.cfg Examples.half_life 10 "Half-Life"
           (Examples.answering forbidden) forbidden).
  - reflexivity.
  - reflexivity.
  - reflexivity.
  - left. reflexivity.
Defined.

(** When [requests.get] raises, the handler reads [response] before it has
    a value. *)
Lemma get_achievements_count_raises cfg g i n w :
  appid g = Some i ->
  name g = Some n ->
  answer w 0 (achievements_request cfg i) = Raises ->
  get_achievements_count cfg g w
  = (inl (UnboundLocalError "response"),
     called (achievements_request cfg i)
       [{| lvl := INFO; msg := "查询游戏成就数据: {}"; args := [LStr n] |}] w).
Proof.
  intros Hi Hn Hans. unfold get_achievements_count, query_achievements_info_from_steam.
  rewrite Hi, Hn. mrun. unfold requests_call. cbn [calls network].
  unfold answer in Hans. rewrite Nat.add_0_r in Hans.
  fold (achievements_request cfg i). rewrite Hans. reflexivity.
Qed.

(** ** The retrying client on any network *)

(** X3: with one of the three methods, the client never raises: it returns
    the first answer that is no failure among the first [retries] answers,
    or the empty mapping when there is none; it makes one attempt per answer
    it looks at, each with the same request, sleeps only between attempts
    and logs one error for each failed attempt and one more when it gives
    up. *)
Theorem send_request_with_retry_first_success url headers json params retries method w :
  supported method = true ->
  let rq := request_of url headers json params method in
  exists res w' n,
    send_request_with_retry url headers json params retries method w = (inr res, w')
    /\ attempts rq n w w'
    /\ (exists l, logged w' = (l ++ logged w)%list /\ Forall (fun r => lvl r = ERROR) l
                  /\ length l = error_lines res n)
    /\ match first_success w rq 0 (Z.to_nat retries) with
       | Some (k, r) => res = Resp r /\ n = S k /\ retry_truthy (Resp r) = true
       | None => res = EmptyMapping /\ n = Z.to_nat retries
       end.
Proof. exact (send_request_with_retry_run url headers json params retries method w). Qed.

Lemma send_request_with_retry_first_success_witness :
  exists w',
    send_request_with_retry "https://api.notion.com/v1/pages" [] NoBody [] 20 "post"
      (flaky 2 (ok_response (PDict [])))
    = (inr (Resp (ok_response (PDict []))), w')
    /\ length (calls w') = 3%nat
    /\ slept w' = [2; 2].
Proof.
  destruct (send_request_with_retry_first_success
              "https://api.notion.com/v1/pages" [] NoBody [] 20 "post"
              (flaky 2 (ok_response (PDict []))) eq_refl)
    as (res & w' & n & Hrun & (_ & Hc & Hs) & _ & Hfs).
  vm_compute in Hfs. destruct Hfs as (-> & -> & _).
  exists w'. split; [exact Hrun|]. rewrite Hc, Hs. split; reflexivity.
Defined.

(** X4: without a budget the client returns the empty mapping at once; with
    a method other than patch, post and get it sends nothing, and reading
    the status of the response that was never assigned raises. *)
Theorem send_request_with_retry_edge_cases url headers json params retries method w :
  (retries <= 0 ->
   send_request_with_retry url headers json params retries method w
   = (inr EmptyMapping, w))
  /\ (0 < retries -> supported method = false ->
      send_request_with_retry url headers json params retries method w
      = (inl AttributeError, w)).
Proof.
  split.
  - apply send_request_with_retry_no_budget.
  - apply send_request_with_retry_unsupported.
Qed.

(** ** What the callers of the client return *)

(** X5: for a game with a name the query never raises; it posts the
    title filter to the query endpoint of the database, between 1 and 20
    times, and returns the parsed body of the first answer that is no
    failure, or [{"results": []}] when there is none or its body is not
    JSON. *)
Theorem query_returns_body_or_no_results cfg g n w :
  name g = Some n ->
  exists w',
    query_item_from_notion_database cfg g w
    = (inr (body_or no_results (first_success w (query_request cfg n) 0 20)), w')
    /\ attempts (query_request cfg n)
         (attempts_made 20 (first_success w (query_request cfg n) 0 20)) w w'
    /\ (1 <= attempts_made 20 (first_success w (query_request cfg n) 0 20) <= 20)%nat.
Proof.
  intros Hn. destruct (query_item_run cfg g n w Hn) as (w' & Hrun & Hatt).
  unfold queried in Hrun. unfold after_query in Hatt.
  exists w'. split; [exact Hrun|]. split; [exact Hatt|].
  apply attempts_made_bound. lia.
Qed.

Lemma query_returns_body_or_no_results_witness :
  fst (query_item_from_notion_database Examples.cfg Examples.half_life
         (flaky 2 (ok_response (PDict [("results", PList [PDict [("id", PStr "page")]])]))))
  = inr (PDict [("results", PList [PDict [("id", PStr "page")]])]).
Proof.
  destruct (query_returns_body_or_no_results Examples.cfg Examples.half_life "Half-Life"
              (flaky 2 (ok_response (PDict [("results", PList [PDict [("id", PStr "page")]])])))
              eq_refl)
    as (w' & Hrun & _).
  rewrite Hrun. reflexivity.
Defined.

(** X6: once the payload is built, create never raises: it posts the page,
    with the database as its parent, to the pages endpoint, between 1 and 20
    times, and returns the parsed body of the first answer that is no
    failure, or [{}]. *)
Theorem add_item_returns_body_or_empty cfg tz g a r s w fr w1 :
  add_item_frame cfg tz g a r s w = (inr fr, w1) ->
  exists w',
    add_item_to_notion_database cfg tz g a r s w
    = (inr (body_or (PDict []) (first_success w (page_request "post" fr) 0 20)), w')
    /\ attempts (page_request "post" fr) (attempts_made 20 (first_success w (page_request "post" fr) 0 20)) w w'
    /\ (1 <= attempts_made 20 (first_success w (page_request "post" fr) 0 20) <= 20)%nat
    /\ url fr = "https://api.notion.com/v1/pages"
    /\ headers fr = notion_headers cfg
    /\ parent (data fr)
       = Some (PDict [("type", PStr "database_id");
                      ("database_id", Atom (env_val (NOTION_DATABASE_ID cfg)))]).
Proof.
  intros Hframe.
  destruct (add_item_run _ _ _ _ _ _ _ _ _ Hframe) as (w' & Hrun & Hatt).
  exists w'. split; [exact Hrun|]. split; [exact Hatt|].
  split; [apply attempts_made_bound; lia|].
  exact (add_item_frame_request _ _ _ _ _ _ _ _ _ Hframe).
Qed.

(** X7: once the payload is built, update never raises: it patches the
    page of the given identifier, without a parent, between 1 and 20 times,
    and returns the parsed body of the first answer that is no failure, or
    [{}]. *)
Theorem update_item_returns_body_or_empty cfg tz page_id g a r s w fr w1 :
  update_item_frame cfg tz page_id g a r s w = (inr fr, w1) ->
  exists w',
    update_item_to_notion_database cfg tz page_id g a r s w
    = (inr (body_or (PDict []) (first_success w (page_request "patch" fr) 0 20)), w')
    /\ attempts (page_request "patch" fr) (attempts_made 20 (first_success w (page_request "patch" fr) 0 20)) w w'
    /\ (1 <= attempts_made 20 (first_success w (page_request "patch" fr) 0 20) <= 20)%nat
    /\ url fr = "https://api.notion.com/v1/pages/" +:+ page_id
    /\ headers fr = notion_headers cfg
    /\ parent (data fr) = None.
Proof.
  intros Hframe.
  destruct (update_item_run _ _ _ _ _ _ _ _ _ _ Hframe) as (w' & Hrun & Hatt).
  exists w'. split; [exact Hrun|]. split; [exact Hatt|].
  split; [apply attempts_made_bound; lia|].
  exact (update_item_frame_request _ _ _ _ _ _ _ _ _ _ Hframe).
Qed.

(** X8: the fetch of the owned games never raises: it sends the GET
    between 1 and 20 times and returns the parsed body of the first answer
    that is no failure, or [{}]; the request asks for the free games exactly
    when the configuration says "true". *)
Theorem get_owned_game_data_returns_body_or_empty cfg w :
  exists w',
    get_owned_game_data_from_steam cfg w
    = (inr (body_or (PDict []) (first_success w (owned_games_request cfg) 0 20)), w')
    /\ attempts (owned_games_request cfg) (attempts_made 20 (first_success w (owned_games_request cfg) 0 20)) w w'
    /\ (1 <= attempts_made 20 (first_success w (owned_games_request cfg) 0 20) <= 20)%nat
    /\ (In ("include_played_free_games", ABool true) (req_params (owned_games_request cfg))
        <-> include_played_free_games cfg = "true").
Proof.
  destruct (get_owned_game_data_run cfg w) as (w' & Hrun & Hatt).
  exists w'. split; [exact Hrun|]. split; [exact Hatt|].
  split; [apply attempts_made_bound; lia|].
  unfold owned_games_request. cbn [req_params].
  destruct (String.eqb_spec (include_played_free_games cfg) "true") as [->|Hne].
  - split; [done|]. intros _. cbn. tauto.
  - split; [|done]. cbn. intros H.
    repeat (destruct H as [H|H]; [discriminate|]). destruct H.
Qed.

Lemma add_item_returns_body_or_empty_witness :
  fst (add_item_to_notion_database Examples.cfg UTC Examples.half_life
         Examples.ten_of_twenty "Good." Examples.store
         (Examples.answering (ok_response (PDict [("id", PStr "page")]))))
  = inr (PDict [("id", PStr "page")]).
Proof.
  destruct (add_item_frame Examples.cfg UTC Examples.half_life Examples.ten_of_twenty
              "Good." Examples.store
              (Examples.answering (ok_response (PDict [("id", PStr "page")]))))
    as [[e|fr] w1] eqn:Hframe.
  - vm_compute in Hframe. discriminate.
  - destruct (add_item_returns_body_or_empty _ _ _ _ _ _ _ _ _ Hframe)
      as (w' & Hrun & _).
    rewrite Hrun. reflexivity.
Defined.

Lemma update_item_returns_body_or_empty_witness :
  fst (update_item_to_notion_database Examples.cfg UTC "page" Examples.half_life
         Examples.ten_of_twenty "Good." Examples.store Examples.offline)
  = inr (PDict []).
Proof.
  destruct (update_item_frame Examples.cfg UTC "page" Examples.half_life
              Examples.ten_of_twenty "Good." Examples.store Examples.offline)
    as [[e|fr] w1] eqn:Hframe.
  - vm_compute in Hframe. discriminate.
  - destruct (update_item_returns_body_or_empty _ _ _ _ _ _ _ _ _ _ Hframe)
      as (w' & Hrun & _).
    rewrite Hrun. reflexivity.
Defined.

(** ** The warnings of the validator *)

Lemma schema_matches_no_warning props kv :
  match dict_get props (fst kv) with
  | Some (PDict entry) =>
      match dict_get entry "type" with
      | Some t => is_str t (snd kv)
      | None => false
      end
  | _ => false
  end = true ->
  schema_warning props kv = None /\ entry_typed props (fst kv) = true.
Proof.
  unfold schema_warning, entry_typed.
  destruct (dict_get props (fst kv)) as [[|?|entry]|]; try discriminate.
  cbn [py_getitem]. destruct (dict_get entry "type") as [t|]; [|discriminate].
  intros ->. split; [done|]. by apply bool_decide_eq_true.
Qed.

Lemma schema_matches_no_warnings props items :
  forallb (fun kv =>
             match dict_get props (fst kv) with
             | Some (PDict entry) =>
                 match dict_get entry "type" with
                 | Some t => is_str t (snd kv)
                 | None => false
                 end
             | _ => false
             end) items = true ->
  omap (schema_warning props) items = []
  /\ forallb (entry_typed props) (map fst items) = true.
Proof.
  induction items as [|kv items IH]; [done|].
  cbn [forallb]. intros [Hkv Hall]%andb_true_iff.
  destruct (schema_matches_no_warning props kv Hkv) as [Hw Ht].
  destruct (IH Hall) as [IH1 IH2].
  cbn [omap list_omap map forallb]. fold (omap (schema_warning props) items).
  rewrite Hw, Ht, IH2. split; [exact IH1 | done].
Qed.

(** X9: the validator sends one request, without a retry, and never
    raises.  When the fetch or the parse fails it returns false.  On a body
    with the shape of a database object it returns true after logging one
    warning for each expected property that is missing or has another type,
    in the order of [PROPERTY_TYPES]; a schema that matches gives no
    warning. *)
Theorem validate_database_structure_warnings cfg w :
  exists b l,
    validate_database_structure cfg w = (inr b, called (validate_request cfg) l w)
    /\ (fetched_schema cfg w = None -> b = false)
    /\ (forall d props,
          fetched_schema cfg w = Some (PDict d) ->
          dict_get d "properties" = Some (PDict props) ->
          forallb (entry_typed props) (map fst PROPERTY_TYPES_items) = true ->
          b = true /\ l = validation_done :: rev (schema_warnings props))
    /\ (forall d,
          fetched_schema cfg w = Some (PDict d) ->
          schema_matches (PDict d) = true ->
          b = true /\ l = [validation_done]).
Proof.
  destruct (validate_run cfg w) as (b & l & Hrun & Hcases).
  exists b, l. split; [exact Hrun|].
  destruct (fetched_schema cfg w) as [db|].
  - split; [discriminate|]. split.
    + intros d props [= ->] Hp Hall. by apply (Hcases d props).
    + intros d [= ->] Hm. unfold schema_matches in Hm.
      destruct (dict_get d "properties") as [[|?|props]|] eqn:Hp; try discriminate.
      destruct (schema_matches_no_warnings props _ Hm) as [Hw Ht].
      destruct (Hcases d props eq_refl Hp Ht) as [-> ->].
      unfold schema_warnings. rewrite Hw. done.
  - split; [done|]. split; intros; discriminate.
Qed.

(** A schema whose tags column is a checkbox passes with one warning. *)
Lemma validate_tags_as_checkbox :
  validate_database_structure Examples.cfg (Examples.answering (ok_response tags_as_checkbox))
  = (inr true,
     called (validate_request Examples.cfg)
       [validation_done;
        {| lvl := WARNING; msg := "属性 '{}' 类型不匹配: 数据库是 {}, 代码期望 {}";
           args := [LStr "游戏标签"; LVal (PStr "checkbox"); LStr "multi_select"] |}]
       (Examples.answering (ok_response tags_as_checkbox))).
Proof. reflexivity. Qed.

(** ** The effects of the filter and of the payload derivation *)

(** X10: on a game with a name and a playtime, the filter returns the
    negation of the exclusion rule; it logs one line when it excludes the
    game and nothing when it keeps it; a game with at least one achievement
    is always kept. *)
Theorem is_record_effects tz g a n minutes t w :
  name g = Some n ->
  playtime_forever g = Some (Int minutes) ->
  Float.is_finite (Float.of_Z minutes) = true ->
  a !! "total" = Some t ->
  let out := excluded (hours_of minutes) (default 0 (rtime_last_played g)) t (cutoff tz) in
  is_record tz g a w
  = (inr (negb out),
     if out then add_logged [{| lvl := INFO; msg := "{} 不符合过滤规则!"; args := [LStr n] |}] w
     else w)
  /\ (1 <= t -> out = false).
Proof.
  intros Hn Hp Hfin Ht out. split.
  - exact (is_record_run_world tz g a n (Int minutes) (Float.of_Z minutes) t w Hn Hp
             (py_float_number_Int minutes Hfin) Ht).
  - intros H1. unfold out, excluded.
    replace (t <? 1) with false by (symmetry; apply Z.ltb_ge; lia).
    by rewrite !andb_false_r.
Qed.

Lemma is_record_effects_witness :
  is_record UTC six_minutes_long_ago no_achievements Examples.offline
  = (inr false,
     add_logged [{| lvl := INFO; msg := "{} 不符合过滤规则!"; args := [LStr "Half-Life"] |}]
       Examples.offline).
Proof.
  destruct (is_record_effects UTC six_minutes_long_ago no_achievements "Half-Life" 6 0
              Examples.offline eq_refl eq_refl eq_refl eq_refl) as [Hrun _].
  exact Hrun.
Defined.

(** X11: the filter and the payload derivation of create and update never
    call the network and never sleep, whatever their input and whether they
    return or raise: all they do to the world is to log. *)
Theorem derivations_only_log cfg tz page_id g a r s :
  only_logs (is_record tz g a)
  /\ only_logs (add_item_frame cfg tz g a r s)
  /\ only_logs (update_item_frame cfg tz page_id g a r s).
Proof.
  split; [apply only_logs_is_record|].
  split; [apply only_logs_add_item_frame | apply only_logs_update_item_frame].
Qed.

(** ** The payload and the static type table *)

(** X12: the payload that create or update derives has exactly the
    columns of [PROPERTY_TYPES], and every property in it carries the type
    that the table gives to its column. *)
Theorem payload_matches_property_types cfg tz page_id g a r s w fr w' :
  add_item_frame cfg tz g a r s w = (inr fr, w')
  \/ update_item_frame cfg tz page_id g a r s w = (inr fr, w') ->
  dom (properties (data fr)) = dom PROPERTY_TYPES
  /\ map_Forall (fun k v => exists t, PROPERTY_TYPES !! k = Some t
                                      /\ py_getitem v "type" = inr (PStr t))
       (properties (data fr)).
Proof.
  assert (Hmap : forall v1 v2 v3 v4 v5 v6 v7 v8 v9 v10 : pyval,
    let m : gmap string pyval :=
      <["游戏标签" := PDict [("type", PStr "multi_select"); ("multi_select", v10)]]>
        (<["完成度" := PDict [("type", PStr "multi_select"); ("multi_select", v9)]]>
           (dict_of [
              ("游戏名称", PDict [("type", PStr "title"); ("title", v1)]);
              ("游玩时长 (h)", PDict [("type", PStr "number"); ("number", v2)]);
              ("上次游玩时间", PDict [("type", PStr "date"); ("date", v3)]);
              ("商店链接", PDict [("type", PStr "url"); ("url", v4)]);
              ("总成就数", PDict [("type", PStr "number"); ("number", v5)]);
              ("已完成成就数", PDict [("type", PStr "number"); ("number", v6)]);
              ("评测", PDict [("type", PStr "rich_text"); ("rich_text", v7)]);
              ("游戏简介", PDict [("type", PStr "rich_text"); ("rich_text", v8)])])) in
    dom m = dom PROPERTY_TYPES
    /\ map_Forall (fun k v => exists t, PROPERTY_TYPES !! k = Some t
                                        /\ py_getitem v "type" = inr (PStr t)) m).
  { intros. subst m. split.
    - unfold PROPERTY_TYPES, PROPERTY_TYPES_items, dict_of. cbn [fold_left fst snd].
      rewrite !dom_insert_L, !dom_empty_L. set_solver.
    - unfold dict_of. cbn [fold_left fst snd].
      repeat (apply map_Forall_insert_2;
              [eexists; split; [vm_compute; reflexivity | reflexivity]|]).
      apply map_Forall_empty. }
  intros [Hrun|Hrun]; revert Hrun.
  - destruct g as [[i|] [n|] [pf|] rt [ic|]]; unfold add_item_frame; frame_exec.
    all: split_floats; try discriminate.
    all: rewrite add_item_tags_loop_run; intros [= <- <-]; cbn [properties data];
      apply Hmap.
  - destruct g as [[i|] [n|] [pf|] rt [ic|]]; unfold update_item_frame; frame_exec.
    all: split_floats; try discriminate.
    all: rewrite update_item_tags_loop_run; intros [= <- <-]; cbn [properties data];
      apply Hmap.
Qed.

Lemma payload_matches_property_types_witness :
  exists fr w',
    add_item_frame Examples.cfg UTC Examples.half_life Examples.ten_of_twenty "Good."
      Examples.store Examples.offline = (inr fr, w')
    /\ dom (properties (data fr)) = dom PROPERTY_TYPES.
Proof.
  destruct (add_item_frame Examples.cfg UTC Examples.half_life Examples.ten_of_twenty
              "Good." Examples.store Examples.offline) as [[e|fr] w'] eqn:Hframe.
  - vm_compute in Hframe. discriminate.
  - exists fr, w'. split; [reflexivity|].
    apply (payload_matches_property_types Examples.cfg UTC "page" Examples.half_life
             Examples.ten_of_twenty "Good." Examples.store Examples.offline fr w'
             (or_introl Hframe)).
Defined.



(** ** The reconciliation of one game *)

Lemma py_getitem_contains v k x : py_getitem v k = inr x -> py_contains v k = inr true.
Proof.
  destruct v as [|?|d]; try discriminate. cbn.
  destruct (dict_get d k) eqn:Hd; [|discriminate]. intros _.
  by rewrite bool_decide_true by eauto.
Qed.

(** The filter and the query of [reconcile], run. *)
Lemma reconcile_query cfg tz g a r s n w :
  name g = Some n ->
  filter_passes cfg tz g a w ->
  exists w1,
    query_item_from_notion_database cfg g w = (inr (queried cfg n w), w1)
    /\ after_query cfg n w w1
    /\ reconcile cfg tz g a r s w
       = (let queryed_item := queried cfg n w in
          has ← lift (py_contains queryed_item "results");
          if negb has then
            logger ERROR "{} 查询失败! 跳过" [LStr n];;
            mret (Some tt)
          else
            results ← lift (py_getitem queryed_item "results");
            if truthy results then
              if String.eqb (enable_item_update cfg) "true" then
                logger INFO "{} 已存在! 更新中..." [LStr n];;
                match first_item results with
                | None => mret None
                | Some first =>
                    first ← lift first;
                    id ← lift (py_getitem first "id");
                    match as_page_id id with
                    | None => mret None
                    | Some page_id =>
                        update_item_to_notion_database cfg tz page_id g a r s;;
                        mret (Some tt)
                    end
                end
              else
                logger INFO "{} 已存在! 跳过" [LStr n];;
                mret (Some tt)
            else
              logger INFO "{} 不存在! 创建新条目" [LStr n];;
              add_item_to_notion_database cfg tz g a r s;;
              mret (Some tt)) w1.
Proof.
  intros Hn Hfilter.
  destruct (query_item_run cfg g n w Hn) as (w1 & Hq & Hatt).
  exists w1. split; [exact Hq|]. split; [exact Hatt|].
  unfold reconcile, filter_passes in *.
  destruct (String.eqb_spec (enable_filter cfg) "true") as [Hf|Hf].
  - specialize (Hfilter Hf). mrun. rewrite Hfilter. cbn [negb]. rewrite Hq, Hn.
    destruct (py_contains (queried cfg n w) "results") as [e|[|]]; cbn [negb]; try reflexivity.
    destruct (py_getitem (queried cfg n w) "results") as [e|results]; [reflexivity|].
    destruct (truthy results); [|reflexivity].
    destruct (String.eqb (enable_item_update cfg) "true"); [|reflexivity].
    destruct (py_getitem (queried cfg n w) "results") as [e|results']; reflexivity.
  - mrun. rewrite Hq, Hn.
    destruct (py_contains (queried cfg n w) "results") as [e|[|]]; cbn [negb]; try reflexivity.
    destruct (py_getitem (queried cfg n w) "results") as [e|results]; [reflexivity|].
    destruct (truthy results); [|reflexivity].
    destruct (String.eqb (enable_item_update cfg) "true"); [|reflexivity].
    destruct (py_getitem (queried cfg n w) "results") as [e|results']; reflexivity.
Qed.

(** X14: when the query finds no page, the game is created: after the
    requests of the query, [reconcile] logs the decision and runs the create
    operation on the same game, achievements, review and store data; it
    sends no update.  A query that failed returns [{"results": []}] and
    leads here too. *)
Theorem reconcile_creates cfg tz g a r s n w results :
  name g = Some n ->
  filter_passes cfg tz g a w ->
  py_getitem (queried cfg n w) "results" = inr results ->
  truthy results = false ->
  exists w1,
    after_query cfg n w w1
    /\ reconcile cfg tz g a r s w
       = (add_item_to_notion_database cfg tz g a r s;; mret (Some tt))
           (add_logged [{| lvl := INFO; msg := "{} 不存在! 创建新条目"; args := [LStr n] |}] w1).
Proof.
  intros Hn Hfilter Hres Hfalse.
  destruct (reconcile_query cfg tz g a r s n w Hn Hfilter) as (w1 & _ & Hatt & ->).
  exists w1. split; [exact Hatt|].
  cbv zeta. mrun. rewrite (py_getitem_contains _ _ _ Hres), Hres. cbn [negb].
  rewrite Hfalse. reflexivity.
Qed.

Lemma reconcile_creates_witness :
  exists w1,
    after_query Examples.cfg "Half-Life" Examples.offline w1
    /\ reconcile Examples.cfg UTC Examples.half_life Examples.ten_of_twenty "Good."
         Examples.store Examples.offline
       = (add_item_to_notion_database Examples.cfg UTC Examples.half_life
            Examples.ten_of_twenty "Good." Examples.store;; mret (Some tt))
           (add_logged [{| lvl := INFO; msg := "{} 不存在! 创建新条目";
                           args := [LStr "Half-Life"] |}] w1).
Proof.
  apply (reconcile_creates Examples.cfg UTC Examples.half_life Examples.ten_of_twenty
           "Good." Examples.store "Half-Life" Examples.offline (PList [])).
  - reflexivity.
  - intros H. discriminate H.
  - reflexivity.
  - reflexivity.
Defined.

(** X15: when the query finds pages and updates are enabled, the first
    page is updated: after the requests of the query, [reconcile] logs the
    decision and runs the update operation on the identifier of the first
    result; it creates nothing. *)
Theorem reconcile_updates cfg tz g a r s n w first rest page :
  name g = Some n ->
  filter_passes cfg tz g a w ->
  py_getitem (queried cfg n w) "results" = inr (PList (first :: rest)) ->
  enable_item_update cfg = "true" ->
  py_getitem first "id" = inr (Atom page) ->
  exists w1,
    after_query cfg n w w1
    /\ reconcile cfg tz g a r s w
       = (update_item_to_notion_database cfg tz (str_atom page) g a r s;; mret (Some tt))
           (add_logged [{| lvl := INFO; msg := "{} 已存在! 更新中..."; args := [LStr n] |}] w1).
Proof.
  intros Hn Hfilter Hres Hupd Hid.
  destruct (reconcile_query cfg tz g a r s n w Hn Hfilter) as (w1 & _ & Hatt & ->).
  exists w1. split; [exact Hatt|].
  cbv zeta. mrun. rewrite (py_getitem_contains _ _ _ Hres), Hres. cbn [negb truthy].
  rewrite Hupd. cbn [String.eqb Ascii.eqb Bool.eqb first_item]. rewrite Hid.
  reflexivity.
Qed.

Lemma reconcile_updates_witness :
  exists w1,
    after_query Examples.cfg "Half-Life" (always one_page) w1
    /\ reconcile Examples.cfg UTC Examples.half_life Examples.ten_of_twenty "Good."
         Examples.store (always one_page)
       = (update_item_to_notion_database Examples.cfg UTC "page" Examples.half_life
            Examples.ten_of_twenty "Good." Examples.store;; mret (Some tt))
           (add_logged [{| lvl := INFO; msg := "{} 已存在! 更新中...";
                           args := [LStr "Half-Life"] |}] w1).
Proof.
  apply (reconcile_updates Examples.cfg UTC Examples.half_life Examples.ten_of_twenty
           "Good." Examples.store "Half-Life" (always one_page)
           (PDict [("id", PStr "page")]) [] (AStr "page")).
  - reflexivity.
  - intros H. discriminate H.
  - reflexivity.
  - reflexivity.
  - reflexivity.
Defined.

(** X16: when the answer to the query has no "results", or when it lists
    pages and updates are disabled, [reconcile] sends nothing after the
    query: it logs one line and goes on to the next game. *)
Theorem reconcile_leaves cfg tz g a r s n w :
  name g = Some n ->
  filter_passes cfg tz g a w ->
  py_contains (queried cfg n w) "results" = inr false
  \/ (exists results,
        py_getitem (queried cfg n w) "results" = inr results
        /\ truthy results = true
        /\ enable_item_update cfg <> "true") ->
  exists w1 line,
    after_query cfg n w w1
    /\ reconcile cfg tz g a r s w = (inr (Some tt), add_logged [line] w1).
Proof.
  intros Hn Hfilter Hcases.
  destruct (reconcile_query cfg tz g a r s n w Hn Hfilter) as (w1 & _ & Hatt & ->).
  exists w1. cbv zeta. mrun.
  destruct Hcases as [Hno | (results & Hres & Htrue & Hupd)].
  - rewrite Hno. cbn [negb]. eexists. split; [exact Hatt | reflexivity].
  - rewrite (py_getitem_contains _ _ _ Hres), Hres. cbn [negb]. rewrite Htrue.
    apply String.eqb_neq in Hupd. rewrite Hupd.
    eexists. split; [exact Hatt | reflexivity].
Qed.

Lemma reconcile_leaves_witness :
  exists w1 line,
    after_query Examples.cfg "Half-Life" (always (PDict [("object", PStr "error")])) w1
    /\ reconcile Examples.cfg UTC Examples.half_life Examples.ten_of_twenty "Good."
         Examples.store (always (PDict [("object", PStr "error")]))
       = (inr (Some tt), add_logged [line] w1).
Proof.
  apply (reconcile_leaves Examples.cfg UTC Examples.half_life Examples.ten_of_twenty
           "Good." Examples.store "Half-Life" (always (PDict [("object", PStr "error")]))).
  - reflexivity.
  - intros H. discriminate H.
  - left. reflexivity.
Defined.








(** ** The driver *)

(** X19: when the request for the achievements of a game raises a
    transport error, the loop over the games stops with the
    [UnboundLocalError] of the handler, after that one request: the games
    after it are not processed, and the collaborators are not called. *)
Theorem main_loop_stops_at_transport_failure cfg tz review store v rest g i n w :
  as_game v = Some g ->
  appid g = Some i ->
  name g = Some n ->
  answer w 0 (achievements_request cfg i) = Raises ->
  main_loop cfg tz review store (v :: rest) w
  = (inl (UnboundLocalError "response"),
     called (achievements_request cfg i)
       [{| lvl := INFO; msg := "查询游戏成就数据: {}"; args := [LStr n] |}] w).
Proof.
  intros Hg Hi Hn Hans. cbn [main_loop]. rewrite Hg. unfold process_game.
  cbv [mbind M_bind bind]. rewrite (get_achievements_count_raises cfg g i n w Hi Hn Hans).
  reflexivity.
Qed.

Lemma main_loop_stops_at_transport_failure_witness :
  main_loop Examples.cfg UTC (review_of "Good.") (store_of Examples.store)
    [half_life_json; half_life_json] Examples.offline
  = (inl (UnboundLocalError "response"),
     called (achievements_request Examples.cfg 10)
       [{| lvl := INFO; msg := "查询游戏成就数据: {}"; args := [LStr "Half-Life"] |}]
       Examples.offline).
Proof.
  apply (main_loop_stops_at_transport_failure Examples.cfg UTC (review_of "Good.")
           (store_of Examples.store) half_life_json [half_life_json] Examples.half_life
           10 "Half-Life" Examples.offline); reflexivity.
Defined.

(** X20: without the key of Steam or the key of Notion, [main] raises a
    [TypeError] while it logs its configuration, before any request. *)
Theorem main_needs_keys cfg tz review store w :
  STEAM_API_KEY cfg = None \/ NOTION_API_KEY cfg = None ->
  exists l, main cfg tz review store w = (inl TypeError, add_logged l w).
Proof.
  intros Hkeys. unfold main, key_prefix.
  destruct (STEAM_API_KEY cfg) as [k1|].
  - destruct Hkeys as [?|Hk2]; [discriminate|]. rewrite Hk2.
    eexists [_; _; _]. reflexivity.
  - eexists [_]. reflexivity.
Qed.

Lemma main_needs_keys_witness :
  exists l,
    main no_steam_key UTC (review_of "Good.") (store_of Examples.store) Examples.offline
    = (inl TypeError, add_logged l Examples.offline).
Proof.
  apply (main_needs_keys no_steam_key UTC (review_of "Good.") (store_of Examples.store)
           Examples.offline).
  left. reflexivity.
Defined.

(** [main] up to the validation. *)
Lemma main_validates cfg tz review store k1 k2 w :
  STEAM_API_KEY cfg = Some k1 ->
  NOTION_API_KEY cfg = Some k2 ->
  exists b l,
    validate_database_structure cfg (add_logged (debug_lines cfg k1 k2) w)
    = (inr b, called (validate_request cfg) (l ++ debug_lines cfg k1 k2) w)
    /\ (fetched_schema cfg w = None -> b = false)
    /\ (shaped_schema cfg w -> b = true)
    /\ main cfg tz review store w
       = (if negb b then
            logger ERROR "数据库结构验证失败，请检查属性配置" [];;
            mret (Some 1)
          else
            owned_game_data ← get_owned_game_data_from_steam cfg;
            unusable ← (if negb (truthy owned_game_data) then mret true
                        else
                          has ← lift (py_contains owned_game_data "response");
                          if negb has then mret true
                          else
                            response ← lift (py_getitem owned_game_data "response");
                            has ← lift (py_contains response "games");
                            mret (negb has));
            if unusable : bool then
              logger ERROR "无法获取Steam游戏数据，请检查API密钥和用户ID" [];;
              mret (Some 1)
            else
              response ← lift (py_getitem owned_game_data "response");
              games ← lift (py_getitem response "games");
              items ← lift (py_iter games);
              r ← main_loop cfg tz review store items;
              mret (match r with
                    | Some _ => Some 0
                    | None => None
                    end))
           (called (validate_request cfg) (l ++ debug_lines cfg k1 k2) w).
Proof.
  intros Hk1 Hk2.
  destruct (validate_run cfg (add_logged (debug_lines cfg k1 k2) w)) as (b & l & Hrun & Hcases).
  exists b, l.
  assert (Hw : called (validate_request cfg) l (add_logged (debug_lines cfg k1 k2) w)
               = called (validate_request cfg) (l ++ debug_lines cfg k1 k2) w).
  { unfold called, add_logged. cbn [network calls slept logged]. by rewrite app_assoc. }
  rewrite Hw in Hrun.
  change (fetched_schema cfg (add_logged (debug_lines cfg k1 k2) w))
    with (fetched_schema cfg w) in Hcases.
  split; [exact Hrun|]. split; [|split].
  - intros Hnone. by rewrite Hnone in Hcases.
  - intros (d & props & Hs & Hp & Hall). rewrite Hs in Hcases.
    by destruct (Hcases d props eq_refl Hp Hall).
  - unfold main, key_prefix. rewrite Hk1, Hk2.
    cbv [mbind M_bind bind mret M_ret ret logger].
    cbn [network calls slept logged].
    change {| network := network w; calls := calls w; slept := slept w;
              logged := _ |} with (add_logged (debug_lines cfg k1 k2) w).
    rewrite Hrun. reflexivity.
Qed.

(** X21: when the fetch or the parse of the schema fails, [main] exits
    with status 1 after that one request: Steam is not asked. *)
Theorem main_exits_on_validation_failure cfg tz review store k1 k2 w :
  STEAM_API_KEY cfg = Some k1 ->
  NOTION_API_KEY cfg = Some k2 ->
  fetched_schema cfg w = None ->
  exists l, main cfg tz review store w = (inr (Some 1), called (validate_request cfg) l w).
Proof.
  intros Hk1 Hk2 Hnone.
  destruct (main_validates cfg tz review store k1 k2 w Hk1 Hk2)
    as (b & l & _ & Hfalse & _ & ->).
  rewrite (Hfalse Hnone). eexists (_ :: _). reflexivity.
Qed.

Lemma main_exits_on_validation_failure_witness :
  exists l,
    main Examples.cfg UTC (review_of "Good.") (store_of Examples.store) Examples.offline
    = (inr (Some 1), called (validate_request Examples.cfg) l Examples.offline).
Proof.
  apply (main_exits_on_validation_failure Examples.cfg UTC (review_of "Good.")
           (store_of Examples.store) "steam-key" "secret" Examples.offline); reflexivity.
Defined.

(** [main] up to the loop. *)
Lemma main_fetches cfg tz review store k1 k2 w :
  STEAM_API_KEY cfg = Some k1 ->
  NOTION_API_KEY cfg = Some k2 ->
  shaped_schema cfg w ->
  exists w2,
    network w2 = network w
    /\ calls w2 = (startup_calls cfg w ++ calls w)%list
    /\ main cfg tz review store w
       = (let owned_game_data := owned cfg w in
          unusable ← (if negb (truthy owned_game_data) then mret true
                      else
                        has ← lift (py_contains owned_game_data "response");
                        if negb has then mret true
                        else
                          response ← lift (py_getitem owned_game_data "response");
                          has ← lift (py_contains response "games");
                          mret (negb has));
          if unusable : bool then
            logger ERROR "无法获取Steam游戏数据，请检查API密钥和用户ID" [];;
            mret (Some 1)
          else
            response ← lift (py_getitem owned_game_data "response");
            games ← lift (py_getitem response "games");
            items ← lift (py_iter games);
            r ← main_loop cfg tz review store items;
            mret (match r with
                  | Some _ => Some 0
                  | None => None
                  end)) w2.
Proof.
  intros Hk1 Hk2 Hshaped.
  destruct (main_validates cfg tz review store k1 k2 w Hk1 Hk2)
    as (b & l & _ & _ & Htrue & ->).
  rewrite (Htrue Hshaped). cbn [negb].
  set (w1 := called (validate_request cfg) (l ++ debug_lines cfg k1 k2) w).
  destruct (get_owned_game_data_run cfg w1) as (w2 & Hrun & Hatt).
  rewrite (first_success_ext (called (validate_request cfg) [] w) w1) in Hrun, Hatt
    by reflexivity.
  destruct Hatt as (Hn & Hc & _).
  exists w2. split; [exact Hn|]. split.
  - rewrite Hc. unfold startup_calls. by rewrite <- app_assoc.
  - cbv [mbind M_bind bind]. rewrite Hrun. reflexivity.
Qed.

(** X22: when the schema passes and the owned games cannot be read from
    the answer of Steam (the mapping is empty, as after a failed fetch, or it
    has no "response" or no "games"), [main] exits with status 1 and sends
    nothing after the startup requests. *)
Theorem main_exits_without_library cfg tz review store k1 k2 w d :
  STEAM_API_KEY cfg = Some k1 ->
  NOTION_API_KEY cfg = Some k2 ->
  shaped_schema cfg w ->
  owned cfg w = PDict d ->
  dict_get d "response" = None
  \/ (exists response, dict_get d "response" = Some (PDict response)
                       /\ dict_get response "games" = None) ->
  exists w',
    main cfg tz review store w = (inr (Some 1), w')
    /\ calls w' = (startup_calls cfg w ++ calls w)%list.
Proof.
  intros Hk1 Hk2 Hshaped Howned Hcases.
  destruct (main_fetches cfg tz review store k1 k2 w Hk1 Hk2 Hshaped)
    as (w2 & _ & Hc & ->).
  rewrite Howned. cbv zeta. mrun. cbn [truthy py_contains py_getitem].
  destruct d as [|kv d'].
  { cbn [negb]. eexists. split; [reflexivity | exact Hc]. }
  cbn [negb]. set (dd := kv :: d') in *.
  destruct Hcases as [Hno | (resp & Hresp & Hgames)].
  - rewrite bool_decide_false by (rewrite Hno; intros [? ?]; discriminate).
    cbn [negb]. eexists. split; [reflexivity | exact Hc].
  - rewrite bool_decide_true by (rewrite Hresp; eauto). cbn [negb].
    rewrite Hresp. cbn [py_contains].
    rewrite bool_decide_false by (rewrite Hgames; intros [? ?]; discriminate).
    cbn [negb]. eexists. split; [reflexivity | exact Hc].
Qed.

(** X23: when the schema passes and Steam lists the games, [main] goes
    through them after the startup requests and exits with status 0 once the
    loop is through; with no game it sends nothing more. *)
Theorem main_runs_loop cfg tz review store k1 k2 w d response items :
  STEAM_API_KEY cfg = Some k1 ->
  NOTION_API_KEY cfg = Some k2 ->
  shaped_schema cfg w ->
  owned cfg w = PDict d ->
  dict_get d "response" = Some (PDict response) ->
  dict_get response "games" = Some (PList items) ->
  exists w2,
    network w2 = network w
    /\ calls w2 = (startup_calls cfg w ++ calls w)%list
    /\ main cfg tz review store w
       = (r ← main_loop cfg tz review store items;
          mret (match r with
                | Some _ => Some 0
                | None => None
                end)) w2
    /\ (items = [] -> main cfg tz review store w = (inr (Some 0), w2)).
Proof.
  intros Hk1 Hk2 Hshaped Howned Hresp Hgames.
  destruct (main_fetches cfg tz review store k1 k2 w Hk1 Hk2 Hshaped)
    as (w2 & Hn & Hc & Hmain).
  exists w2. split; [exact Hn|]. split; [exact Hc|].
  assert (Hrun : main cfg tz review store w
                 = (r ← main_loop cfg tz review store items;
                    mret (match r with
                          | Some _ => Some 0
                          | None => None
                          end)) w2).
  { rewrite Hmain, Howned. cbv zeta. mrun. cbn [py_contains py_getitem].
    destruct d as [|kv d']; [discriminate|]. cbn [truthy negb]. set (dd := kv :: d') in *.
    rewrite bool_decide_true by (rewrite Hresp; eauto). cbn [negb].
    rewrite Hresp. cbn [py_contains py_getitem].
    rewrite bool_decide_true by (rewrite Hgames; eauto). cbn [negb].
    rewrite Hgames. reflexivity. }
  split; [exact Hrun|]. intros ->. rewrite Hrun. reflexivity.
Qed.

Lemma main_exits_without_library_witness :
  exists w',
    main Examples.cfg UTC (review_of "Good.") (store_of Examples.store)
      (scripted [ok_response matching_schema]) = (inr (Some 1), w')
    /\ calls w'
       = (startup_calls Examples.cfg (scripted [ok_response matching_schema])
          ++ calls (scripted [ok_response matching_schema]))%list.
Proof.
  apply (main_exits_without_library Examples.cfg UTC (review_of "Good.")
           (store_of Examples.store) "steam-key" "secret"
           (scripted [ok_response matching_schema]) []).
  - reflexivity.
  - reflexivity.
  - do 2 eexists. split; [reflexivity|]. split; reflexivity.
  - reflexivity.
  - left. reflexivity.
Defined.

Lemma main_runs_loop_witness :
  exists w2,
    main Examples.cfg UTC (review_of "Good.") (store_of Examples.store)
      (scripted [ok_response matching_schema; ok_response empty_library])
    = (inr (Some 0), w2)
    /\ length (calls w2) = 2%nat.
Proof.
  destruct (main_runs_loop Examples.cfg UTC (review_of "Good.") (store_of Examples.store)
              "steam-key" "secret"
              (scripted [ok_response matching_schema; ok_response empty_library])
              [("response", PDict [("game_count", PInt 0); ("games", PList [])])]
              [("game_count", PInt 0); ("games", PList [])] [])
    as (w2 & _ & Hc & _ & Hdone).
  - reflexivity.
  - reflexivity.
  - do 2 eexists. split; [reflexivity|]. split; reflexivity.
  - reflexivity.
  - reflexivity.
  - reflexivity.
  - exists w2. split; [apply Hdone; reflexivity|]. rewrite Hc. reflexivity.
Defined.

Lemma startup_calls_example :
  length (startup_calls Examples.cfg
            (scripted [ok_response matching_schema; ok_response empty_library])) = 2%nat
  /\ length (startup_calls Examples.cfg (scripted [ok_response matching_schema])) = 21%nat.
Proof. split; reflexivity. Qed.

(** ** What the script never sends *)

Lemma sends_only_logs P {A} (m : M A) : only_logs m -> sends P m.
Proof. intros Hm w. destruct (Hm w) as [l ->]. exists []. done. Qed.

Lemma sends_bind P {A B} (m : M A) (k : A -> M B) :
  sends P m -> (forall a, sends P (k a)) -> sends P (mbind k m).
Proof.
  intros Hm Hk w. destruct (Hm w) as (new1 & H1 & HP1).
  cbv [mbind M_bind bind]. destruct (m w) as [[e|a] w1]; cbn [snd] in *.
  - by exists new1.
  - destruct (Hk a w1) as (new2 & H2 & HP2). exists (new2 ++ new1)%list.
    rewrite H2, H1, app_assoc. split; [done|]. by apply Forall_app.
Qed.

Lemma sends_attempt P {A} (m : M A) : sends P m -> sends P (attempt m).
Proof.
  intros Hm w. destruct (Hm w) as (new & H & HP). exists new.
  unfold attempt. destruct (m w) as [r w']. done.
Qed.

Lemma sends_requests_call P rq : P rq -> sends P (requests_call rq).
Proof.
  intros HP w. exists [rq]. unfold requests_call.
  destruct (network w (length (calls w)) rq); cbn; split; by repeat constructor.
Qed.

Lemma Forall_repeat_same {A} (P : A -> Prop) x n : P x -> Forall P (repeat x n).
Proof. intros HP. induction n as [|n IH]; cbn [repeat]; by constructor. Qed.

Lemma sends_client P url headers json params retries method :
  supported method = true ->
  P (request_of url headers json params method) ->
  sends P (send_request_with_retry url headers json params retries method).
Proof.
  intros Hm HP w.
  destruct (send_request_with_retry_run url headers json params retries method w Hm)
    as (res & w' & n & Hrun & (_ & Hc & _) & _).
  rewrite Hrun. cbn [snd]. eexists. split; [exact Hc|].
  by apply Forall_repeat_same.
Qed.

Ltac sends_step :=
  lazymatch goal with
  | |- sends _ (mbind _ _) => apply sends_bind; [|intros ?]
  | |- sends _ (attempt _) => apply sends_attempt
  | |- sends _ (requests_call _) =>
      apply sends_requests_call; unfold not_patch; cbn [req_method]; discriminate
  | |- sends _ (send_request_with_retry _ _ _ _ _ _) =>
      apply sends_client;
        [reflexivity | unfold not_patch, request_of; cbn [req_method]; discriminate]
  | |- sends _ (mret _) => apply sends_only_logs, only_logs_ret
  | |- sends _ (ret _) => apply sends_only_logs, only_logs_ret
  | |- sends _ (raise _) => apply sends_only_logs, only_logs_raise
  | |- sends _ (lift _) => apply sends_only_logs, only_logs_lift
  | |- sends _ (logger _ _ _) => apply sends_only_logs, only_logs_logger
  | |- sends _ (field _ _) => apply sends_only_logs, only_logs_field
  | |- sends _ (getitem _ _) => apply sends_only_logs, only_logs_getitem
  | |- sends _ (is_record _ _ _) => apply sends_only_logs, only_logs_is_record
  | |- sends _ (add_item_frame _ _ _ _ _ _) => apply sends_only_logs, only_logs_add_item_frame
  | |- sends _ (count_loop _ _) => apply sends_only_logs, only_logs_count_loop
  | |- sends _ (validate_loop _ _) => apply sends_only_logs, only_logs_validate_loop
  | |- sends _ (raise_for_status _) => unfold raise_for_status
  | |- sends _ (response_json _) => unfold response_json
  | |- sends _ (retry_json _) => unfold retry_json
  | |- sends _ (key_prefix _ _) => unfold key_prefix
  | |- sends _ (if ?b then _ else _) => destruct b
  | |- sends _ (match ?x with _ => _ end) => destruct x
  end.

Ltac sends_auto := cbv zeta; repeat sends_step.

Lemma sends_validate cfg : sends not_patch (validate_database_structure cfg).
Proof. unfold validate_database_structure. sends_auto. Qed.

Lemma sends_owned cfg : sends not_patch (get_owned_game_data_from_steam cfg).
Proof. unfold get_owned_game_data_from_steam. sends_auto. Qed.

Lemma sends_achievements cfg g : sends not_patch (get_achievements_count cfg g).
Proof. unfold get_achievements_count, query_achievements_info_from_steam. sends_auto. Qed.

Lemma sends_query cfg g : sends not_patch (query_item_from_notion_database cfg g).
Proof. unfold query_item_from_notion_database. sends_auto. Qed.

Lemma sends_add cfg tz g a r s : sends not_patch (add_item_to_notion_database cfg tz g a r s).
Proof. unfold add_item_to_notion_database. sends_auto. Qed.

Lemma sends_reconcile cfg tz g a r s :
  enable_item_update cfg <> "true" ->
  sends not_patch (reconcile cfg tz g a r s).
Proof.
  intros Hupd%String.eqb_neq. unfold reconcile. rewrite Hupd.
  sends_auto; apply sends_query || apply sends_add.
Qed.

Section NeverPatches.

Context (cfg : config) (tz : timezone).
Context (review : Z -> atom -> M string) (store : Z -> M steam_store_data).
Hypothesis updates_off : enable_item_update cfg <> "true".
Hypothesis review_sends : forall id user, sends not_patch (review id user).
Hypothesis store_sends : forall id, sends not_patch (store id).

Lemma sends_process_game g : sends not_patch (process_game cfg tz review store g).
Proof.
  unfold process_game.
  repeat first
    [ apply sends_achievements | apply review_sends | apply store_sends
    | apply (sends_reconcile cfg tz _ _ _ _ updates_off) | sends_step ].
Qed.

Lemma sends_main_loop games : sends not_patch (main_loop cfg tz review store games).
Proof.
  induction games as [|v games IH]; cbn [main_loop].
  - sends_step.
  - repeat first [ apply sends_process_game | apply IH | sends_step ].
Qed.

Lemma sends_main : sends not_patch (main cfg tz review store).
Proof.
  unfold main.
  repeat first
    [ apply sends_validate | apply sends_owned | apply sends_main_loop | sends_step ].
Qed.

End NeverPatches.

(** X24: with updates disabled, the script never sends a PATCH request,
    whatever the network answers and whether the run ends or raises,
    provided the collaborators send none: pages that exist are never
    written to. *)
Theorem main_never_patches cfg tz review store w :
  enable_item_update cfg <> "true" ->
  (forall id user, sends not_patch (review id user)) ->
  (forall id, sends not_patch (store id)) ->
  exists new,
    calls (snd (main cfg tz review store w)) = (new ++ calls w)%list
    /\ Forall (fun rq => req_method rq <> "patch") new.
Proof.
  intros Hupd Hreview Hstore.
  exact (sends_main cfg tz review store Hupd Hreview Hstore w).
Qed.

Lemma main_never_patches_witness :
  exists new,
    calls (snd (main no_updates UTC (review_of "Good.") (store_of Examples.store)
                  (always one_page)))
    = (new ++ calls (always one_page))%list
    /\ Forall (fun rq => req_method rq <> "patch") new.
Proof.
  apply (main_never_patches no_updates UTC (review_of "Good.") (store_of Examples.store)
           (always one_page)).
  - cbn. discriminate.
  - intros id user. apply sends_only_logs, only_logs_ret.
  - intros id. apply sends_only_logs, only_logs_ret.
Defined.
